(** * Node selection methods of dbt-core: a shallow embedding

    This development embeds [core/dbt/graph/selector_methods.py] and states
    the properties of its selector methods.

    Conventions of the embedding.
    - A Python [str] is a [string]; [str.split] and [str.join] are
      written out below.  [str.upper] is the case mapping of Unicode,
      library code: it is a field of [Externals].
    - A Python [dict] is an association list in insertion order; membership
      and lookup take the first binding.  Python dictionaries have unique
      keys, which is the predicate [Dict.wf].
    - A [Set[UniqueId]] is a list used only through membership.
    - A generator is the list of the ids it yields together with the
      exception that ended it, if any ([gen]).
    - Functions that live outside the file (fnmatch, the filesystem glob,
      the [same_*] comparison methods of the node classes, the version
      order) are the fields of the record [Externals]; every matcher and
      every theorem is parametric in it.
    - The classes of the manifest, of its nodes and of the previous state
      live outside the file too; they are records with the attributes
      the matchers read. *)

From Stdlib Require Import List String Ascii Bool Arith ZArith Lia.
Import ListNotations.
Local Open Scope string_scope.
Local Open Scope list_scope.

Set Implicit Arguments.
Set Warnings "-register-all".

(** ** Python strings *)

Module PyStr.

(** [str.split(sep)] for a non-empty separator: [skip] counts the
    characters of a separator occurrence still to be dropped and [cur]
    is the piece being read. *)
Fixpoint split_go (sep : string) (skip : nat) (cur : string) (s : string)
  : list string :=
  match s with
  | EmptyString => [cur]
  | String c s' =>
      match skip with
      | S k => split_go sep k cur s'
      | O =>
          if String.prefix sep s
          then cur :: split_go sep (String.length sep - 1) "" s'
          else split_go sep 0 (cur ++ String c "") s'
      end
  end.

Definition split (sep s : string) : list string := split_go sep 0 "" s.

(** [sep.join(l)] *)
Definition join (sep : string) (l : list string) : string :=
  String.concat sep l.

(** [c in s] for a one-character string [c] *)
Fixpoint contains_char (c : ascii) (s : string) : bool :=
  match s with
  | EmptyString => false
  | String d s' => Ascii.eqb c d || contains_char c s'
  end.

(** [s.rfind(".")], as an optional index *)
Fixpoint rfind_dot (s : string) : option nat :=
  match s with
  | EmptyString => None
  | String c s' =>
      match rfind_dot s' with
      | Some i => Some (S i)
      | None => if Ascii.eqb c "." then Some 0 else None
      end
  end.

Definition truthy (s : string) : bool :=
  match s with EmptyString => false | _ => true end.

(** [s in t] for strings: [s] occurs in [t] as a substring. *)
Fixpoint substring_of (s t : string) : bool :=
  String.prefix s t
  || match t with
     | EmptyString => false
     | String _ t' => substring_of s t'
     end.

(** The double-quote character, for messages. *)
Definition dq : string := String (ascii_of_nat 34) EmptyString.

End PyStr.

(** ** Python lists: negative indices and slices *)

Module PyList.

(** [l[-k]] for [k >= 1]; [None] stands for [IndexError]. *)
Definition neg_index {A} (l : list A) (k : nat) : option A :=
  nth_error (rev l) (k - 1).

(** [l[-k:]] *)
Definition last_n {A} (k : nat) (l : list A) : list A :=
  skipn (List.length l - k) l.

Definition mem (x : string) (l : list string) : bool :=
  existsb (String.eqb x) l.

End PyList.

(** ** Exceptions and generators *)

Inductive exn : Type :=
| DbtRuntimeError (msg : string)
| DbtInternalError (msg : string)
| IndexError
| KeyError (key : string)
| TypeError
| RuntimeError (msg : string)
| RecursionError
(** an exception of library code called by the file, by the name of its
    class ([ValueError], [NotImplementedError], [OSError], ...) *)
| LibraryError (cls : string) (msg : string).

Inductive result (A : Type) : Type :=
| Ret (a : A)
| Raise (e : exn).
Arguments Ret {A} a.
Arguments Raise {A} e.

Definition UniqueId := string.

(** What a consumer observes of a generator: the ids yielded, in order,
    and the exception that interrupted it ([None] when it was exhausted
    normally). *)
Record gen : Type := Gen { yields : list UniqueId; raised : option exn }.

Definition gen_done : gen := Gen [] None.
Definition gen_raise (e : exn) : gen := Gen [] (Some e).
Definition gen_yield (u : UniqueId) : gen := Gen [u] None.
Definition yield_if (b : bool) (u : UniqueId) : gen :=
  if b then gen_yield u else gen_done.

(** Sequencing: the second part runs only if the first did not raise. *)
Definition gen_seq (g1 : gen) (g2 : gen) : gen :=
  match raised g1 with
  | Some e => g1
  | None => Gen (yields g1 ++ yields g2)%list (raised g2)
  end.

(** [for x in l: body(x)] inside a generator. *)
Fixpoint gen_for {A} (body : A -> gen) (l : list A) : gen :=
  match l with
  | [] => gen_done
  | x :: r => gen_seq (body x) (gen_for body r)
  end.

(** The same loop when the body also updates the state of [self]. *)
Fixpoint gen_for_st {A S} (body : S -> A -> gen * S) (s : S) (l : list A)
  : gen * S :=
  match l with
  | [] => (gen_done, s)
  | x :: r =>
      let (g, s1) := body s x in
      match raised g with
      | Some e => (g, s1)
      | None =>
          let (g', s2) := gen_for_st body s1 r in
          (Gen (yields g ++ yields g')%list (raised g'), s2)
      end
  end.

(** ** Dictionaries *)

Module Dict.

Definition t (V : Type) := list (string * V).

Definition keys {V} (d : t V) : list string := map fst d.

Fixpoint get {V} (k : string) (d : t V) : option V :=
  match d with
  | [] => None
  | (k', v) :: r => if String.eqb k k' then Some v else get k r
  end.

Definition contains {V} (k : string) (d : t V) : bool :=
  PyList.mem k (keys d).

Definition wf {V} (d : t V) : Prop := NoDup (keys d).

(** [d[k] = v]: an existing key keeps its place. *)
Fixpoint set {V} (k : string) (v : V) (d : t V) : t V :=
  match d with
  | [] => [(k, v)]
  | (k', v') :: r =>
      if String.eqb k k' then (k, v) :: r else (k', v') :: set k v r
  end.

End Dict.

(** ** [is_selected_node] *)

Section FqnMatch.

(** [fnmatch.fnmatch(name, pattern)] of the Python library. *)
Variable fnmatch : string -> string -> bool.

Definition has_wildcard (selector_part : string) : bool :=
  existsb (fun wildcard => PyStr.contains_char wildcard selector_part)
          ["*"; "?"; "["; "]"]%char.

(** Outcome of the [for i, selector_part in enumerate(...)] loop. *)
Inductive walk_outcome : Type :=
| WalkReturnFalse
| WalkSlurp (slurp_from_ix : nat)
| WalkExhausted
| WalkIndexError.

Fixpoint prefix_walk (flat_fqn : list string) (i : nat)
         (parts : list string) : walk_outcome :=
  match parts with
  | [] => WalkExhausted
  | selector_part :: rest =>
      if has_wildcard selector_part then WalkSlurp i
      else match nth_error flat_fqn i with
           | None => WalkIndexError
           | Some seg =>
               if String.eqb seg selector_part
               then prefix_walk flat_fqn (S i) rest
               else WalkReturnFalse
           end
  end.

Definition flatten_fqn (fqn : list string) : list string :=
  flat_map (PyStr.split ".") fqn.

(** The part of the function after the leaf shortcuts. *)
Definition is_selected_tail (fqn : list string) (node_selector : string)
  : result bool :=
  let flat_fqn := flatten_fqn fqn in
  if (List.length flat_fqn <? List.length (PyStr.split "." node_selector))%nat
  then Ret false
  else
    match prefix_walk flat_fqn 0 (PyStr.split "." node_selector) with
    | WalkReturnFalse => Ret false
    | WalkIndexError => Raise IndexError
    | WalkSlurp slurp_from_ix =>
        Ret (fnmatch
               (PyStr.join "." (skipn slurp_from_ix flat_fqn))
               (PyStr.join "."
                  (skipn slurp_from_ix (PyStr.split "." node_selector))))
    | WalkExhausted => Ret true
    end.

Definition is_selected_node (fqn : list string) (node_selector : string)
           (is_versioned : bool) : result bool :=
  if is_versioned then
    let flat_node_selector := PyStr.split "." node_selector in
    match PyList.neg_index fqn 2 with
    | None => Raise IndexError
    | Some leaf =>
        if String.eqb leaf node_selector then Ret true
        else if String.eqb (PyStr.join "_" (PyList.last_n 2 fqn))
                           (PyStr.join "_" (PyList.last_n 2 flat_node_selector))
             then Ret true
             else is_selected_tail fqn node_selector
    end
  else
    match PyList.neg_index fqn 1 with
    | None => Raise IndexError
    | Some leaf =>
        if String.eqb leaf node_selector then Ret true
        else is_selected_tail fqn node_selector
    end.

End FqnMatch.

(** ** pathlib paths *)

Module PyPath.

(** A pure path: whether it is anchored at the root, and its parts;
    empty and [.] components are dropped when the path is built. *)
Record t : Type := Mk { absolute : bool; parts : list string }.

Definition of_string (s : string) : t :=
  Mk (String.prefix "/" s)
     (filter (fun p => negb (String.eqb p "" || String.eqb p "."))
             (PyStr.split "/" s)).

Fixpoint parts_eqb (a b : list string) : bool :=
  match a, b with
  | [], [] => true
  | x :: a', y :: b' => String.eqb x y && parts_eqb a' b'
  | _, _ => false
  end.

Definition eqb (p q : t) : bool :=
  Bool.eqb (absolute p) (absolute q) && parts_eqb (parts p) (parts q).

(** [p in paths] *)
Definition mem (p : t) (paths : list t) : bool := existsb (eqb p) paths.

(** [p.parents]: the logical ancestors, nearest first. *)
Fixpoint prefixes_desc (n : nat) (l : list string) : list (list string) :=
  match n with
  | O => []
  | S k => firstn k l :: prefixes_desc k l
  end.

Definition parents (p : t) : list t :=
  map (Mk (absolute p)) (prefixes_desc (List.length (parts p)) (parts p)).

(** [p.name] *)
Definition name (p : t) : string := last (parts p) "".

(** [p.stem]: the name without its last suffix; a leading or a trailing
    dot does not start a suffix. *)
Definition stem (p : t) : string :=
  let nm := name p in
  match PyStr.rfind_dot nm with
  | Some i =>
      if ((0 <? i)%nat && (i <? String.length nm - 1)%nat)%bool
      then String.substring 0 i nm
      else nm
  | None => nm
  end.

End PyPath.

(** ** The data model *)

(** Modelled from the spec: the values a node's [config] mapping (and a
    model's [version]) can hold, the configuration classes being
    outside the file. *)
Inductive cval : Type :=
| CNone
| CBool (b : bool)
| CNum (z : Z)
| CStr (s : string)
| CList (l : list cval)
| CDict (d : list (string * cval))
| COpaque (tag : string).

(** Python truthiness *)
Definition cval_truthy (v : cval) : bool :=
  match v with
  | CNone => false
  | CBool b => b
  | CNum z => negb (Z.eqb z 0)
  | CStr s => PyStr.truthy s
  | CList l => match l with [] => false | _ => true end
  | CDict d => match d with [] => false | _ => true end
  | COpaque _ => true
  end.

(** Modelled from the spec: the classes of [dbt.contracts.graph.nodes]
    that make up [SelectorTarget], which the file imports.
    [OtherManifestNode] stands for the members of [ManifestNode] no
    matcher tests for (seeds, snapshots, analyses, ...). *)
Inductive NodeClass : Type :=
| ModelNode
| GenericTestNode
| SingularTestNode
| OtherManifestNode
| SourceDefinition
| Exposure
| Metric
| SemanticModel
| SavedQuery
| UnitTestDefinition.

Definition NodeClass_eqb (a b : NodeClass) : bool :=
  match a, b with
  | ModelNode, ModelNode
  | GenericTestNode, GenericTestNode
  | SingularTestNode, SingularTestNode
  | OtherManifestNode, OtherManifestNode
  | SourceDefinition, SourceDefinition
  | Exposure, Exposure
  | Metric, Metric
  | SemanticModel, SemanticModel
  | SavedQuery, SavedQuery
  | UnitTestDefinition, UnitTestDefinition => true
  | _, _ => false
  end.

(** Modelled from the spec: the node variants of the data model, whose
    classes are outside the file, as one record with the attributes the
    matchers read.  An attribute a class may lack ([hasattr]) is an
    [option]. *)
Record Node : Type := {
  node_class : NodeClass;
  name : string;
  package_name : string;
  source_name : string;
  original_file_path : string;
  patch_path : option string;
  resource_type : string;
  fqn : list string;
  is_versioned : bool;
  config : Dict.t cval;
  tags : option (list string);
  access : string;
  test_metadata_name : option string;
  depends_on_macros : option (list string);
  version : cval;
  latest_version : cval;
  is_latest_version : bool
}.

(** Modelled from the spec: the macro variant of the data model. *)
Record Macro : Type := {
  macro_sql : string;
  macro_depends_on : list string
}.

(** Modelled from the spec: the class [Manifest] of
    [dbt.contracts.graph.manifest] is not part of the file.  Its mappings
    are the ones the matchers read; [disabled] maps an id to its shells,
    of which the code takes the first, so a binding holds a first shell
    and the remaining ones. *)
Record Manifest : Type := {
  nodes : Dict.t Node;
  sources : Dict.t Node;
  exposures : Dict.t Node;
  metrics : Dict.t Node;
  semantic_models : Dict.t Node;
  unit_tests : Dict.t Node;
  saved_queries : Dict.t Node;
  macros : Dict.t Macro;
  disabled : Dict.t (Node * list Node);
  project_name : option string;
  adapter_type : option string
}.

(** Modelled from the spec: a result record of the previous run. *)
Record RunResult : Type := {
  result_unique_id : UniqueId;
  status : string
}.

(** Modelled from the spec: a source freshness record; [max_loaded_at]
    is absent when the freshness check ended in a runtime error. *)
Record FreshnessRecord : Type := {
  fresh_unique_id : UniqueId;
  max_loaded_at : option Z
}.

(** Modelled from the spec: the class [PreviousState] of
    [dbt.contracts.state], with the previous manifest, the run results
    and the two sets of freshness records. *)
Record PreviousState : Type := {
  prev_manifest : option Manifest;
  prev_results : option (list RunResult);
  prev_sources : option (list FreshnessRecord);
  prev_sources_current : option (list FreshnessRecord)
}.

(** ** Code outside the file *)

Record Externals : Type := {
  (** [fnmatch.fnmatch(name, pattern)] *)
  fnmatch : string -> string -> bool;
  (** [s.upper()], the upper-case mapping of Unicode, which maps its own
      results to themselves *)
  str_upper : string -> string;
  str_upper_idem : forall s, str_upper (str_upper s) = str_upper s;
  (** [set(p.relative_to(root) for p in root.glob(selector))]: the glob
      of [pathlib] raises on the patterns it does not accept (the empty
      pattern, the pattern [.], an absolute pattern) *)
  glob_paths : string -> result (list PyPath.t);
  (** the values of the enumeration [NodeType] *)
  node_type_values : list string;
  NodeType_Test : string;
  NodeType_Unit : string;
  (** [getattr(value, attr)]; [None] is [AttributeError] *)
  getattr_value : cval -> string -> option cval;
  (** [hasattr(node, method_name)] for the comparison methods *)
  has_method : string -> Node -> bool;
  (** [getattr(new, compare_method)(old)] *)
  call_same : string -> Node -> Node -> bool;
  (** [new.same_contents(old)] of the classes that override it *)
  same_contents : Node -> option Node -> bool;
  (** [new.same_contents(old, adapter_type)] *)
  same_contents_adapter : Node -> option Node -> option string -> bool;
  (** [new.same_contract(old, adapter_type)] *)
  same_contract : Node -> Node -> option string -> bool;
  (** [old.same_contract_removed()] *)
  same_contract_removed : Node -> bool;
  (** the [from_resource] constructors *)
  from_resource : Node -> Node;
  (** [UnparsedVersion(v=a) > UnparsedVersion(v=b)] and [<] *)
  version_gt : cval -> cval -> bool;
  version_lt : cval -> cval -> bool
}.

(** ** [SelectorMethod]: the node iterators *)

Record SelectorMethod : Type := {
  manifest : Manifest;
  previous_state : option PreviousState;
  arguments : list string
}.

Definition IdSet := list UniqueId.

Section Iterators.

Variable self : SelectorMethod.
Variable included_nodes : IdSet.

(** The loop shared by the seven kind iterators. *)
Definition restrict (d : Dict.t Node) : list (UniqueId * Node) :=
  filter (fun kv => PyList.mem (fst kv) included_nodes) d.

Definition parsed_nodes := restrict (nodes (manifest self)).
Definition source_nodes := restrict (sources (manifest self)).
Definition exposure_nodes := restrict (exposures (manifest self)).
Definition metric_nodes := restrict (metrics (manifest self)).
Definition unit_tests_of := restrict (unit_tests (manifest self)).
Definition semantic_model_nodes := restrict (semantic_models (manifest self)).
Definition saved_query_nodes := restrict (saved_queries (manifest self)).

Definition parsed_and_unit_nodes := parsed_nodes ++ unit_tests_of.

Definition all_nodes :=
  parsed_nodes ++ source_nodes ++ exposure_nodes ++ metric_nodes
  ++ unit_tests_of ++ semantic_model_nodes ++ saved_query_nodes.

Definition configurable_nodes := parsed_nodes ++ source_nodes.

Definition non_source_nodes :=
  parsed_nodes ++ exposure_nodes ++ metric_nodes ++ unit_tests_of
  ++ semantic_model_nodes ++ saved_query_nodes.

Definition groupable_nodes := parsed_nodes ++ metric_nodes.

End Iterators.

(** ** The matchers *)

Module QualifiedNameSelectorMethod.

Definition node_is_match (X : Externals) (qualified_name : string)
           (fqn : list string) (is_versioned : bool) : result bool :=
  let unscoped_fqn := tl fqn in
  match is_selected_node (fnmatch X) fqn qualified_name is_versioned with
  | Raise e => Raise e
  | Ret true => Ret true
  | Ret false =>
      match is_selected_node (fnmatch X) unscoped_fqn qualified_name
                             is_versioned with
      | Raise e => Raise e
      | Ret true => Ret true
      | Ret false => Ret false
      end
  end.

Definition search (X : Externals) (self : SelectorMethod)
           (included_nodes : IdSet) (selector : string) : gen :=
  let non_source_nodes := non_source_nodes self included_nodes in
  gen_for (fun '(unique_id, node) =>
             match node_is_match X selector (fqn node) (is_versioned node) with
             | Raise e => gen_raise e
             | Ret b => yield_if b unique_id
             end)
          non_source_nodes.

End QualifiedNameSelectorMethod.

Module TagSelectorMethod.

Definition search (X : Externals) (self : SelectorMethod)
           (included_nodes : IdSet) (selector : string) : gen :=
  gen_for (fun '(unique_id, node) =>
             yield_if
               match tags node with
               | None => false
               | Some ts => existsb (fun tag => fnmatch X tag selector) ts
               end
               unique_id)
          (all_nodes self included_nodes).

End TagSelectorMethod.

Module GroupSelectorMethod.

(** [fnmatch] of a value that is not a string is a [TypeError]. *)
Definition search (X : Externals) (self : SelectorMethod)
           (included_nodes : IdSet) (selector : string) : gen :=
  gen_for (fun '(unique_id, node) =>
             match Dict.get "group" (config node) with
             | None => gen_done
             | Some node_group =>
                 if cval_truthy node_group then
                   match node_group with
                   | CStr g => yield_if (fnmatch X g selector) unique_id
                   | _ => gen_raise TypeError
                   end
                 else gen_done
             end)
          (groupable_nodes self included_nodes).

End GroupSelectorMethod.

Module AccessSelectorMethod.

Definition search (X : Externals) (self : SelectorMethod)
           (included_nodes : IdSet) (selector : string) : gen :=
  gen_for (fun '(unique_id, node) =>
             if negb (NodeClass_eqb (node_class node) ModelNode)
             then gen_done
             else yield_if (String.eqb selector (access node)) unique_id)
          (parsed_nodes self included_nodes).

End AccessSelectorMethod.

Definition SELECTOR_GLOB : string := "*".

Module SourceSelectorMethod.

Definition invalid_msg (selector : string) : string :=
  "Invalid source selector value " ++ PyStr.dq ++ selector ++ PyStr.dq
  ++ ". Sources must be of the form `${source_name}`, "
  ++ "`${source_name}.${target_name}`, or "
  ++ "`${package_name}.${source_name}.${target_name}".

Definition search (X : Externals) (self : SelectorMethod)
           (included_nodes : IdSet) (selector : string) : gen :=
  let parts := PyStr.split "." selector in
  let targets :=
    match parts with
    | [p0] => Ret (SELECTOR_GLOB, p0, SELECTOR_GLOB)
    | [p0; p1] => Ret (SELECTOR_GLOB, p0, p1)
    | [p0; p1; p2] => Ret (p0, p1, p2)
    | _ => Raise (DbtRuntimeError (invalid_msg selector))
    end in
  match targets with
  | Raise e => gen_raise e
  | Ret (target_package, target_source, target_table) =>
      gen_for (fun '(unique_id, node) =>
                 if negb (fnmatch X (package_name node) target_package)
                 then gen_done
                 else if negb (fnmatch X (source_name node) target_source)
                 then gen_done
                 else if negb (fnmatch X (name node) target_table)
                 then gen_done
                 else gen_yield unique_id)
              (source_nodes self included_nodes)
  end.

End SourceSelectorMethod.

(** The exposure, metric, semantic model, saved query and unit test
    matchers are the same code up to the message and the iterator. *)
Definition package_name_search (X : Externals) (msg : string -> string)
           (candidates : list (UniqueId * Node)) (selector : string) : gen :=
  let parts := PyStr.split "." selector in
  let targets :=
    match parts with
    | [p0] => Ret (SELECTOR_GLOB, p0)
    | [p0; p1] => Ret (p0, p1)
    | _ => Raise (DbtRuntimeError (msg selector))
    end in
  match targets with
  | Raise e => gen_raise e
  | Ret (target_package, target_name) =>
      gen_for (fun '(unique_id, node) =>
                 if negb (fnmatch X (package_name node) target_package)
                 then gen_done
                 else if negb (fnmatch X (name node) target_name)
                 then gen_done
                 else gen_yield unique_id)
              candidates
  end.

Module ExposureSelectorMethod.
Definition invalid_msg (selector : string) : string :=
  "Invalid exposure selector value " ++ PyStr.dq ++ selector ++ PyStr.dq
  ++ ". Exposures must be of the form ${exposure_name} or "
  ++ "${exposure_package.exposure_name}".
Definition search (X : Externals) (self : SelectorMethod)
           (included_nodes : IdSet) (selector : string) : gen :=
  package_name_search X invalid_msg (exposure_nodes self included_nodes)
                      selector.
End ExposureSelectorMethod.

Module MetricSelectorMethod.
Definition invalid_msg (selector : string) : string :=
  "Invalid metric selector value " ++ PyStr.dq ++ selector ++ PyStr.dq
  ++ ". Metrics must be of the form ${metric_name} or "
  ++ "${metric_package.metric_name}".
Definition search (X : Externals) (self : SelectorMethod)
           (included_nodes : IdSet) (selector : string) : gen :=
  package_name_search X invalid_msg (metric_nodes self included_nodes)
                      selector.
End MetricSelectorMethod.

Module SemanticModelSelectorMethod.
Definition invalid_msg (selector : string) : string :=
  "Invalid semantic model selector value " ++ PyStr.dq ++ selector
  ++ PyStr.dq
  ++ ". Semantic models must be of the form ${semantic_model_name} or "
  ++ "${semantic_model_package.semantic_model_name}".
Definition search (X : Externals) (self : SelectorMethod)
           (included_nodes : IdSet) (selector : string) : gen :=
  package_name_search X invalid_msg
                      (semantic_model_nodes self included_nodes) selector.
End SemanticModelSelectorMethod.

Module SavedQuerySelectorMethod.
Definition invalid_msg (selector : string) : string :=
  "Invalid saved query selector value " ++ PyStr.dq ++ selector ++ PyStr.dq
  ++ ". Saved queries must be of the form ${saved_query_name} or "
  ++ "${saved_query_package.saved_query_name}".
Definition search (X : Externals) (self : SelectorMethod)
           (included_nodes : IdSet) (selector : string) : gen :=
  package_name_search X invalid_msg (saved_query_nodes self included_nodes)
                      selector.
End SavedQuerySelectorMethod.

Module UnitTestSelectorMethod.
Definition invalid_msg (selector : string) : string :=
  "Invalid unit test selector value " ++ PyStr.dq ++ selector ++ PyStr.dq
  ++ ". Saved queries must be of the form ${unit_test_name} or "
  ++ "${unit_test_package_name.unit_test_name}".
Definition search (X : Externals) (self : SelectorMethod)
           (included_nodes : IdSet) (selector : string) : gen :=
  package_name_search X invalid_msg (unit_tests_of self included_nodes)
                      selector.
End UnitTestSelectorMethod.

Module PathSelectorMethod.

(** [node.patch_path.split("://")[1]] *)
Definition patch_file (patch_path : string) : result string :=
  match nth_error (PyStr.split "://" patch_path) 1 with
  | Some pfp => Ret pfp
  | None => Raise IndexError
  end.

(** The body of the loop: three independent [if] statements, each of
    which yields the id. *)
Definition visit (paths : list PyPath.t) (unique_id : UniqueId)
           (node : Node) : gen :=
  let ofp := PyPath.of_string (original_file_path node) in
  gen_seq (yield_if (PyPath.mem ofp paths) unique_id)
    (gen_seq
       match patch_path node with
       | Some pp =>
           if PyStr.truthy pp then
             match patch_file pp with
             | Raise e => gen_raise e
             | Ret pfp =>
                 yield_if (PyPath.mem (PyPath.of_string pfp) paths) unique_id
             end
           else gen_done
       | None => gen_done
       end
       (yield_if
          (existsb (fun parent => PyPath.mem parent paths)
                   (PyPath.parents ofp))
          unique_id)).

Definition search (X : Externals) (self : SelectorMethod)
           (included_nodes : IdSet) (selector : string) : gen :=
  match glob_paths X selector with
  | Raise e => gen_raise e
  | Ret paths =>
      gen_for (fun '(unique_id, node) => visit paths unique_id node)
              (all_nodes self included_nodes)
  end.

End PathSelectorMethod.

Module FileSelectorMethod.

Definition search (X : Externals) (self : SelectorMethod)
           (included_nodes : IdSet) (selector : string) : gen :=
  gen_for (fun '(unique_id, node) =>
             let p := PyPath.of_string (original_file_path node) in
             if fnmatch X (PyPath.name p) selector then gen_yield unique_id
             else if fnmatch X (PyPath.stem p) selector
                  then gen_yield unique_id
                  else gen_done)
          (all_nodes self included_nodes).

End FileSelectorMethod.

Module PackageSelectorMethod.

Definition search (X : Externals) (self : SelectorMethod)
           (included_nodes : IdSet) (selector : string) : gen :=
  let selector :=
    match project_name (manifest self) with
    | Some pn => if String.eqb selector "this" then pn else selector
    | None => selector
    end in
  gen_for (fun '(unique_id, node) =>
             yield_if (fnmatch X (package_name node) selector) unique_id)
          (all_nodes self included_nodes).

End PackageSelectorMethod.

(** ** The config matcher *)

(** [value[attr]] for a string [attr]: only a mapping answers; the other
    values raise, which [_getattr_descend] turns into [AttributeError]. *)
Definition getitem_value (value : cval) (attr : string) : option cval :=
  match value with
  | CDict d => Dict.get attr d
  | _ => None
  end.

(** [None] is [AttributeError]. *)
Fixpoint _getattr_descend (X : Externals) (value : cval)
         (attrs : list string) : option cval :=
  match attrs with
  | [] => Some value
  | attr :: rest =>
      match getattr_value X value attr with
      | Some v => _getattr_descend X v rest
      | None =>
          match getitem_value value attr with
          | Some v => _getattr_descend X v rest
          | None => None
          end
      end
  end.

Module CaseInsensitive.
(** [CaseInsensitive(a) == b] for a string [b] *)
Definition eq_str (X : Externals) (a b : string) : bool :=
  String.eqb (str_upper X a) (str_upper X b).
End CaseInsensitive.

Module ConfigSelectorMethod.

(** [selector == value]: [case_insensitive] tells whether the selector
    was wrapped in [CaseInsensitive].  A string equals no value of
    another type. *)
Definition selector_eq (X : Externals) (case_insensitive : bool)
           (selector : string) (value : cval) : bool :=
  match value with
  | CStr s =>
      if case_insensitive then CaseInsensitive.eq_str X selector s
      else String.eqb selector s
  | _ => false
  end.

(** [True in value] and [False in value]: identity or equality, and
    [1 == True], [0 == False]. *)
Definition bool_in (b : bool) (value : list cval) : bool :=
  existsb (fun v =>
             match v with
             | CBool b' => Bool.eqb b b'
             | CNum z => Z.eqb z (if b then 1 else 0)
             | _ => false
             end) value.

Definition is_true (value : cval) : bool :=
  match value with CBool true => true | _ => false end.

Definition is_false (value : cval) : bool :=
  match value with CBool false => true | _ => false end.

Definition value_matches (X : Externals) (case_insensitive : bool)
           (selector : string) (value : cval) : bool :=
  match value with
  | CList l =>
      existsb (selector_eq X case_insensitive selector) l
      || (CaseInsensitive.eq_str X selector "true" && bool_in true l)
      || (CaseInsensitive.eq_str X selector "false" && bool_in false l)
  | _ =>
      selector_eq X case_insensitive selector value
      || (CaseInsensitive.eq_str X selector "true" && is_true value)
      || (CaseInsensitive.eq_str X selector "false" && is_false value)
  end.

Definition is_severity (parts : list string) : bool :=
  match parts with
  | [p] => String.eqb p "severity"
  | _ => false
  end.

Definition visit (X : Externals) (parts : list string) (selector : string)
           (unique_id : UniqueId) (node : Node) : gen :=
  match _getattr_descend X (CDict (config node)) parts with
  | None => gen_done
  | Some value =>
      yield_if (value_matches X (is_severity parts) selector value)
               unique_id
  end.

Definition search (X : Externals) (self : SelectorMethod)
           (included_nodes : IdSet) (selector : string) : gen :=
  let parts := arguments self in
  gen_for (fun '(unique_id, node) => visit X parts selector unique_id node)
          (configurable_nodes self included_nodes).

End ConfigSelectorMethod.

Module ResourceTypeSelectorMethod.

Definition search (X : Externals) (self : SelectorMethod)
           (included_nodes : IdSet) (selector : string) : gen :=
  if PyList.mem selector (node_type_values X) then
    gen_for (fun '(unique_id, node) =>
               yield_if (String.eqb (resource_type node) selector) unique_id)
            (all_nodes self included_nodes)
  else gen_raise (DbtRuntimeError
                    ("Invalid resource_type selector " ++ PyStr.dq
                     ++ selector ++ PyStr.dq)).

End ResourceTypeSelectorMethod.

Module TestNameSelectorMethod.

Definition search (X : Externals) (self : SelectorMethod)
           (included_nodes : IdSet) (selector : string) : gen :=
  gen_for (fun '(unique_id, node) =>
             match test_metadata_name node with
             | Some tm_name =>
                 if String.eqb (resource_type node) (NodeType_Test X)
                 then yield_if (fnmatch X tm_name selector) unique_id
                 else if String.eqb (resource_type node) (NodeType_Unit X)
                 then yield_if (fnmatch X (name node) selector) unique_id
                 else gen_done
             | None =>
                 if String.eqb (resource_type node) (NodeType_Unit X)
                 then yield_if (fnmatch X (name node) selector) unique_id
                 else gen_done
             end)
          (parsed_and_unit_nodes self included_nodes).

End TestNameSelectorMethod.

Module TestTypeSelectorMethod.

(** [selector in ("data")] is a substring test: the parentheses do not
    make a tuple. *)
Definition search_types (selector : string) : result (list NodeClass) :=
  if PyList.mem selector ["generic"; "schema"] then Ret [GenericTestNode]
  else if PyStr.substring_of selector "data"
  then Ret [GenericTestNode; SingularTestNode]
  else if PyStr.substring_of selector "singular" then Ret [SingularTestNode]
  else if PyStr.substring_of selector "unit" then Ret [UnitTestDefinition]
  else Raise (DbtRuntimeError
                ("Invalid test type selector " ++ selector
                 ++ ": expected " ++ PyStr.dq ++ "generic" ++ PyStr.dq
                 ++ ", " ++ PyStr.dq ++ "singular" ++ PyStr.dq
                 ++ ", " ++ PyStr.dq ++ "unit" ++ PyStr.dq
                 ++ ", or " ++ PyStr.dq ++ "data" ++ PyStr.dq)).

Definition search (X : Externals) (self : SelectorMethod)
           (included_nodes : IdSet) (selector : string) : gen :=
  match search_types selector with
  | Raise e => gen_raise e
  | Ret types =>
      gen_for (fun '(unique_id, node) =>
                 yield_if (existsb (NodeClass_eqb (node_class node)) types)
                          unique_id)
              (parsed_and_unit_nodes self included_nodes)
  end.

End TestTypeSelectorMethod.

Module ResultSelectorMethod.

Definition search (X : Externals) (self : SelectorMethod)
           (included_nodes : IdSet) (selector : string) : gen :=
  match previous_state self with
  | None => gen_raise (DbtInternalError "No comparison run_results")
  | Some ps =>
      match prev_results ps with
      | None => gen_raise (DbtInternalError "No comparison run_results")
      | Some results =>
          let matches :=
            map result_unique_id
                (filter (fun r => String.eqb (status r) selector) results) in
          gen_for (fun '(unique_id, node) =>
                     yield_if (PyList.mem unique_id matches) unique_id)
                  (all_nodes self included_nodes)
      end
  end.

End ResultSelectorMethod.

Module VersionSelectorMethod.

Definition invalid_msg (selector : string) : string :=
  "Invalid version type selector " ++ selector ++ ": expected one of: "
  ++ PyStr.dq ++ "latest" ++ PyStr.dq ++ ", "
  ++ PyStr.dq ++ "prerelease" ++ PyStr.dq ++ ", "
  ++ PyStr.dq ++ "old" ++ PyStr.dq ++ ", or "
  ++ PyStr.dq ++ "none" ++ PyStr.dq.

Definition visit (X : Externals) (selector : string)
           (unique_id : UniqueId) (node : Node) : gen :=
  if NodeClass_eqb (node_class node) ModelNode then
    if String.eqb selector "latest" then
      yield_if (is_latest_version node) unique_id
    else if String.eqb selector "prerelease" then
      yield_if (cval_truthy (version node)
                && cval_truthy (latest_version node)
                && version_gt X (version node) (latest_version node))
               unique_id
    else if String.eqb selector "old" then
      yield_if (cval_truthy (version node)
                && cval_truthy (latest_version node)
                && version_lt X (version node) (latest_version node))
               unique_id
    else if String.eqb selector "none" then
      yield_if match version node with CNone => true | _ => false end
               unique_id
    else gen_raise (DbtRuntimeError (invalid_msg selector))
  else gen_done.

Definition search (X : Externals) (self : SelectorMethod)
           (included_nodes : IdSet) (selector : string) : gen :=
  gen_for (fun '(unique_id, node) => visit X selector unique_id node)
          (parsed_nodes self included_nodes).

End VersionSelectorMethod.

(** ** The source freshness matcher *)

Module SourceStatusSelectorMethod.

(** [{r.unique_id: r.max_loaded_at for r in results
      if hasattr(r, "max_loaded_at")}] *)
Fixpoint loaded_at (results : list FreshnessRecord) (acc : Dict.t Z)
  : Dict.t Z :=
  match results with
  | [] => acc
  | r :: rest =>
      match max_loaded_at r with
      | Some t => loaded_at rest (Dict.set (fresh_unique_id r) t acc)
      | None => loaded_at rest acc
      end
  end.

(** [{r.unique_id for r in results if not hasattr(r, "max_loaded_at")}] *)
Definition runtime_errors (results : list FreshnessRecord)
  : list UniqueId :=
  map fresh_unique_id
      (filter (fun r => match max_loaded_at r with
                        | None => true
                        | Some _ => false
                        end) results).

(** The first loop under [selector == "fresher"]. *)
Definition fresher (current_state_sources previous_state_sources : Dict.t Z)
  : list UniqueId :=
  flat_map (fun '(unique_id, cur) =>
              match Dict.get unique_id previous_state_sources with
              | None => [unique_id]
              | Some prev => if (prev <? cur)%Z then [unique_id] else []
              end)
           current_state_sources.

(** The second loop, [for unique_id in matches: ... matches.remove(..)].
    Removing an element from a set that is being iterated makes the
    iterator raise at its next step, so the loop ends normally only if
    it removes nothing.  [order] is the order of iteration; the outcome
    does not depend on it. *)
Fixpoint drop_errors (order : list UniqueId)
         (previous_state_sources_runtime_error
            current_state_sources_runtime_error : list UniqueId)
  : result unit :=
  match order with
  | [] => Ret tt
  | unique_id :: rest =>
      if PyList.mem unique_id previous_state_sources_runtime_error
         || PyList.mem unique_id current_state_sources_runtime_error
      then Raise (RuntimeError "Set changed size during iteration")
      else drop_errors rest previous_state_sources_runtime_error
                       current_state_sources_runtime_error
  end.

Definition compute_matches (previous current : list FreshnessRecord)
           (selector : string) : result (list UniqueId) :=
  let current_state_sources := loaded_at current [] in
  let current_state_sources_runtime_error := runtime_errors current in
  let previous_state_sources := loaded_at previous [] in
  (* computed from the current results, as in the source *)
  let previous_state_sources_runtime_error := runtime_errors current in
  if String.eqb selector "fresher" then
    let matches := fresher current_state_sources previous_state_sources in
    match drop_errors matches previous_state_sources_runtime_error
                      current_state_sources_runtime_error with
    | Raise e => Raise e
    | Ret _ => Ret matches
    end
  else Ret [].

Definition search (X : Externals) (self : SelectorMethod)
           (included_nodes : IdSet) (selector : string) : gen :=
  match previous_state self with
  | None =>
      gen_raise (DbtInternalError
        "No previous state comparison freshness results in sources.json")
  | Some ps =>
      match prev_sources ps with
      | None =>
          gen_raise (DbtInternalError
            "No previous state comparison freshness results in sources.json")
      | Some previous =>
          match prev_sources_current ps with
          | None =>
              gen_raise (DbtInternalError
                "No current state comparison freshness results in sources.json")
          | Some current =>
              match compute_matches previous current selector with
              | Raise e => gen_raise e
              | Ret matches =>
                  gen_for (fun '(unique_id, node) =>
                             yield_if (PyList.mem unique_id matches)
                                      unique_id)
                          (all_nodes self included_nodes)
              end
          end
      end
  end.

End SourceStatusSelectorMethod.

(** ** The state matcher *)

Module StateSelectorMethod.

(** [_macros_modified], given the two [macros] mappings. *)
Definition _macros_modified (old_macros new_macros : Dict.t Macro)
  : list string :=
  flat_map (fun '(uid, macro) =>
              match Dict.get uid old_macros with
              | Some old_macro =>
                  if negb (String.eqb (macro_sql macro) (macro_sql old_macro))
                  then [uid] else []
              | None => [uid]
              end)
           new_macros
  ++ flat_map (fun '(uid, _) =>
                 if negb (Dict.contains uid new_macros) then [uid] else [])
              old_macros.

(** What a call of [recursively_check_macros_modified] leaves behind:
    its outcome and the list [visited_macros], which it extends in
    place. *)
Definition visit_result : Type := result bool * list string.

Section Traversal.

Variable new_macros : Dict.t Macro.
Variable modified_macros : list string.

(** The [for] loop of [recursively_check_macros_modified]; [todo] is
    what remains of [node.depends_on.macros], [all_macros] is the list
    in full (the last test of the body reads its length) and [recurse]
    is the recursive call.  [None] means that the bound on the depth of
    the recursion was reached. *)
Fixpoint macros_loop
         (recurse : list string -> list string -> option visit_result)
         (all_macros todo : list string) (visited_macros : list string)
  : option visit_result :=
  match todo with
  | [] => Some (Ret false, visited_macros)
  | macro_uid :: rest =>
      if PyList.mem macro_uid visited_macros
      then macros_loop recurse all_macros rest visited_macros
      else
        let visited_macros := visited_macros ++ [macro_uid] in
        if PyList.mem macro_uid modified_macros
        then Some (Ret true, visited_macros)
        else
          match Dict.get macro_uid new_macros with
          | None => Some (Raise (KeyError macro_uid), visited_macros)
          | Some macro_node =>
              if (0 <? List.length (macro_depends_on macro_node))%nat
              then
                match recurse (macro_depends_on macro_node)
                              visited_macros with
                | None => None
                | Some (Raise e, visited_macros) =>
                    Some (Raise e, visited_macros)
                | Some (Ret true, visited_macros) =>
                    Some (Ret true, visited_macros)
                | Some (Ret false, visited_macros) =>
                    macros_loop recurse all_macros rest visited_macros
                end
              else
                if (List.length visited_macros
                    <? List.length all_macros)%nat
                then macros_loop recurse all_macros rest visited_macros
                else macros_loop recurse all_macros rest visited_macros
          end
  end.

(** [recursively_check_macros_modified] on the [depends_on.macros] of
    a node that has the attribute; [depth] bounds the nesting of the
    recursive calls. *)
Fixpoint check_macros (depth : nat) (all_macros : list string)
         (visited_macros : list string) {struct depth}
  : option visit_result :=
  match depth with
  | O => None
  | S depth' =>
      macros_loop (check_macros depth') all_macros all_macros visited_macros
  end.

(** The nesting of calls cannot exceed the number of macros of the
    manifest by more than one, as proved below; Python's own limit on
    the depth of recursion is not modelled. *)
Definition max_depth : nat := S (List.length new_macros).

(** [recursively_check_macros_modified(node, visited_macros)];
    [node] is [None] in the pass over the removed nodes. *)
Definition recursively_check_macros_modified (node : option Node)
           (visited_macros : list string) : visit_result :=
  match node with
  | None => (Ret false, visited_macros)
  | Some n =>
      match depends_on_macros n with
      | None => (Ret false, visited_macros)
      | Some ms =>
          match check_macros max_depth ms visited_macros with
          | Some r => r
          | None => (Raise RecursionError, visited_macros)
          end
      end
  end.

End Traversal.

(** The state of the instance: [self.modified_macros]. *)
Definition memo : Type := option (list string).

Section Checks.

Variable X : Externals.
Variable self : SelectorMethod.
(** [self.previous_state.manifest], checked by the caller *)
Variable old_manifest : Manifest.

Definition check_macros_modified (st : memo) (node : option Node)
  : result bool * memo :=
  let modified_macros :=
    match st with
    | None => _macros_modified (macros old_manifest)
                               (macros (manifest self))
    | Some l => l
    end in
  match modified_macros with
  | [] => (Ret false, Some modified_macros)
  | _ =>
      (fst (recursively_check_macros_modified
              (macros (manifest self)) modified_macros node []),
       Some modified_macros)
  end.

(** The function returned by [check_modified_contract]. *)
Definition check_modified_contract (compare_method : string)
           (adapter : option string)
           (old new : option Node) : bool :=
  match new, old with
  | None, Some o =>
      if has_method X (compare_method ++ "_removed") o
      then same_contract_removed X o
      else false
  | None, None => false
  | Some n, _ =>
      if has_method X compare_method n then
        match old with
        | None => true
        | Some o => negb (same_contract X n o adapter)
        end
      else false
  end.

Definition overrides_same_contents (c : NodeClass) : bool :=
  match c with
  | SourceDefinition | Exposure | Metric | SemanticModel
  | UnitTestDefinition | SavedQuery => true
  | _ => false
  end.

Definition check_modified_content (st : memo) (old new : option Node)
           (adapter : option string) : result bool * memo :=
  let different_contents :=
    match new with
    | Some n =>
        if overrides_same_contents (node_class n)
        then negb (same_contents X n old)
        else negb (same_contents_adapter X n old adapter)
    | None => false
    end in
  let (upstream_macro_change, st') := check_macros_modified st new in
  match upstream_macro_change with
  | Raise e => (Raise e, st')
  | Ret upstream =>
      let contract :=
        match old with
        | Some o =>
            if NodeClass_eqb (node_class o) ModelNode
            then check_modified_contract "same_contract" adapter old new
            else false
        | None => false
        end in
      (Ret (different_contents || upstream || contract), st')
  end.

Definition check_unmodified_content (st : memo) (old new : option Node)
           (adapter : option string) : result bool * memo :=
  match check_modified_content st old new adapter with
  | (Ret b, st') => (Ret (negb b), st')
  | (Raise e, st') => (Raise e, st')
  end.

Definition check_modified_macros (st : memo) (old new : option Node)
  : result bool * memo :=
  check_macros_modified st new.

(** The function returned by [check_modified_factory]. *)
Definition check_modified_things (compare_method : string)
           (old new : option Node) : bool :=
  match new with
  | Some n =>
      if has_method X compare_method n then
        match old with
        | None => true
        | Some o => negb (call_same X compare_method n o)
        end
      else false
  | None => false
  end.

(** The values of the dictionary [state_checks]. *)
Inductive checker : Type :=
| LambdaNew
| LambdaOld
| CheckModifiedContent
| CheckUnmodifiedContent
| CheckModifiedThings (compare_method : string)
| CheckModifiedMacros
| CheckModifiedContract.

Definition state_checks : Dict.t checker :=
  [ ("new", LambdaNew);
    ("old", LambdaOld);
    ("modified", CheckModifiedContent);
    ("unmodified", CheckUnmodifiedContent);
    ("modified.body", CheckModifiedThings "same_body");
    ("modified.configs", CheckModifiedThings "same_config");
    ("modified.persisted_descriptions",
     CheckModifiedThings "same_persisted_description");
    ("modified.relation",
     CheckModifiedThings "same_database_representation");
    ("modified.macros", CheckModifiedMacros);
    ("modified.contract", CheckModifiedContract) ].

(** [checker.__name__] *)
Definition checker_name (c : checker) : string :=
  match c with
  | LambdaNew | LambdaOld => "<lambda>"
  | CheckModifiedContent => "check_modified_content"
  | CheckUnmodifiedContent => "check_unmodified_content"
  | CheckModifiedThings _ => "check_modified_things"
  | CheckModifiedMacros => "check_modified_macros"
  | CheckModifiedContract => "check_modified_contract"
  end.

(** The dictionary [keyword_args]: empty, or holding [adapter_type]. *)
Definition kwargs : Type := option (option string).

(** [checker(old, new, **keyword_args)].  The two content checkers
    have a third parameter, [adapter_type], without a default; the
    other checkers take two arguments and no keyword.  A call that does
    not fit the signature is a [TypeError]. *)
Definition call_checker (c : checker) (keyword_args : kwargs) (st : memo)
           (old new : option Node) : result bool * memo :=
  match c, keyword_args with
  | LambdaNew, None =>
      (Ret match old with None => true | Some _ => false end, st)
  | LambdaOld, None =>
      (Ret match old with None => false | Some _ => true end, st)
  | CheckModifiedContent, Some adapter =>
      check_modified_content st old new adapter
  | CheckUnmodifiedContent, Some adapter =>
      check_unmodified_content st old new adapter
  | CheckModifiedThings m, None =>
      (Ret (check_modified_things m old new), st)
  | CheckModifiedMacros, None => check_modified_macros st old new
  | CheckModifiedContract, None =>
      (Ret (check_modified_contract "same_contract"
                                    (adapter_type (manifest self)) old new),
       st)
  | _, _ => (Raise TypeError, st)
  end.

(** [keyword_args] once the body of the first loop has run: the body
    starts by setting [adapter_type] when the name of the checker is in
    its list. *)
Definition loop_keyword_args (c : checker) : kwargs :=
  if PyList.mem (checker_name c)
                ["same_contract"; "check_modified_content";
                 "check_unmodified_content"]
  then Some (adapter_type (manifest self))
  else None.

(** The lookup of [previous_node]. *)
Definition previous_node_of (unique_id : UniqueId) : option Node :=
  match Dict.get unique_id (nodes old_manifest) with
  | Some n => Some n
  | None =>
  match Dict.get unique_id (sources old_manifest) with
  | Some n => Some (from_resource X n)
  | None =>
  match Dict.get unique_id (exposures old_manifest) with
  | Some n => Some (from_resource X n)
  | None =>
  match Dict.get unique_id (metrics old_manifest) with
  | Some n => Some (from_resource X n)
  | None =>
  match Dict.get unique_id (semantic_models old_manifest) with
  | Some n => Some (from_resource X n)
  | None =>
  match Dict.get unique_id (unit_tests old_manifest) with
  | Some n => Some (from_resource X n)
  | None =>
  match Dict.get unique_id (saved_queries old_manifest) with
  | Some n => Some (from_resource X n)
  | None => None
  end end end end end end end.

Definition visit (c : checker) (st : memo) (kv : UniqueId * Node)
  : gen * memo :=
  let (unique_id, node) := kv in
  let previous_node := previous_node_of unique_id in
  match call_checker c (loop_keyword_args c) st previous_node
                     (Some node) with
  | (Raise e, st') => (gen_raise e, st')
  | (Ret b, st') => (yield_if b unique_id, st')
  end.

(** The body of the loop over the nodes of the previous manifest:
    nothing is yielded. *)
Definition visit_removed (c : checker) (keyword_args : kwargs) (st : memo)
           (kv : UniqueId * Node) : gen * memo :=
  let (previous_unique_id, previous_node) := kv in
  let removed_node :=
    match Dict.get previous_unique_id (disabled (manifest self)) with
    | Some shells => Some (fst shells)
    | None =>
        if negb (Dict.contains previous_unique_id (nodes (manifest self)))
        then Some previous_node
        else None
    end in
  match removed_node with
  | Some r =>
      match call_checker c keyword_args st (Some r) None with
      | (Raise e, st') => (gen_raise e, st')
      | (Ret _, st') => (gen_done, st')
      end
  | None => (gen_done, st)
  end.

Definition handles_removed (c : checker) : bool :=
  PyList.mem (checker_name c)
             ["check_modified_contract"; "check_modified_content";
              "check_unmodified_content"].

(** The two loops of [search].  [keyword_args] is initialised before
    the first loop and filled by its body, so the second loop finds it
    empty when the first had no candidate. *)
Definition search_with (c : checker) (st : memo)
           (included_nodes : IdSet) : gen * memo :=
  let candidates := all_nodes self included_nodes in
  let (g1, st1) := gen_for_st (visit c) st candidates in
  match raised g1 with
  | Some _ => (g1, st1)
  | None =>
      if handles_removed c then
        let keyword_args :=
          match candidates with
          | [] => None
          | _ :: _ => loop_keyword_args c
          end in
        let (g2, st2) :=
          gen_for_st (visit_removed c keyword_args) st1
                     (nodes old_manifest) in
        (gen_seq g1 g2, st2)
      else (g1, st1)
  end.

End Checks.

Definition invalid_msg (selector : string) : string :=
  "Got an invalid selector " ++ PyStr.dq ++ selector ++ PyStr.dq
  ++ ", expected one of " ++ PyStr.dq ++ "["
  ++ PyStr.join ", " (map (fun k => ("'" ++ k ++ "'")%string)
                          (Dict.keys (state_checks)))
  ++ "]" ++ PyStr.dq.

Definition search (X : Externals) (self : SelectorMethod) (st : memo)
           (included_nodes : IdSet) (selector : string) : gen * memo :=
  let no_manifest :=
    (gen_raise (DbtRuntimeError
       "Got a state selector method, but no comparison manifest"), st) in
  match previous_state self with
  | None => no_manifest
  | Some ps =>
      match prev_manifest ps with
      | None => no_manifest
      | Some old_manifest =>
          match Dict.get selector state_checks with
          | Some c => search_with X self old_manifest c st included_nodes
          | None => (gen_raise (DbtRuntimeError (invalid_msg selector)), st)
          end
      end
  end.

End StateSelectorMethod.

(** ** The registry *)

Module MethodName.

Inductive t : Type :=
| FQN | Tag | Group | Access | Source | Path | File | Package | Config
| TestName | TestType | ResourceType | State | Exposure | Metric | Result
| SourceStatus | Version | SemanticModel | SavedQuery | UnitTest.

End MethodName.

Module MethodManager.

(** A matcher that keeps no state of its own leaves the instance state
    as it found it. *)
Definition stateless
           (search : Externals -> SelectorMethod -> IdSet -> string -> gen)
           (X : Externals) (self : SelectorMethod)
           (st : StateSelectorMethod.memo)
           (included_nodes : IdSet) (selector : string)
  : gen * StateSelectorMethod.memo :=
  (search X self included_nodes selector, st).

(** [SELECTOR_METHODS[method]] followed by the [search] of the class.
    Every method name has an entry, so [get_method] never raises. *)
Definition search (method : MethodName.t)
  : Externals -> SelectorMethod -> StateSelectorMethod.memo ->
    IdSet -> string -> gen * StateSelectorMethod.memo :=
  match method with
  | MethodName.FQN => stateless QualifiedNameSelectorMethod.search
  | MethodName.Tag => stateless TagSelectorMethod.search
  | MethodName.Group => stateless GroupSelectorMethod.search
  | MethodName.Access => stateless AccessSelectorMethod.search
  | MethodName.Source => stateless SourceSelectorMethod.search
  | MethodName.Path => stateless PathSelectorMethod.search
  | MethodName.File => stateless FileSelectorMethod.search
  | MethodName.Package => stateless PackageSelectorMethod.search
  | MethodName.Config => stateless ConfigSelectorMethod.search
  | MethodName.TestName => stateless TestNameSelectorMethod.search
  | MethodName.TestType => stateless TestTypeSelectorMethod.search
  | MethodName.ResourceType => stateless ResourceTypeSelectorMethod.search
  | MethodName.State => StateSelectorMethod.search
  | MethodName.Exposure => stateless ExposureSelectorMethod.search
  | MethodName.Metric => stateless MetricSelectorMethod.search
  | MethodName.Result => stateless ResultSelectorMethod.search
  | MethodName.SourceStatus => stateless SourceStatusSelectorMethod.search
  | MethodName.Version => stateless VersionSelectorMethod.search
  | MethodName.SemanticModel => stateless SemanticModelSelectorMethod.search
  | MethodName.SavedQuery => stateless SavedQuerySelectorMethod.search
  | MethodName.UnitTest => stateless UnitTestSelectorMethod.search
  end.

End MethodManager.

(** ** Sample externals and data for the examples

    The theorems hold for any externals; the examples run with these:
    a glob matcher that implements [*], [?] and literal characters (not
    the character classes of [fnmatch]), the upper-case mapping of the
    ASCII letters, a glob over a directory without files, and comparison
    methods that find any two nodes the same. *)

Module Sample.

Fixpoint glob_match (fuel : nat) (pat name : string) : bool :=
  match fuel with
  | O => false
  | S k =>
      match pat with
      | EmptyString => match name with EmptyString => true | _ => false end
      | String "*" pat' =>
          glob_match k pat' name
          || match name with
             | EmptyString => false
             | String _ name' => glob_match k pat name'
             end
      | String "?" pat' =>
          match name with
          | EmptyString => false
          | String _ name' => glob_match k pat' name'
          end
      | String c pat' =>
          match name with
          | EmptyString => false
          | String d name' => Ascii.eqb c d && glob_match k pat' name'
          end
      end
  end.

Definition simple_fnmatch (name pat : string) : bool :=
  glob_match (S (String.length pat + String.length name)) pat name.

(** The case mapping on the letters a to z, which is what [str.upper]
    does to a string of ASCII characters. *)
Definition upper_ascii (c : ascii) : ascii :=
  let n := nat_of_ascii c in
  if ((97 <=? n)%nat && (n <=? 122)%nat)%bool then ascii_of_nat (n - 32) else c.

Fixpoint upper (s : string) : string :=
  match s with
  | EmptyString => EmptyString
  | String c s' => String (upper_ascii c) (upper s')
  end.

Definition upper_ascii_idem (c : ascii)
  : upper_ascii (upper_ascii c) = upper_ascii c :=
  ltac:(destruct c as [[] [] [] [] [] [] [] []]; reflexivity).

Fixpoint upper_idem (s : string) : upper (upper s) = upper s :=
  match s with
  | EmptyString => eq_refl
  | String c s' => f_equal2 String (upper_ascii_idem c) (upper_idem s')
  end.

(** The glob of [pathlib] on a directory without files: it refuses the
    empty pattern, the pattern [.] and absolute patterns, and finds
    nothing otherwise. *)
Definition empty_glob (selector : string) : result (list PyPath.t) :=
  match selector with
  | EmptyString =>
      Raise (LibraryError "ValueError" "Unacceptable pattern: ''")
  | String "." EmptyString => Raise IndexError
  | String "/" _ =>
      Raise (LibraryError "NotImplementedError"
                          "Non-relative patterns are unsupported")
  | _ => Ret []
  end.

Definition externals : Externals := {|
  fnmatch := simple_fnmatch;
  str_upper := upper;
  str_upper_idem := upper_idem;
  glob_paths := empty_glob;
  node_type_values := ["model"; "test"; "source"; "unit_test"; "seed"];
  NodeType_Test := "test";
  NodeType_Unit := "unit_test";
  getattr_value := fun _ _ => None;
  has_method := fun _ _ => true;
  call_same := fun _ _ _ => true;
  same_contents := fun _ _ => true;
  same_contents_adapter := fun _ _ _ => true;
  same_contract := fun _ _ _ => true;
  same_contract_removed := fun _ => true;
  from_resource := fun n => n;
  version_gt := fun _ _ => false;
  version_lt := fun _ _ => false
|}.

Definition model_node : Node := {|
  node_class := ModelNode;
  name := "m";
  package_name := "pkg";
  source_name := "";
  original_file_path := "models/m.sql";
  patch_path := None;
  resource_type := "model";
  fqn := ["pkg"; "m"];
  is_versioned := false;
  config := [];
  tags := Some [];
  access := "protected";
  test_metadata_name := None;
  depends_on_macros := Some [];
  version := CNone;
  latest_version := CNone;
  is_latest_version := false
|}.

Definition source_node : Node := {|
  node_class := SourceDefinition;
  name := "charges";
  package_name := "analytics";
  source_name := "stripe";
  original_file_path := "models/sources.yml";
  patch_path := None;
  resource_type := "source";
  fqn := ["analytics"; "stripe"; "charges"];
  is_versioned := false;
  config := [];
  tags := Some [];
  access := "";
  test_metadata_name := None;
  depends_on_macros := None;
  version := CNone;
  latest_version := CNone;
  is_latest_version := false
|}.

Definition empty_manifest : Manifest := {|
  nodes := []; sources := []; exposures := []; metrics := [];
  semantic_models := []; unit_tests := []; saved_queries := [];
  macros := []; disabled := [];
  project_name := Some "pkg"; adapter_type := Some "postgres"
|}.

End Sample.

(** ** Statements of the specification *)

(** *** The six steps of fully-qualified-name matching *)

Section FqnSpec.

Variable fnmatch : string -> string -> bool.

(** Step 1: [fqn[-2] == S], or the last two segments of the fqn and of
    the selector agree once joined with an underscore. *)
Definition versioned_leaf_shortcut (fqn : list string) (S : string) : Prop :=
  PyList.neg_index fqn 2 = Some S
  \/ PyStr.join "_" (PyList.last_n 2 fqn)
     = PyStr.join "_" (PyList.last_n 2 (PyStr.split "." S)).

(** Step 2: [fqn[-1] == S]. *)
Definition plain_leaf_shortcut (fqn : list string) (S : string) : Prop :=
  PyList.neg_index fqn 1 = Some S.

(** Step 4: the parts before index [i] are literal and equal to the
    segments of the flattened fqn. *)
Definition literal_prefix (F P : list string) (i : nat) : Prop :=
  forall j, j < i ->
            exists p, nth_error P j = Some p
                      /\ has_wildcard p = false
                      /\ nth_error F j = Some p.

(** Step 5: the glob tail from index [i]. *)
Definition glob_tail (F P : list string) (i : nat) : Prop :=
  fnmatch (PyStr.join "." (skipn i F)) (PyStr.join "." (skipn i P)) = true.

(** Steps 4 to 6: either the walk reaches a first part with a wildcard
    and the glob tail matches from there, or every part is literal and
    equal to its segment. *)
Definition walk_matches (F P : list string) : Prop :=
  (exists i p, nth_error P i = Some p
               /\ has_wildcard p = true
               /\ literal_prefix F P i
               /\ glob_tail F P i)
  \/ literal_prefix F P (List.length P).

Definition six_step_match (fqn : list string) (S : string)
           (is_versioned : bool) : Prop :=
  (is_versioned = true /\ versioned_leaf_shortcut fqn S)
  \/ (is_versioned = false /\ plain_leaf_shortcut fqn S)
  \/ (List.length (PyStr.split "." S) <= List.length (flatten_fqn fqn)
      /\ walk_matches (flatten_fqn fqn) (PyStr.split "." S)).

(** The invariant of the data model on [fqn]. *)
Definition fqn_invariant (fqn : list string) (is_versioned : bool) : Prop :=
  fqn <> [] /\ (is_versioned = true -> 3 <= List.length fqn).

End FqnSpec.

(** *** Invariants of the data model *)

(** Each mapping of a manifest is a dictionary: its keys are distinct. *)
Definition manifest_wf (m : Manifest) : Prop :=
  Dict.wf (nodes m) /\ Dict.wf (sources m) /\ Dict.wf (exposures m)
  /\ Dict.wf (metrics m) /\ Dict.wf (unit_tests m)
  /\ Dict.wf (semantic_models m) /\ Dict.wf (saved_queries m)
  /\ Dict.wf (macros m).

(** The keys of the seven node mappings, one after the other. *)
Definition node_mappings (m : Manifest) : list (Dict.t Node) :=
  [nodes m; sources m; exposures m; metrics m; unit_tests m;
   semantic_models m; saved_queries m].

Definition mappings_holding (m : Manifest) (u : UniqueId) : nat :=
  List.length (filter (Dict.contains u) (node_mappings m)).

(** Every included id refers to at most one entity across the mappings
    of the current manifest. *)
Definition ids_unique (m : Manifest) (included : IdSet) : Prop :=
  forall u, In u included -> mappings_holding m u <= 1.

(** Every included id resolves to a node of the current manifest. *)
Definition ids_resolve (m : Manifest) (included : IdSet) : Prop :=
  forall u, In u included -> mappings_holding m u = 1.

(** [depends_on.macros] only names macros of the same manifest. *)
Definition macros_closed (m : Manifest) : Prop :=
  (forall d u n ms w,
      In d (node_mappings m) -> In (u, n) d ->
      depends_on_macros n = Some ms -> In w ms ->
      In w (Dict.keys (macros m)))
  /\ (forall u mac w,
         In (u, mac) (macros m) -> In w (macro_depends_on mac) ->
         In w (Dict.keys (macros m))).

(** *** Upstream macro change *)

(** A macro id is modified when its [macro_sql] differs between the two
    manifests, or it was added, or it was removed. *)
Definition macro_modified (old_macros new_macros : Dict.t Macro)
           (u : string) : Prop :=
  (exists o n, Dict.get u old_macros = Some o /\ Dict.get u new_macros = Some n
               /\ macro_sql n <> macro_sql o)
  \/ (Dict.get u old_macros = None /\ Dict.get u new_macros <> None)
  \/ (Dict.get u old_macros <> None /\ Dict.get u new_macros = None).

(** The macro ids reachable from [start] by following the dependencies
    of the macros of the current manifest. *)
Inductive reachable (new_macros : Dict.t Macro) (start : list string)
  : string -> Prop :=
| reach_start : forall u, In u start -> reachable new_macros start u
| reach_step : forall u mac w,
    reachable new_macros start u ->
    Dict.get u new_macros = Some mac ->
    In w (macro_depends_on mac) ->
    reachable new_macros start w.

(** The candidate is affected by an upstream macro change. *)
Definition upstream_macro_changed (old_macros new_macros : Dict.t Macro)
           (n : Node) : Prop :=
  exists ms u, depends_on_macros n = Some ms
               /\ reachable new_macros ms u
               /\ macro_modified old_macros new_macros u.

(** *** Config values *)

(** Case-insensitive comparison is comparison of the canonical
    upper-case forms of the two strings. *)
Definition same_case (X : Externals) (a b : string) : Prop :=
  str_upper X a = str_upper X b.

(** The rule of the config matcher for a value that is not a sequence. *)
Definition config_rule (X : Externals) (parts : list string)
           (selector : string) (value : cval) : Prop :=
  (if list_eq_dec string_dec parts ["severity"]
   then exists s, value = CStr s /\ same_case X selector s
   else value = CStr selector)
  \/ (same_case X selector "true" /\ value = CBool true)
  \/ (same_case X selector "false" /\ value = CBool false).

(** *** Selectors and states a matcher accepts *)

Definition valid_selector (X : Externals) (method : MethodName.t)
           (selector : string) : Prop :=
  let n := List.length (PyStr.split "." selector) in
  match method with
  | MethodName.Source => n <= 3
  | MethodName.Exposure | MethodName.Metric | MethodName.SemanticModel
  | MethodName.SavedQuery | MethodName.UnitTest => n <= 2
  | MethodName.ResourceType => In selector (node_type_values X)
  | MethodName.TestType =>
      In selector ["generic"; "schema"; "data"; "singular"; "unit"]
  | MethodName.State =>
      In selector (Dict.keys StateSelectorMethod.state_checks)
  | MethodName.Path => exists paths, glob_paths X selector = Ret paths
  | _ => True
  end.

Definition state_precondition (method : MethodName.t)
           (ps : option PreviousState) : Prop :=
  match method with
  | MethodName.State => exists p m, ps = Some p /\ prev_manifest p = Some m
  | MethodName.Result => exists p r, ps = Some p /\ prev_results p = Some r
  | MethodName.SourceStatus =>
      exists p a b, ps = Some p /\ prev_sources p = Some a
                    /\ prev_sources_current p = Some b
  | _ => True
  end.

(** No id of the current freshness results has both a record with
    [max_loaded_at] and a record without. *)
Definition freshness_consistent (ps : option PreviousState) : Prop :=
  forall p current, ps = Some p -> prev_sources_current p = Some current ->
    forall r1 r2, In r1 current -> In r2 current ->
                  fresh_unique_id r1 = fresh_unique_id r2 ->
                  max_loaded_at r1 <> None -> max_loaded_at r2 <> None.

(** ** Scenarios *)

Module Scenario.

Definition mk_node (c : NodeClass) (rt nm : string) (path : string)
           (deps : option (list string)) : Node := {|
  node_class := c;
  name := nm;
  package_name := "pkg";
  source_name := "";
  original_file_path := path;
  patch_path := None;
  resource_type := rt;
  fqn := ["pkg"; nm];
  is_versioned := false;
  config := [];
  tags := Some [];
  access := "protected";
  test_metadata_name := None;
  depends_on_macros := deps;
  version := CNone;
  latest_version := CNone;
  is_latest_version := false
|}.

Definition with_nodes (ns srcs : Dict.t Node) (ms : Dict.t Macro)
  : Manifest := {|
  nodes := ns; sources := srcs; exposures := []; metrics := [];
  semantic_models := []; unit_tests := []; saved_queries := [];
  macros := ms; disabled := [];
  project_name := Some "pkg"; adapter_type := Some "postgres"
|}.

Definition method_on (m : Manifest) (ps : option PreviousState)
           (args : list string) : SelectorMethod :=
  {| manifest := m; previous_state := ps; arguments := args |}.

(** A project whose only node is a seed. *)
Definition seed_node : Node :=
  mk_node OtherManifestNode "seed" "s" "seeds/s.csv" None.

Definition seed_project : SelectorMethod :=
  method_on (with_nodes [("seed.pkg.s", seed_node)] [] []) None [].

(** A project with one model. *)
Definition one_model : SelectorMethod :=
  method_on (with_nodes [("model.pkg.m", Sample.model_node)] [] []) None [].

(** One source; its previous freshness check ended in a runtime error
    and its current one loaded data at time 150. *)
Definition stripe : UniqueId := "source.analytics.stripe.charges".

Definition freshness_after_error : PreviousState := {|
  prev_manifest := None;
  prev_results := None;
  prev_sources := Some [ {| fresh_unique_id := stripe;
                            max_loaded_at := None |} ];
  prev_sources_current := Some [ {| fresh_unique_id := stripe;
                                    max_loaded_at := Some 150%Z |} ]
|}.

Definition stripe_project (ps : PreviousState) : SelectorMethod :=
  method_on (with_nodes [] [(stripe, Sample.source_node)] []) (Some ps) [].

(** The current freshness results hold two records for the source, one
    with a load time and one that is a runtime error. *)
Definition freshness_twice : PreviousState := {|
  prev_manifest := None;
  prev_results := None;
  prev_sources := Some [];
  prev_sources_current := Some [ {| fresh_unique_id := stripe;
                                    max_loaded_at := Some 150%Z |};
                                 {| fresh_unique_id := stripe;
                                    max_loaded_at := None |} ]
|}.

End Scenario.

Module Scenario2.

(** One model and one source, both selected. *)
Definition model_and_source : SelectorMethod :=
  Scenario.method_on
    (Scenario.with_nodes [("model.pkg.m", Sample.model_node)]
                         [(Scenario.stripe, Sample.source_node)] [])
    None [].

Definition both : IdSet := ["model.pkg.m"; Scenario.stripe].

End Scenario2.

(** The iterators chain the restrictions of some of the mappings. *)
Definition chain (included : IdSet) (ds : list (Dict.t Node))
  : list (UniqueId * Node) :=
  flat_map (restrict included) ds.

Module Scenario3.

(** A test whose severity is configured in upper case. *)
Definition warn_test : Node := {|
  node_class := GenericTestNode;
  name := "not_null_m_id";
  package_name := "pkg";
  source_name := "";
  original_file_path := "models/schema.yml";
  patch_path := None;
  resource_type := "test";
  fqn := ["pkg"; "not_null_m_id"];
  is_versioned := false;
  config := [("severity", CStr "WARN"); ("enabled", CBool true)];
  tags := Some [];
  access := "";
  test_metadata_name := Some "not_null";
  depends_on_macros := Some [];
  version := CNone;
  latest_version := CNone;
  is_latest_version := false
|}.

Definition severity_method : SelectorMethod :=
  Scenario.method_on
    (Scenario.with_nodes [("test.pkg.not_null_m_id", warn_test)] [] [])
    None ["severity"].

End Scenario3.

Module Scenario4.

(** A project directory in which the pattern [**/*] finds the directory
    [models] and the file [models/m.sql]. *)
Definition externals : Externals := {|
  fnmatch := Sample.simple_fnmatch;
  str_upper := Sample.upper;
  str_upper_idem := Sample.upper_idem;
  glob_paths := fun selector =>
    if String.eqb selector "**/*"
    then Ret [PyPath.of_string "models"; PyPath.of_string "models/m.sql"]
    else Sample.empty_glob selector;
  node_type_values := node_type_values Sample.externals;
  NodeType_Test := "test";
  NodeType_Unit := "unit_test";
  getattr_value := fun _ _ => None;
  has_method := fun _ _ => true;
  call_same := fun _ _ _ => true;
  same_contents := fun _ _ => true;
  same_contents_adapter := fun _ _ _ => true;
  same_contract := fun _ _ _ => true;
  same_contract_removed := fun _ => true;
  from_resource := fun n => n;
  version_gt := fun _ _ => false;
  version_lt := fun _ _ => false
|}.

End Scenario4.

(** How often a single search may yield one id. *)
Definition yield_bound (method : MethodName.t) : nat :=
  match method with
  | MethodName.Path => 3
  | _ => 1
  end.

(** The macros of the manifest a traversal has not visited yet: the
    measure that bounds the depth of the recursion. *)
Definition unvisited (new_macros : Dict.t Macro) (visited : list string)
  : nat :=
  List.length (filter (fun k => negb (PyList.mem k visited))
                      (Dict.keys new_macros)).

Module Scenario5.

(** Two macros that call each other, and a third one they both call. *)
Definition cyclic_macros : Dict.t Macro :=
  [ ("macro.pkg.a", {| macro_sql := "A";
                       macro_depends_on := ["macro.pkg.b"; "macro.pkg.c"] |});
    ("macro.pkg.b", {| macro_sql := "B";
                       macro_depends_on := ["macro.pkg.a"; "macro.pkg.c"] |});
    ("macro.pkg.c", {| macro_sql := "C"; macro_depends_on := [] |}) ].

End Scenario5.

Module Scenario6.

(** The fifth scenario of the specification: the body of macro [a]
    changed; the model depends on macro [b], which depends on [a]. *)
Definition macros_before : Dict.t Macro :=
  [ ("macro.pkg.a", {| macro_sql := "X"; macro_depends_on := [] |});
    ("macro.pkg.b", {| macro_sql := "B";
                       macro_depends_on := ["macro.pkg.a"] |}) ].

Definition macros_after : Dict.t Macro :=
  [ ("macro.pkg.a", {| macro_sql := "Y"; macro_depends_on := [] |});
    ("macro.pkg.b", {| macro_sql := "B";
                       macro_depends_on := ["macro.pkg.a"] |}) ].

Definition model_m : Node :=
  Scenario.mk_node ModelNode "model" "m" "models/m.sql"
                   (Some ["macro.pkg.b"]).

(** A second model, which uses no macro. *)
Definition model_k : Node :=
  Scenario.mk_node ModelNode "model" "k" "models/k.sql" (Some []).

Definition project_nodes : Dict.t Node :=
  [("model.pkg.m", model_m); ("model.pkg.k", model_k)].

Definition before : Manifest :=
  Scenario.with_nodes project_nodes [] macros_before.

Definition after : Manifest :=
  Scenario.with_nodes project_nodes [] macros_after.

Definition state : PreviousState := {|
  prev_manifest := Some before;
  prev_results := None;
  prev_sources := None;
  prev_sources_current := None
|}.

Definition method : SelectorMethod :=
  Scenario.method_on after (Some state) [].

Definition included : IdSet := ["model.pkg.m"; "model.pkg.k"].

End Scenario6.

(** *** Statements about a call of the traversal *)

(** A call that ends on a modified macro or on an error has marked one
    id more than a call that ends with a negative answer. *)
Definition stops (r : result bool) : nat :=
  match r with
  | Ret false => 0
  | _ => 1
  end.

(** The call returns, it only adds to the visited list, and the length
    of that list plus the number of macros still to visit grows by no
    more than the one id on which the call stops. *)
Definition returns_within (new_macros : Dict.t Macro)
           (visited : list string)
           (out : option StateSelectorMethod.visit_result) : Prop :=
  exists r visited',
    out = Some (r, visited')
    /\ incl visited visited'
    /\ List.length visited' + unvisited new_macros visited'
       <= List.length visited + unvisited new_macros visited + stops r.

(** What a finished call has established: it only adds to the visited
    list; a positive answer or an error comes with a reachable macro id
    that is modified, or missing from the manifest; a negative answer
    has visited all it was asked about, and each id it added is
    unmodified and has all its dependencies visited. *)
Definition visit_spec (new_macros : Dict.t Macro)
           (modified_macros : list string)
           (start todo visited : list string)
           (out : StateSelectorMethod.visit_result) : Prop :=
  incl visited (snd out)
  /\ match fst out with
     | Ret true =>
         exists w, reachable new_macros start w /\ In w modified_macros
     | Ret false =>
         incl todo (snd out)
         /\ forall w, In w (snd out) -> ~ In w visited ->
                      ~ In w modified_macros
                      /\ exists mac, Dict.get w new_macros = Some mac
                                     /\ incl (macro_depends_on mac) (snd out)
     | Raise e =>
         exists w, reachable new_macros start w
                   /\ Dict.get w new_macros = None
                   /\ e = KeyError w
     end.

(** [self.modified_macros] is either unset or holds what
    [_macros_modified] computes. *)
Definition memo_valid (self : SelectorMethod) (old_manifest : Manifest)
           (st : StateSelectorMethod.memo) : Prop :=
  st = None
  \/ st = Some (StateSelectorMethod._macros_modified
                  (macros old_manifest) (macros (manifest self))).

(** The answer of [check_modified_content] for a candidate, once
    [modified_macros] holds the result of [_macros_modified]. *)
Definition content_modified (X : Externals) (self : SelectorMethod)
           (old_manifest : Manifest) (kv : UniqueId * Node) : bool :=
  match fst (StateSelectorMethod.check_modified_content
               X self old_manifest
               (Some (StateSelectorMethod._macros_modified
                        (macros old_manifest) (macros (manifest self))))
               (StateSelectorMethod.previous_node_of X old_manifest (fst kv))
               (Some (snd kv))
               (adapter_type (manifest self))) with
  | Ret b => b
  | Raise _ => false
  end.

(** The nodes of the previous manifest that the second loop of the state
    matcher treats as removed: disabled in the current manifest, or
    absent from its nodes. *)
Definition removed_nodes (current old_manifest : Manifest)
  : list (UniqueId * Node) :=
  filter (fun kv =>
            Dict.contains (fst kv) (disabled current)
            || negb (Dict.contains (fst kv) (nodes current)))
         (nodes old_manifest).

(** The second loop of the state matcher is never run without a
    candidate, on a removed node, by a content checker. *)
Definition removed_pass_fits (method : MethodName.t) (selector : string)
           (self : SelectorMethod) : Prop :=
  method = MethodName.State ->
  In selector ["modified"; "unmodified"] ->
  forall p old_manifest,
    previous_state self = Some p ->
    prev_manifest p = Some old_manifest ->
    removed_nodes (manifest self) old_manifest = [].

Module Scenario8.

(** The project is now empty; its previous manifest held one model. *)
Definition before : Manifest :=
  Scenario.with_nodes [("model.pkg.m", Sample.model_node)] [] [].

Definition after : Manifest := Scenario.with_nodes [] [] [].

Definition state : PreviousState := {|
  prev_manifest := Some before;
  prev_results := None;
  prev_sources := None;
  prev_sources_current := None
|}.

Definition method : SelectorMethod :=
  Scenario.method_on after (Some state) [].

End Scenario8.

(** *** The mappings a matcher iterates *)

(** The mappings of the manifest from which each matcher takes its
    candidates, read off the iterator its [search] calls. *)
Definition permitted_mappings (method : MethodName.t) (m : Manifest)
  : list (Dict.t Node) :=
  match method with
  | MethodName.FQN =>
      [nodes m; exposures m; metrics m; unit_tests m; semantic_models m;
       saved_queries m]
  | MethodName.Group => [nodes m; metrics m]
  | MethodName.Access | MethodName.Version => [nodes m]
  | MethodName.Source => [sources m]
  | MethodName.Config => [nodes m; sources m]
  | MethodName.TestName | MethodName.TestType => [nodes m; unit_tests m]
  | MethodName.Exposure => [exposures m]
  | MethodName.Metric => [metrics m]
  | MethodName.SemanticModel => [semantic_models m]
  | MethodName.SavedQuery => [saved_queries m]
  | MethodName.UnitTest => [unit_tests m]
  | MethodName.Tag | MethodName.Path | MethodName.File | MethodName.Package
  | MethodName.ResourceType | MethodName.State | MethodName.Result
  | MethodName.SourceStatus => node_mappings m
  end.

(** The macro ids a traversal starts from: the [depends_on.macros] of
    the node, nothing for a node without the attribute or for [None]. *)
Definition start_macros (node : option Node) : list string :=
  match node with
  | Some n =>
      match depends_on_macros n with
      | Some ms => ms
      | None => []
      end
  | None => []
  end.

Module Scenario9.

(** The manifests of the macro scenario, the body of macro [a] being
    the same in both. *)
Definition unchanged : PreviousState := {|
  prev_manifest := Some Scenario6.after;
  prev_results := None;
  prev_sources := None;
  prev_sources_current := None
|}.

Definition method : SelectorMethod :=
  Scenario.method_on Scenario6.after (Some unchanged) [].

(** A project whose previous manifest held model [m] only, and which
    now holds models [m] and [k]. *)
Definition grown : PreviousState := {|
  prev_manifest :=
    Some (Scenario.with_nodes [("model.pkg.m", Scenario6.model_m)] []
                              Scenario6.macros_after);
  prev_results := None;
  prev_sources := None;
  prev_sources_current := None
|}.

Definition grown_method : SelectorMethod :=
  Scenario.method_on Scenario6.after (Some grown) [].

End Scenario9.

(** *** Freshness records *)

(** The load time that a dictionary built from [results] holds for
    [u]: that of the last record of [u] that has one. *)
Definition last_loaded (results : list FreshnessRecord) (u : UniqueId)
  : option Z :=
  fold_left (fun acc r =>
               if String.eqb (fresh_unique_id r) u
               then match max_loaded_at r with
                    | Some t => Some t
                    | None => acc
                    end
               else acc)
            results None.

(** [u] was loaded, and later than the previous results say, if they
    say anything. *)
Definition fresher_than (previous current : list FreshnessRecord)
           (u : UniqueId) : Prop :=
  exists t, last_loaded current u = Some t
            /\ (last_loaded previous u = None
                \/ exists p, last_loaded previous u = Some p /\ (p < t)%Z).

(** One of the records of [u] is a runtime error: it has no load time. *)
Definition has_runtime_error (results : list FreshnessRecord)
           (u : UniqueId) : Prop :=
  exists r, In r results /\ fresh_unique_id r = u /\ max_loaded_at r = None.

Module Scenario10.

(** Two sources; the first was loaded again since the previous check,
    the second was not. *)
Definition orders : UniqueId := "source.analytics.shop.orders".

Definition state : PreviousState := {|
  prev_manifest := None;
  prev_results := None;
  prev_sources := Some [ {| fresh_unique_id := Scenario.stripe;
                            max_loaded_at := Some 100%Z |};
                         {| fresh_unique_id := orders;
                            max_loaded_at := Some 100%Z |} ];
  prev_sources_current := Some [ {| fresh_unique_id := Scenario.stripe;
                                    max_loaded_at := Some 150%Z |};
                                 {| fresh_unique_id := orders;
                                    max_loaded_at := Some 100%Z |} ]
|}.

Definition method : SelectorMethod :=
  Scenario.method_on
    (Scenario.with_nodes [] [(Scenario.stripe, Sample.source_node);
                             (orders, Sample.source_node)] [])
    (Some state) [].

End Scenario10.

(** * Properties *)

(** ** Generators *)

Lemma gen_seq_yields_in (g1 g2 : gen) (u : UniqueId) :
  In u (yields (gen_seq g1 g2)) -> In u (yields g1) \/ In u (yields g2).
Proof.
  unfold gen_seq. destruct (raised g1); simpl; intros H.
  - now left.
  - apply in_app_or in H. exact H.
Qed.

Lemma gen_for_yields_in {A} (body : A -> gen) (l : list A) (u : UniqueId) :
  In u (yields (gen_for body l)) ->
  exists x, In x l /\ In u (yields (body x)).
Proof.
  induction l as [|x r IH]; simpl; intros H.
  - contradiction.
  - apply gen_seq_yields_in in H. destruct H as [H|H].
    + exists x. auto.
    + destruct (IH H) as (y & Hy & Hu). exists y. auto.
Qed.

Lemma gen_for_total {A} (body : A -> gen) (l : list A) :
  (forall x, In x l -> raised (body x) = None) ->
  raised (gen_for body l) = None
  /\ yields (gen_for body l) = flat_map (fun x => yields (body x)) l.
Proof.
  induction l as [|x r IH]; simpl; intros H.
  - split; reflexivity.
  - destruct IH as [IH1 IH2]; [intros; apply H; auto|].
    unfold gen_seq. rewrite (H x (or_introl eq_refl)). simpl.
    rewrite IH1, IH2. split; reflexivity.
Qed.

Lemma gen_for_st_yields_in {A S} (body : S -> A -> gen * S) (l : list A) :
  forall (s : S) (u : UniqueId),
    In u (yields (fst (gen_for_st body s l))) ->
    exists x s', In x l /\ In u (yields (fst (body s' x))).
Proof.
  induction l as [|x r IH]; simpl; intros s u H.
  - contradiction.
  - destruct (body s x) as [g s1] eqn:Hb.
    destruct (raised g) eqn:Hr.
    + simpl in H. exists x, s. rewrite Hb. auto.
    + destruct (gen_for_st body s1 r) as [g' s2] eqn:Hrec. simpl in H.
      apply in_app_or in H. destruct H as [H|H].
      * exists x, s. rewrite Hb. auto.
      * specialize (IH s1 u). rewrite Hrec in IH.
        destruct (IH H) as (y & s' & Hy & Hu). exists y, s'. auto.
Qed.

Lemma yield_if_yields (b : bool) (u v : UniqueId) :
  In v (yields (yield_if b u)) -> v = u /\ b = true.
Proof.
  destruct b; simpl; intros H; [destruct H as [H|[]]; auto | contradiction].
Qed.

(** ** Membership *)

Lemma mem_In (x : string) (l : list string) :
  PyList.mem x l = true <-> In x l.
Proof.
  unfold PyList.mem. rewrite existsb_exists. split.
  - intros (y & Hy & E). apply String.eqb_eq in E. now subst.
  - intros H. exists x. split; [assumption | apply String.eqb_refl].
Qed.

Lemma restrict_In (included : IdSet) (d : Dict.t Node) (u : UniqueId)
      (n : Node) :
  In (u, n) (restrict included d) <-> In (u, n) d /\ In u included.
Proof.
  unfold restrict. rewrite filter_In. simpl. now rewrite mem_In.
Qed.

Lemma restrict_empty (d : Dict.t Node) : restrict [] d = [].
Proof.
  unfold restrict. induction d as [|kv r IH]; simpl; auto.
Qed.

(** ** The version matcher *)

(** The selector is examined inside the loop, under the test on the
    class of the node: a selector outside the four keywords raises as
    soon as a model is visited. *)
Lemma version_visit_invalid_selector (X : Externals) (selector : string)
      (u : UniqueId) (n : Node) :
  ~ In selector ["latest"; "prerelease"; "old"; "none"] ->
  node_class n = ModelNode ->
  VersionSelectorMethod.visit X selector u n
  = gen_raise (DbtRuntimeError (VersionSelectorMethod.invalid_msg selector)).
Proof.
  intros Hsel Hc. unfold VersionSelectorMethod.visit. rewrite Hc. simpl.
  repeat match goal with
         | |- context [String.eqb selector ?k] =>
             destruct (String.eqb_spec selector k);
             [exfalso; apply Hsel; subst; simpl; tauto|]
         end.
  reflexivity.
Qed.

(** Without a model among the included parsed nodes nothing examines
    the selector: the search ends normally and yields nothing. *)
Lemma version_search_no_model (X : Externals) (self : SelectorMethod)
      (included : IdSet) (selector : string) :
  (forall u n, In (u, n) (parsed_nodes self included) ->
               node_class n <> ModelNode) ->
  VersionSelectorMethod.search X self included selector = gen_done.
Proof.
  unfold VersionSelectorMethod.search.
  induction (parsed_nodes self included) as [|[u n] r IH]; simpl; intros H.
  - reflexivity.
  - rewrite IH by (intros; eapply H; right; eassumption).
    unfold VersionSelectorMethod.visit.
    specialize (H u n (or_introl eq_refl)).
    destruct (node_class n); try contradiction; reflexivity.
Qed.

Lemma version_search_invalid_selector_model :
  VersionSelectorMethod.search Sample.externals Scenario.one_model
                               ["model.pkg.m"] "bogus"
  = gen_raise (DbtRuntimeError
                 (VersionSelectorMethod.invalid_msg "bogus")).
Proof. reflexivity. Qed.

(** C8: the version matcher is meant to reject a selector other than
    "latest", "prerelease", "old" and "none"; on a project whose included
    nodes hold no model, the selector "bogus" raises nothing: the search
    ends normally with no id. *)
Theorem version_search_invalid_selector_accepted :
  VersionSelectorMethod.search Sample.externals Scenario.seed_project
                               ["seed.pkg.s"] "bogus"
  = Gen [] None.
Proof. reflexivity. Qed.

(** ** The source freshness matcher *)

(** C3: a source whose previous freshness result is a runtime error is
    meant to be excluded by "fresher"; the set of previous errors is
    computed from the current results, so the source is yielded. *)
Theorem source_status_fresher_previous_error_yielded :
  SourceStatusSelectorMethod.search
    Sample.externals
    (Scenario.stripe_project Scenario.freshness_after_error)
    [Scenario.stripe] "fresher"
  = Gen [Scenario.stripe] None.
Proof. reflexivity. Qed.

(** The exclusion loop removes from the set it iterates: whenever it
    has something to remove, the search ends in a [RuntimeError]. *)
Lemma drop_errors_raises (order prev_err cur_err : list UniqueId) :
  (exists u, In u order /\ (In u prev_err \/ In u cur_err)) ->
  SourceStatusSelectorMethod.drop_errors order prev_err cur_err
  = Raise (RuntimeError "Set changed size during iteration").
Proof.
  induction order as [|v r IH]; simpl; intros (u & Hu & Hor).
  - contradiction.
  - destruct (PyList.mem v prev_err || PyList.mem v cur_err) eqn:E; auto.
    apply IH. exists u. split; auto.
    destruct Hu as [->|]; auto.
    apply orb_false_iff in E. destruct E as [E1 E2].
    destruct Hor as [H|H]; apply mem_In in H; congruence.
Qed.

Lemma drop_errors_ok (order prev_err cur_err : list UniqueId) :
  (forall u, In u order -> ~ In u prev_err /\ ~ In u cur_err) ->
  SourceStatusSelectorMethod.drop_errors order prev_err cur_err = Ret tt.
Proof.
  induction order as [|v r IH]; simpl; intros H; auto.
  destruct (H v (or_introl eq_refl)) as [H1 H2].
  destruct (PyList.mem v prev_err) eqn:E1;
    [apply mem_In in E1; contradiction|].
  destruct (PyList.mem v cur_err) eqn:E2;
    [apply mem_In in E2; contradiction|].
  simpl. apply IH. auto.
Qed.

(** With an empty included set the source freshness matcher obtained
    from the registry raises [RuntimeError] when the current results
    hold a load time and a runtime error for the same source. *)
Lemma source_status_empty_included_raises :
  fst (MethodManager.search
         MethodName.SourceStatus Sample.externals
         (Scenario.stripe_project Scenario.freshness_twice)
         None [] "fresher")
  = Gen [] (Some (RuntimeError "Set changed size during iteration")).
Proof. reflexivity. Qed.

(** ** Identifiers across the mappings *)

Lemma contains_In {V} (u : string) (d : Dict.t V) :
  Dict.contains u d = true <-> In u (Dict.keys d).
Proof. unfold Dict.contains. apply mem_In. Qed.

Lemma In_keys {V} (u : string) (v : V) (d : Dict.t V) :
  In (u, v) d -> In u (Dict.keys d).
Proof. intros H. unfold Dict.keys. change u with (fst (u, v)). now apply in_map. Qed.

(** The mappings the fqn matcher iterates. *)
Lemma non_source_nodes_In (self : SelectorMethod) (included : IdSet)
      (u : UniqueId) (n : Node) :
  In (u, n) (non_source_nodes self included) ->
  In u included
  /\ (In (u, n) (nodes (manifest self))
      \/ In (u, n) (exposures (manifest self))
      \/ In (u, n) (metrics (manifest self))
      \/ In (u, n) (unit_tests (manifest self))
      \/ In (u, n) (semantic_models (manifest self))
      \/ In (u, n) (saved_queries (manifest self))).
Proof.
  unfold non_source_nodes, parsed_nodes, exposure_nodes, metric_nodes,
    unit_tests_of, semantic_model_nodes, saved_query_nodes.
  rewrite !in_app_iff, !restrict_In. tauto.
Qed.

Lemma source_elsewhere_twice (m : Manifest) (u : UniqueId) :
  In u (Dict.keys (sources m)) ->
  In u (Dict.keys (nodes m)) \/ In u (Dict.keys (exposures m))
  \/ In u (Dict.keys (metrics m)) \/ In u (Dict.keys (unit_tests m))
  \/ In u (Dict.keys (semantic_models m))
  \/ In u (Dict.keys (saved_queries m)) ->
  2 <= mappings_holding m u.
Proof.
  intros Hs Ho. unfold mappings_holding, node_mappings. simpl.
  apply contains_In in Hs. rewrite Hs.
  repeat rewrite <- contains_In in Ho.
  destruct (Dict.contains u (nodes m)), (Dict.contains u (exposures m)),
    (Dict.contains u (metrics m)), (Dict.contains u (unit_tests m)),
    (Dict.contains u (semantic_models m)),
    (Dict.contains u (saved_queries m)); simpl; try lia;
    exfalso; intuition discriminate.
Qed.

(** ** The fqn matcher *)

(** C10: under the invariant that an included id names one entity, the
    fqn matcher never yields the id of a source, whatever the selector
    and whether or not the source is included: it only iterates the
    parsed nodes, exposures, metrics, unit tests, semantic models and
    saved queries. *)
Theorem fqn_search_never_yields_source (X : Externals)
        (self : SelectorMethod) (included : IdSet) (selector : string)
        (u : UniqueId) :
  ids_unique (manifest self) included ->
  In u (Dict.keys (sources (manifest self))) ->
  ~ In u (yields (QualifiedNameSelectorMethod.search X self included
                                                      selector)).
Proof.
  intros Huniq Hsrc Hy.
  unfold QualifiedNameSelectorMethod.search in Hy.
  apply gen_for_yields_in in Hy. destruct Hy as ([v n] & Hin & Hy).
  assert (v = u) as ->.
  { destruct (QualifiedNameSelectorMethod.node_is_match X selector (fqn n)
                (is_versioned n)) as [b|e]; simpl in Hy.
    - apply yield_if_yields in Hy. symmetry. apply Hy.
    - contradiction. }
  apply non_source_nodes_In in Hin. destruct Hin as [Hinc Hmaps].
  specialize (Huniq u Hinc).
  assert (2 <= mappings_holding (manifest self) u); [|lia].
  apply source_elsewhere_twice; auto.
  repeat (destruct Hmaps as [Hmaps|Hmaps];
          [eauto 10 using In_keys|]); eauto 10 using In_keys.
Qed.

Lemma fqn_search_never_yields_source_witness :
  ~ In Scenario.stripe
       (yields (QualifiedNameSelectorMethod.search
                  Sample.externals Scenario2.model_and_source
                  Scenario2.both "*")).
Proof.
  apply fqn_search_never_yields_source.
  - intros u Hu. vm_compute in Hu.
    destruct Hu as [<-|[<-|[]]]; vm_compute; lia.
  - vm_compute. auto.
Defined.

Example fqn_search_model_and_source :
  QualifiedNameSelectorMethod.search
    Sample.externals Scenario2.model_and_source Scenario2.both "*"
  = Gen ["model.pkg.m"] None.
Proof. reflexivity. Qed.

(** ** The iterators under the invariants *)

Lemma keys_restrict (included : IdSet) (d : Dict.t Node) :
  Dict.keys (restrict included d)
  = filter (fun u => PyList.mem u included) (Dict.keys d).
Proof.
  unfold Dict.keys, restrict. symmetry. apply filter_map_swap.
Qed.

Lemma filter_length_pos {A} (f : A -> bool) (l : list A) (x : A) :
  In x l -> f x = true -> 1 <= List.length (filter f l).
Proof.
  induction l as [|y r IH]; simpl; intros Hin Hf; [contradiction|].
  destruct Hin as [->|Hin].
  - rewrite Hf. simpl. lia.
  - specialize (IH Hin Hf). destruct (f y); simpl; lia.
Qed.

Lemma chain_keys_In (included : IdSet) (ds : list (Dict.t Node))
      (u : UniqueId) :
  In u (Dict.keys (chain included ds)) ->
  In u included /\ exists d, In d ds /\ Dict.contains u d = true.
Proof.
  unfold chain, Dict.keys. rewrite in_map_iff.
  intros ([v n] & E & Hin). simpl in E. subst v.
  apply in_flat_map in Hin. destruct Hin as (d & Hd & Hin).
  apply restrict_In in Hin. destruct Hin as [Hin Hinc].
  split; [assumption|]. exists d. split; [assumption|].
  apply contains_In. eapply In_keys; eassumption.
Qed.

Lemma keys_app {V} (a b : Dict.t V) :
  Dict.keys (a ++ b) = Dict.keys a ++ Dict.keys b.
Proof. unfold Dict.keys. apply map_app. Qed.

Lemma chain_NoDup (included : IdSet) (ds : list (Dict.t Node)) :
  (forall d, In d ds -> Dict.wf d) ->
  (forall u, In u included ->
             List.length (filter (Dict.contains u) ds) <= 1) ->
  NoDup (Dict.keys (chain included ds)).
Proof.
  induction ds as [|d ds IH]; intros Hwf Hone.
  - constructor.
  - unfold chain. simpl. rewrite keys_app.
    fold (chain included ds).
    apply NoDup_app.
    + rewrite keys_restrict.
      apply NoDup_filter. apply Hwf. now left.
    + apply IH.
      * intros; apply Hwf; now right.
      * intros u Hu. specialize (Hone u Hu). simpl in Hone.
        destruct (Dict.contains u d); simpl in Hone; lia.
    + intros u H1 H2.
      rewrite keys_restrict in H1. apply filter_In in H1.
      destruct H1 as [H1 Hinc]. apply mem_In in Hinc.
      apply contains_In in H1.
      apply chain_keys_In in H2. destruct H2 as (_ & d' & Hd' & Hc).
      specialize (Hone u Hinc). simpl in Hone. rewrite H1 in Hone.
      pose proof (filter_length_pos (Dict.contains u) ds d' Hd' Hc).
      simpl in Hone. lia.
Qed.

Lemma manifest_wf_mappings (m : Manifest) (d : Dict.t Node) :
  manifest_wf m -> In d (node_mappings m) -> Dict.wf d.
Proof.
  unfold manifest_wf, node_mappings. simpl. intuition (subst; assumption).
Qed.

(** A selection of the mappings inherits the invariants. *)
Lemma selection_NoDup (m : Manifest) (included : IdSet)
      (ds : list (Dict.t Node)) :
  manifest_wf m -> ids_unique m included ->
  (forall d, In d ds -> In d (node_mappings m)) ->
  (forall u, List.length (filter (Dict.contains u) ds)
             <= mappings_holding m u) ->
  NoDup (Dict.keys (chain included ds)).
Proof.
  intros Hwf Huniq Hsub Hcount. apply chain_NoDup.
  - intros d Hd. eapply manifest_wf_mappings; eauto.
  - intros u Hu. specialize (Huniq u Hu). specialize (Hcount u). lia.
Qed.

Ltac count_mappings :=
  intros ?u; unfold mappings_holding, node_mappings; simpl;
  repeat match goal with
         | |- context [Dict.contains ?u ?d] =>
             destruct (Dict.contains u d); simpl
         end; lia.

Ltac pick_mapping :=
  unfold node_mappings; simpl; intros ?d ?H; intuition (subst; auto).

Lemma all_nodes_chain (self : SelectorMethod) (included : IdSet) :
  all_nodes self included = chain included (node_mappings (manifest self)).
Proof.
  unfold all_nodes, chain, node_mappings. simpl. now rewrite app_nil_r.
Qed.

Lemma all_nodes_NoDup (self : SelectorMethod) (included : IdSet) :
  manifest_wf (manifest self) -> ids_unique (manifest self) included ->
  NoDup (Dict.keys (all_nodes self included)).
Proof.
  intros Hwf Huniq. rewrite all_nodes_chain.
  apply selection_NoDup with (m := manifest self); auto.
Qed.

Lemma configurable_nodes_NoDup (self : SelectorMethod) (included : IdSet) :
  manifest_wf (manifest self) -> ids_unique (manifest self) included ->
  NoDup (Dict.keys (configurable_nodes self included)).
Proof.
  intros Hwf Huniq.
  replace (configurable_nodes self included)
    with (chain included [nodes (manifest self); sources (manifest self)])
    by (unfold configurable_nodes, chain; simpl; now rewrite app_nil_r).
  apply selection_NoDup with (m := manifest self); auto.
  - pick_mapping.
  - count_mappings.
Qed.

Lemma non_source_nodes_NoDup (self : SelectorMethod) (included : IdSet) :
  manifest_wf (manifest self) -> ids_unique (manifest self) included ->
  NoDup (Dict.keys (non_source_nodes self included)).
Proof.
  intros Hwf Huniq.
  replace (non_source_nodes self included)
    with (chain included
            [nodes (manifest self); exposures (manifest self);
             metrics (manifest self); unit_tests (manifest self);
             semantic_models (manifest self);
             saved_queries (manifest self)])
    by (unfold non_source_nodes, chain; simpl; now rewrite app_nil_r).
  apply selection_NoDup with (m := manifest self); auto.
  - pick_mapping.
  - count_mappings.
Qed.

Lemma groupable_nodes_NoDup (self : SelectorMethod) (included : IdSet) :
  manifest_wf (manifest self) -> ids_unique (manifest self) included ->
  NoDup (Dict.keys (groupable_nodes self included)).
Proof.
  intros Hwf Huniq.
  replace (groupable_nodes self included)
    with (chain included [nodes (manifest self); metrics (manifest self)])
    by (unfold groupable_nodes, chain; simpl; now rewrite app_nil_r).
  apply selection_NoDup with (m := manifest self); auto.
  - pick_mapping.
  - count_mappings.
Qed.

Lemma parsed_and_unit_nodes_NoDup (self : SelectorMethod)
      (included : IdSet) :
  manifest_wf (manifest self) -> ids_unique (manifest self) included ->
  NoDup (Dict.keys (parsed_and_unit_nodes self included)).
Proof.
  intros Hwf Huniq.
  replace (parsed_and_unit_nodes self included)
    with (chain included [nodes (manifest self);
                          unit_tests (manifest self)])
    by (unfold parsed_and_unit_nodes, chain; simpl; now rewrite app_nil_r).
  apply selection_NoDup with (m := manifest self); auto.
  - pick_mapping.
  - count_mappings.
Qed.

Lemma single_mapping_NoDup (m : Manifest) (included : IdSet)
      (d : Dict.t Node) :
  manifest_wf m -> In d (node_mappings m) ->
  NoDup (Dict.keys (restrict included d)).
Proof.
  intros Hwf Hd. rewrite keys_restrict. apply NoDup_filter.
  eapply manifest_wf_mappings; eauto.
Qed.

(** With distinct keys a key determines its value. *)
Lemma NoDup_keys_functional {V} (l : list (string * V)) (u : string)
      (a b : V) :
  NoDup (Dict.keys l) -> In (u, a) l -> In (u, b) l -> a = b.
Proof.
  induction l as [|[k v] r IH]; simpl; intros Hnd Ha Hb; [contradiction|].
  apply NoDup_cons_iff in Hnd. destruct Hnd as [Hk Hnd].
  destruct Ha as [Ha|Ha], Hb as [Hb|Hb].
  - congruence.
  - inversion Ha; subst. exfalso. apply Hk. eapply In_keys; eauto.
  - inversion Hb; subst. exfalso. apply Hk. eapply In_keys; eauto.
  - eauto.
Qed.

(** ** The config matcher *)

(** [CaseInsensitive.__eq__] compares the canonical upper-case forms. *)
Lemma eq_str_same_case (X : Externals) (a b : string) :
  CaseInsensitive.eq_str X a b = true <-> same_case X a b.
Proof. unfold CaseInsensitive.eq_str, same_case. apply String.eqb_eq. Qed.

Lemma is_severity_spec (parts : list string) :
  ConfigSelectorMethod.is_severity parts = true <-> parts = ["severity"].
Proof.
  unfold ConfigSelectorMethod.is_severity.
  destruct parts as [|p [|q r]]; split; intros H; try discriminate.
  - apply String.eqb_eq in H. now subst.
  - inversion H. reflexivity.
Qed.

(** The comparison of the loop body, for a value that is not a list. *)
Lemma value_matches_rule (X : Externals) (parts : list string)
      (selector : string) (value : cval) :
  (forall l, value <> CList l) ->
  ConfigSelectorMethod.value_matches
    X (ConfigSelectorMethod.is_severity parts) selector value = true
  <-> config_rule X parts selector value.
Proof.
  intros Hnl. unfold config_rule.
  assert (Hsel :
    ConfigSelectorMethod.selector_eq
      X (ConfigSelectorMethod.is_severity parts) selector value = true
    <-> (if list_eq_dec string_dec parts ["severity"]
         then exists s, value = CStr s /\ same_case X selector s
         else value = CStr selector)).
  { destruct (list_eq_dec string_dec parts ["severity"]) as [E|E].
    - apply is_severity_spec in E. rewrite E.
      destruct value; simpl; split; intros H;
        try discriminate; try (destruct H as (s' & H & _); discriminate).
      + exists s. split; [reflexivity|]. now apply eq_str_same_case.
      + destruct H as (s' & H & H'). inversion H; subst.
        now apply eq_str_same_case.
    - destruct (ConfigSelectorMethod.is_severity parts) eqn:Es;
        [apply is_severity_spec in Es; contradiction|].
      destruct value; simpl; split; intros H; try discriminate.
      + apply String.eqb_eq in H. now subst.
      + inversion H. apply String.eqb_refl. }
  assert (Ht : forall v, ConfigSelectorMethod.is_true v = true
                         <-> v = CBool true).
  { intros v. destruct v as [| [] | | | | |]; simpl; split;
      intros H; try discriminate; reflexivity. }
  assert (Hf : forall v, ConfigSelectorMethod.is_false v = true
                         <-> v = CBool false).
  { intros v. destruct v as [| [] | | | | |]; simpl; split;
      intros H; try discriminate; reflexivity. }
  assert (Hform :
    ConfigSelectorMethod.value_matches
      X (ConfigSelectorMethod.is_severity parts) selector value
    = ConfigSelectorMethod.selector_eq
        X (ConfigSelectorMethod.is_severity parts) selector value
      || (CaseInsensitive.eq_str X selector "true"
          && ConfigSelectorMethod.is_true value)
      || (CaseInsensitive.eq_str X selector "false"
          && ConfigSelectorMethod.is_false value)).
  { destruct value; try reflexivity. exfalso. eapply Hnl. reflexivity. }
  rewrite Hform, !orb_true_iff, !andb_true_iff, Hsel, Ht, Hf,
    !eq_str_same_case.
  tauto.
Qed.

Lemma config_visit_no_raise (X : Externals) (parts : list string)
      (selector : string) (u : UniqueId) (n : Node) :
  raised (ConfigSelectorMethod.visit X parts selector u n) = None.
Proof.
  unfold ConfigSelectorMethod.visit.
  destruct (_getattr_descend X (CDict (config n)) parts); [|reflexivity].
  destruct (ConfigSelectorMethod.value_matches _ _ _ _); reflexivity.
Qed.

(** C4: a configurable node whose config resolves, along the arguments,
    to a value that is not a list is yielded by the config matcher
    exactly when the selector equals the value (case-insensitively when
    the arguments are ["severity"]), or the selector case-folds to "true"
    and the value is the boolean true, or it case-folds to "false" and
    the value is the boolean false; the search itself never raises.
    Two strings are equal up to case when their canonical upper-case
    forms, those of [str.upper], are equal. *)
Theorem config_search_non_sequence (X : Externals) (self : SelectorMethod)
        (included : IdSet) (selector : string) (u : UniqueId) (n : Node)
        (value : cval) :
  manifest_wf (manifest self) ->
  ids_unique (manifest self) included ->
  In (u, n) (configurable_nodes self included) ->
  _getattr_descend X (CDict (config n)) (arguments self) = Some value ->
  (forall l, value <> CList l) ->
  raised (ConfigSelectorMethod.search X self included selector) = None
  /\ (In u (yields (ConfigSelectorMethod.search X self included selector))
      <-> config_rule X (arguments self) selector value).
Proof.
  intros Hwf Huniq Hin Hval Hnl.
  unfold ConfigSelectorMethod.search.
  destruct (gen_for_total
              (fun '(unique_id, node) =>
                 ConfigSelectorMethod.visit X (arguments self) selector
                                            unique_id node)
              (configurable_nodes self included)) as [Hr Hy].
  { intros [v m] _. apply config_visit_no_raise. }
  split; [exact Hr|]. rewrite Hy, in_flat_map.
  rewrite <- (value_matches_rule X (arguments self) selector Hnl).
  split.
  - intros ([v m] & Hvm & Hu).
    assert (v = u) as ->.
    { unfold ConfigSelectorMethod.visit in Hu.
      destruct (_getattr_descend X (CDict (config m)) (arguments self));
        [|contradiction].
      apply yield_if_yields in Hu. symmetry. apply Hu. }
    assert (m = n) as ->.
    { eapply NoDup_keys_functional;
        [apply configurable_nodes_NoDup| |]; eauto. }
    unfold ConfigSelectorMethod.visit in Hu. rewrite Hval in Hu.
    apply yield_if_yields in Hu. apply Hu.
  - intros Hm. exists (u, n). split; [assumption|].
    unfold ConfigSelectorMethod.visit. rewrite Hval, Hm. simpl. auto.
Qed.

Lemma config_search_non_sequence_witness :
  raised (ConfigSelectorMethod.search
            Sample.externals Scenario3.severity_method
            ["test.pkg.not_null_m_id"] "warn") = None
  /\ (In "test.pkg.not_null_m_id"
         (yields (ConfigSelectorMethod.search
                    Sample.externals Scenario3.severity_method
                    ["test.pkg.not_null_m_id"] "warn"))
      <-> config_rule Sample.externals ["severity"] "warn" (CStr "WARN")).
Proof.
  apply (@config_search_non_sequence
           Sample.externals Scenario3.severity_method
           ["test.pkg.not_null_m_id"] "warn" "test.pkg.not_null_m_id"
           Scenario3.warn_test (CStr "WARN")).
  - unfold manifest_wf, Dict.wf. simpl.
    repeat split; repeat constructor; simpl; auto.
  - intros u Hu. vm_compute in Hu. destruct Hu as [<-|[]].
    vm_compute. lia.
  - vm_compute. auto.
  - reflexivity.
  - intros l H. discriminate.
Defined.

Example config_severity_warn :
  ConfigSelectorMethod.search Sample.externals Scenario3.severity_method
                              ["test.pkg.not_null_m_id"] "warn"
  = Gen ["test.pkg.not_null_m_id"] None.
Proof. reflexivity. Qed.

Example config_severity_error :
  ConfigSelectorMethod.search Sample.externals Scenario3.severity_method
                              ["test.pkg.not_null_m_id"] "error"
  = Gen [] None.
Proof. reflexivity. Qed.

(** ** Fully-qualified-name matching *)

Lemma skipn_cons_inv {A} (l : list A) :
  forall i x rest,
    skipn i l = x :: rest -> nth_error l i = Some x /\ skipn (S i) l = rest.
Proof.
  induction l as [|y l IH]; intros i x rest H.
  - destruct i; discriminate.
  - destruct i as [|i]; simpl in H.
    + inversion H; subst. split; reflexivity.
    + apply IH in H. exact H.
Qed.

Lemma skipn_nil_inv {A} (l : list A) :
  forall i, skipn i l = [] -> List.length l <= i.
Proof.
  induction l as [|y l IH]; intros i H; simpl.
  - lia.
  - destruct i as [|i]; simpl in H; [discriminate|].
    apply IH in H. lia.
Qed.

Lemma literal_prefix_extend (F P : list string) (i : nat) (p : string) :
  literal_prefix F P i ->
  nth_error P i = Some p -> has_wildcard p = false ->
  nth_error F i = Some p ->
  literal_prefix F P (S i).
Proof.
  intros Hlit Hp Hw Hf j Hj.
  destruct (Nat.eq_dec j i) as [->|Hne].
  - exists p. auto.
  - apply Hlit. lia.
Qed.

(** What each outcome of the loop says about the selector parts [P] and
    the flattened fqn [F]. *)
Lemma prefix_walk_outcome (F P : list string) :
  forall parts i,
    skipn i P = parts -> literal_prefix F P i ->
    match prefix_walk F i parts with
    | WalkExhausted => literal_prefix F P (List.length P)
    | WalkSlurp k =>
        exists p, nth_error P k = Some p /\ has_wildcard p = true
                  /\ literal_prefix F P k
    | WalkReturnFalse =>
        exists k p seg,
          literal_prefix F P k /\ nth_error P k = Some p
          /\ has_wildcard p = false /\ nth_error F k = Some seg /\ seg <> p
    | WalkIndexError =>
        exists k p, nth_error P k = Some p /\ nth_error F k = None
    end.
Proof.
  induction parts as [|p rest IH]; intros i Hskip Hlit; simpl.
  - apply skipn_nil_inv in Hskip. intros j Hj. apply Hlit. lia.
  - apply skipn_cons_inv in Hskip. destruct Hskip as [Hp Hrest].
    destruct (has_wildcard p) eqn:Hw.
    + exists p. auto.
    + destruct (nth_error F i) as [seg|] eqn:Hf.
      * destruct (String.eqb_spec seg p) as [->|Hne].
        -- apply IH; [assumption|].
           eapply literal_prefix_extend; eauto.
        -- exists i, p, seg. auto.
      * exists i, p. auto.
Qed.

Lemma literal_prefix_0 (F P : list string) : literal_prefix F P 0.
Proof. intros j Hj. lia. Qed.

(** The first part with a wildcard is where the literal prefix ends. *)
Lemma first_wildcard_unique (F P : list string) (i k : nat)
      (p q : string) :
  nth_error P i = Some p -> has_wildcard p = true -> literal_prefix F P i ->
  nth_error P k = Some q -> has_wildcard q = true -> literal_prefix F P k ->
  i = k.
Proof.
  intros Hp Hwp Hli Hq Hwq Hlk.
  destruct (Nat.lt_trichotomy i k) as [Hlt|[Heq|Hgt]]; [|assumption|].
  - destruct (Hlk i Hlt) as (p' & Hp' & Hw' & _). congruence.
  - destruct (Hli k Hgt) as (q' & Hq' & Hw' & _). congruence.
Qed.

Lemma is_selected_tail_spec (fnmatch : string -> string -> bool)
      (fqn : list string) (S : string) :
  exists b,
    is_selected_tail fnmatch fqn S = Ret b
    /\ (b = true <->
        List.length (PyStr.split "." S) <= List.length (flatten_fqn fqn)
        /\ walk_matches fnmatch (flatten_fqn fqn) (PyStr.split "." S)).
Proof.
  unfold is_selected_tail.
  set (F := flatten_fqn fqn). set (P := PyStr.split "." S).
  destruct (Nat.ltb_spec (List.length F) (List.length P)) as [Hlt|Hge].
  - exists false. split; [reflexivity|]. split; [discriminate|]. lia.
  - pose proof (@prefix_walk_outcome F P P 0 eq_refl
                                     (literal_prefix_0 F P)) as Hout.
    destruct (prefix_walk F 0 P) as [|k| |].
    + (* a literal mismatch *)
      destruct Hout as (k & p & seg & Hlit & Hp & Hw & Hf & Hne).
      exists false. split; [reflexivity|]. split; [discriminate|].
      intros [_ [(i & q & Hq & Hwq & Hli & _)|Hall]]; exfalso.
      * destruct (Nat.lt_trichotomy i k) as [Hlt|[Heq|Hgt]].
        -- destruct (Hlit i Hlt) as (q' & Hq' & Hw' & _). congruence.
        -- subst i. congruence.
        -- destruct (Hli k Hgt) as (p' & Hp' & _ & Hf'). congruence.
      * assert (Hk : k < List.length P)
          by (apply nth_error_Some; congruence).
        destruct (Hall k Hk) as (p' & Hp' & _ & Hf'). congruence.
    + (* a wildcard at index k *)
      destruct Hout as (p & Hp & Hw & Hlit).
      eexists. split; [reflexivity|]. split.
      * intros Hm. split; [assumption|]. left. exists k, p. auto.
      * intros [_ [(i & q & Hq & Hwq & Hli & Hg)|Hall]].
        -- assert (i = k) as -> by (eapply first_wildcard_unique; eauto).
           exact Hg.
        -- exfalso.
           assert (Hk : k < List.length P)
             by (apply nth_error_Some; congruence).
           destruct (Hall k Hk) as (p' & Hp' & Hw' & _). congruence.
    + (* every part is literal and equal *)
      exists true. split; [reflexivity|]. split; [|reflexivity].
      intros _. split; [assumption|]. now right.
    + (* the index cannot run past the flattened fqn *)
      exfalso. destruct Hout as (k & p & Hp & Hf).
      assert (Hk : k < List.length P) by (apply nth_error_Some; congruence).
      apply nth_error_None in Hf. lia.
Qed.

Lemma neg_index_Some {A} (l : list A) (k : nat) :
  1 <= k -> k <= List.length l -> exists x, PyList.neg_index l k = Some x.
Proof.
  intros H1 Hk. unfold PyList.neg_index.
  destruct (nth_error (rev l) (k - 1)) eqn:E; [eauto|].
  apply nth_error_None in E. rewrite length_rev in E. lia.
Qed.

(** C5: on an fqn that satisfies the invariant of the data model,
    [is_selected_node] returns (it does not raise) and its result is true
    exactly when the six steps match: the versioned leaf shortcut, the
    plain leaf shortcut of an unversioned node, or, the flattened fqn
    being at least as long as the split selector, a literal prefix walk
    that either reaches the end of the selector or reaches a first part
    with one of the characters * ? [ ] from which the glob tail matches. *)
Theorem is_selected_node_six_steps (fnmatch : string -> string -> bool)
        (fqn : list string) (S : string) (is_versioned : bool) :
  fqn_invariant fqn is_versioned ->
  exists b,
    is_selected_node fnmatch fqn S is_versioned = Ret b
    /\ (b = true <-> six_step_match fnmatch fqn S is_versioned).
Proof.
  intros [Hne Hver]. unfold is_selected_node, six_step_match.
  destruct (is_selected_tail_spec fnmatch fqn S) as (bt & Htail & Hbt).
  destruct is_versioned.
  - destruct (@neg_index_Some _ fqn 2) as (leaf & Hleaf);
      [lia | specialize (Hver eq_refl); lia |].
    rewrite Hleaf. unfold versioned_leaf_shortcut.
    destruct (String.eqb_spec leaf S) as [->|Hl].
    { exists true. split; [reflexivity|]. split; auto. }
    destruct (String.eqb_spec
                (PyStr.join "_" (PyList.last_n 2 fqn))
                (PyStr.join "_" (PyList.last_n 2 (PyStr.split "." S))))
      as [Hj|Hj].
    { exists true. split; [reflexivity|]. split; auto. }
    exists bt. split; [assumption|]. rewrite Hbt. split.
    + intros H. right. right. exact H.
    + intros [[_ [H|H]]|[[H _]|H]]; try discriminate; try assumption.
      * exfalso. apply Hl. congruence.
      * contradiction.
  - destruct (@neg_index_Some _ fqn 1) as (leaf & Hleaf);
      [lia | destruct fqn; [contradiction | simpl; lia] |].
    rewrite Hleaf. unfold plain_leaf_shortcut.
    destruct (String.eqb_spec leaf S) as [->|Hl].
    { exists true. split; [reflexivity|]. split; auto. }
    exists bt. split; [assumption|]. rewrite Hbt. split.
    + intros H. right. right. exact H.
    + intros [[H _]|[[_ H]|H]]; try discriminate; try assumption.
      exfalso. apply Hl. congruence.
Qed.

Lemma is_selected_node_six_steps_witness :
  exists b,
    is_selected_node Sample.simple_fnmatch ["pkg"; "orders"; "v2"]
                     "pkg.ord*" true = Ret b
    /\ (b = true <->
        six_step_match Sample.simple_fnmatch ["pkg"; "orders"; "v2"]
                       "pkg.ord*" true).
Proof.
  apply is_selected_node_six_steps.
  split; [discriminate | intros _; simpl; lia].
Defined.

(** The versioned model of the specification's first scenario. *)
Example versioned_model_selectors :
  map (fun S => is_selected_node Sample.simple_fnmatch
                                 ["pkg"; "orders"; "v2"] S true)
      ["orders.v2"; "orders_v2"; "orders"; "pkg.*"; "pkg.ord*"; "pkg.x*";
       "other"]
  = [Ret true; Ret true; Ret true; Ret true; Ret true; Ret false;
     Ret false].
Proof. reflexivity. Qed.

(** ** How often an id is yielded *)

Lemma gen_for_absent (body : UniqueId * Node -> gen)
      (l : list (UniqueId * Node)) (u : UniqueId) :
  (forall v n, In u (yields (body (v, n))) -> v = u) ->
  ~ In u (Dict.keys l) ->
  count_occ string_dec (yields (gen_for body l)) u = 0.
Proof.
  intros Hown Hnot. apply count_occ_not_In. intros Hin.
  apply gen_for_yields_in in Hin. destruct Hin as ([v n] & Hvn & Hu).
  apply Hown in Hu. subst v. apply Hnot. eapply In_keys; eauto.
Qed.

(** A loop over distinct ids whose body yields its own id at most [k]
    times yields every id at most [k] times. *)
Lemma gen_for_count (body : UniqueId * Node -> gen)
      (l : list (UniqueId * Node)) (k : nat) :
  NoDup (Dict.keys l) ->
  (forall v n u, count_occ string_dec (yields (body (v, n))) u
                 <= if string_dec v u then k else 0) ->
  forall u, count_occ string_dec (yields (gen_for body l)) u <= k.
Proof.
  intros Hnd Hbody u.
  assert (Hown : forall v n, In u (yields (body (v, n))) -> v = u).
  { intros v n Hin. apply (count_occ_In string_dec) in Hin.
    specialize (Hbody v n u). destruct (string_dec v u); [assumption|lia]. }
  induction l as [|[v n] r IH]; simpl; [lia|].
  simpl in Hnd. apply NoDup_cons_iff in Hnd. destruct Hnd as [Hv Hnd].
  specialize (IH Hnd). specialize (Hbody v n u).
  unfold gen_seq. destruct (raised (body (v, n))).
  - destruct (string_dec v u); lia.
  - simpl. rewrite count_occ_app.
    destruct (string_dec v u) as [->|Hne].
    + pose proof (gen_for_absent body r Hown Hv) as Habs.
      unfold UniqueId in *. lia.
    + unfold UniqueId in *. lia.
Qed.

Lemma gen_for_st_absent {S} (body : S -> UniqueId * Node -> gen * S)
      (l : list (UniqueId * Node)) (u : UniqueId) (s : S) :
  (forall s v n, In u (yields (fst (body s (v, n)))) -> v = u) ->
  ~ In u (Dict.keys l) ->
  count_occ string_dec (yields (fst (gen_for_st body s l))) u = 0.
Proof.
  intros Hown Hnot. apply count_occ_not_In. intros Hin.
  apply gen_for_st_yields_in in Hin.
  destruct Hin as ([v n] & s' & Hvn & Hu).
  apply Hown in Hu. subst v. apply Hnot. eapply In_keys; eauto.
Qed.

Lemma gen_for_st_count {S} (body : S -> UniqueId * Node -> gen * S)
      (l : list (UniqueId * Node)) (k : nat) :
  NoDup (Dict.keys l) ->
  (forall s v n u, count_occ string_dec (yields (fst (body s (v, n)))) u
                   <= if string_dec v u then k else 0) ->
  forall s u, count_occ string_dec (yields (fst (gen_for_st body s l))) u <= k.
Proof.
  intros Hnd Hbody s u.
  assert (Hown : forall s v n, In u (yields (fst (body s (v, n)))) -> v = u).
  { intros s0 v n Hin. apply (count_occ_In string_dec) in Hin.
    specialize (Hbody s0 v n u).
    destruct (string_dec v u); [assumption|lia]. }
  revert s. induction l as [|[v n] r IH]; intros s; simpl; [lia|].
  simpl in Hnd. apply NoDup_cons_iff in Hnd. destruct Hnd as [Hv Hnd].
  specialize (IH Hnd). specialize (Hbody s v n u).
  destruct (body s (v, n)) as [g s1] eqn:Hb. simpl in Hbody.
  destruct (raised g).
  - simpl. destruct (string_dec v u); lia.
  - pose proof (gen_for_st_absent body r (u := u) s1 Hown) as Habs.
    specialize (IH s1).
    destruct (gen_for_st body s1 r) as [g' s2]. simpl in *.
    rewrite count_occ_app.
    destruct (string_dec v u) as [->|Hne].
    + specialize (Habs Hv). unfold UniqueId in *. lia.
    + unfold UniqueId in *. lia.
Qed.

(** A loop whose body yields nothing yields nothing. *)
Lemma gen_for_st_silent {A S} (body : S -> A -> gen * S) (l : list A) :
  (forall s x, yields (fst (body s x)) = []) ->
  forall s, yields (fst (gen_for_st body s l)) = [].
Proof.
  intros Hbody. induction l as [|x r IH]; intros s; simpl; [reflexivity|].
  specialize (Hbody s x). destruct (body s x) as [g s1]. simpl in Hbody.
  destruct (raised g); simpl; [assumption|].
  specialize (IH s1). destruct (gen_for_st body s1 r) as [g' s2].
  simpl in *. now rewrite Hbody, IH.
Qed.

Ltac split_cases :=
  repeat match goal with
         | |- context [match ?x with _ => _ end] => destruct x; simpl
         end.

(** The bound of a loop body that yields its own id at most [k] times. *)
Ltac body_bound :=
  intros;
  unfold PathSelectorMethod.visit, ConfigSelectorMethod.visit,
    VersionSelectorMethod.visit, gen_seq, yield_if, gen_yield, gen_done,
    gen_raise;
  simpl; split_cases; try lia; try congruence.

Ltac loop_keys :=
  first [ apply all_nodes_NoDup
        | apply configurable_nodes_NoDup
        | apply non_source_nodes_NoDup
        | apply groupable_nodes_NoDup
        | apply parsed_and_unit_nodes_NoDup
        | unfold parsed_nodes, source_nodes, exposure_nodes, metric_nodes,
            unit_tests_of, semantic_model_nodes, saved_query_nodes;
          eapply single_mapping_NoDup;
          [eassumption | unfold node_mappings; simpl; tauto] ];
  try assumption.

Lemma state_visit_bound (X : Externals) (self : SelectorMethod)
      (old_manifest : Manifest) (c : StateSelectorMethod.checker)
      (s : StateSelectorMethod.memo) (v : UniqueId) (n : Node)
      (u : UniqueId) :
  count_occ string_dec
            (yields (fst (StateSelectorMethod.visit X self old_manifest c s
                                                    (v, n)))) u
  <= if string_dec v u then 1 else 0.
Proof.
  unfold StateSelectorMethod.visit.
  destruct (StateSelectorMethod.call_checker X self old_manifest c _ s
              (StateSelectorMethod.previous_node_of X old_manifest v)
              (Some n)) as [[[]|e] s'];
    simpl; destruct (string_dec v u); lia.
Qed.

Lemma state_visit_removed_silent (X : Externals) (self : SelectorMethod)
      (old_manifest : Manifest) (c : StateSelectorMethod.checker)
      (kw : StateSelectorMethod.kwargs)
      (s : StateSelectorMethod.memo) (kv : UniqueId * Node) :
  yields (fst (StateSelectorMethod.visit_removed X self old_manifest c kw
                                                 s kv))
  = [].
Proof.
  unfold StateSelectorMethod.visit_removed. destruct kv as [v n].
  destruct (Dict.get v (disabled (manifest self))) as [shells|].
  - destruct (StateSelectorMethod.call_checker X self old_manifest c kw s
                (Some (fst shells)) None) as [[b|e] s']; reflexivity.
  - destruct (negb (Dict.contains v (nodes (manifest self))));
      [|reflexivity].
    destruct (StateSelectorMethod.call_checker X self old_manifest c kw s
                (Some n) None) as [[b|e] s']; reflexivity.
Qed.

(** The ids the state matcher yields are those of its first loop. *)
Lemma state_search_with_yields (X : Externals) (self : SelectorMethod)
      (old_manifest : Manifest) (c : StateSelectorMethod.checker)
      (st : StateSelectorMethod.memo) (included : IdSet) :
  yields (fst (StateSelectorMethod.search_with X self old_manifest c st
                                               included))
  = yields (fst (gen_for_st
                   (StateSelectorMethod.visit X self old_manifest c) st
                   (all_nodes self included))).
Proof.
  unfold StateSelectorMethod.search_with.
  destruct (gen_for_st (StateSelectorMethod.visit X self old_manifest c) st
                       (all_nodes self included)) as [g1 st1].
  destruct (raised g1) eqn:Hr; [reflexivity|].
  destruct (StateSelectorMethod.handles_removed c); [|reflexivity].
  set (kw := match all_nodes self included with
             | [] => None
             | _ :: _ => StateSelectorMethod.loop_keyword_args self c
             end).
  pose proof (gen_for_st_silent
                (StateSelectorMethod.visit_removed X self old_manifest c kw)
                (nodes old_manifest)
                (state_visit_removed_silent X self old_manifest c kw) st1)
    as Hsilent.
  destruct (gen_for_st
              (StateSelectorMethod.visit_removed X self old_manifest c kw)
              st1 (nodes old_manifest)) as [g2 st2].
  simpl in *. unfold gen_seq. rewrite Hr. simpl.
  rewrite Hsilent. apply app_nil_r.
Qed.

Lemma state_search_bound (X : Externals) (self : SelectorMethod)
      (st : StateSelectorMethod.memo) (included : IdSet)
      (selector : string) (u : UniqueId) :
  manifest_wf (manifest self) -> ids_unique (manifest self) included ->
  count_occ string_dec
            (yields (fst (StateSelectorMethod.search X self st included
                                                     selector))) u <= 1.
Proof.
  intros Hwf Huniq. unfold StateSelectorMethod.search.
  destruct (previous_state self) as [ps|]; [|simpl; lia].
  destruct (prev_manifest ps) as [old_manifest|]; [|simpl; lia].
  destruct (Dict.get selector StateSelectorMethod.state_checks) as [c|];
    [|simpl; lia].
  rewrite state_search_with_yields.
  apply gen_for_st_count.
  - now apply all_nodes_NoDup.
  - intros. apply state_visit_bound.
Qed.

Ltac method_bound :=
  unfold package_name_search;
  split_cases;
  first [ apply gen_for_count; [loop_keys | body_bound]
        | simpl; lia ].

(** C7 (amended): under the invariants of the data model (the keys of a
    mapping are distinct, an included id names at most one entity), a
    single search yields an id at most once for every matcher but the
    path matcher, which yields an id once for each of its three tests
    that succeeds, hence at most three times. *)
Theorem search_yield_bound (X : Externals) (method : MethodName.t)
        (self : SelectorMethod) (st : StateSelectorMethod.memo)
        (included : IdSet) (selector : string) (u : UniqueId) :
  manifest_wf (manifest self) ->
  ids_unique (manifest self) included ->
  count_occ string_dec
            (yields (fst (MethodManager.search method X self st included
                                               selector))) u
  <= yield_bound method.
Proof.
  intros Hwf Huniq.
  destruct method;
    unfold MethodManager.search, MethodManager.stateless, yield_bound;
    try (apply state_search_bound; assumption);
    simpl fst.
  - unfold QualifiedNameSelectorMethod.search. method_bound.
  - unfold TagSelectorMethod.search. method_bound.
  - unfold GroupSelectorMethod.search. method_bound.
  - unfold AccessSelectorMethod.search. method_bound.
  - unfold SourceSelectorMethod.search. method_bound.
  - unfold PathSelectorMethod.search. method_bound.
  - unfold FileSelectorMethod.search. method_bound.
  - unfold PackageSelectorMethod.search. method_bound.
  - unfold ConfigSelectorMethod.search. method_bound.
  - unfold TestNameSelectorMethod.search. method_bound.
  - unfold TestTypeSelectorMethod.search. method_bound.
  - unfold ResourceTypeSelectorMethod.search. method_bound.
  - unfold ExposureSelectorMethod.search. method_bound.
  - unfold MetricSelectorMethod.search. method_bound.
  - unfold ResultSelectorMethod.search. method_bound.
  - unfold SourceStatusSelectorMethod.search. method_bound.
  - unfold VersionSelectorMethod.search. method_bound.
  - unfold SemanticModelSelectorMethod.search. method_bound.
  - unfold SavedQuerySelectorMethod.search. method_bound.
  - unfold UnitTestSelectorMethod.search. method_bound.
Qed.

(** ** The traversal of the macro dependencies terminates *)

Lemma get_Some_In {V} (k : string) (v : V) (d : Dict.t V) :
  Dict.get k d = Some v -> In (k, v) d.
Proof.
  induction d as [|[k' v'] r IH]; simpl; intros H; [discriminate|].
  destruct (String.eqb_spec k k') as [->|Hne].
  - inversion H; subst. now left.
  - right. auto.
Qed.

Lemma get_None_keys {V} (k : string) (d : Dict.t V) :
  Dict.get k d = None <-> ~ In k (Dict.keys d).
Proof.
  induction d as [|[k' v'] r IH]; simpl.
  - tauto.
  - destruct (String.eqb_spec k k') as [->|Hne].
    + split; [discriminate | intros H; exfalso; apply H; now left].
    + rewrite IH. split; intros H; [intros [E|E]; congruence || auto | tauto].
Qed.

Lemma In_get_wf {V} (k : string) (v : V) (d : Dict.t V) :
  Dict.wf d -> In (k, v) d -> Dict.get k d = Some v.
Proof.
  unfold Dict.wf. induction d as [|[k' v'] r IH]; simpl; intros Hwf Hin;
    [contradiction|].
  apply NoDup_cons_iff in Hwf. destruct Hwf as [Hk Hwf].
  destruct Hin as [E|Hin].
  - inversion E; subst. now rewrite String.eqb_refl.
  - destruct (String.eqb_spec k k') as [->|Hne]; [|auto].
    exfalso. apply Hk. eapply In_keys; eauto.
Qed.

Lemma mem_app_single_other (x u : string) (l : list string) :
  x <> u -> PyList.mem x (l ++ [u]) = PyList.mem x l.
Proof.
  intros Hne. unfold PyList.mem. rewrite existsb_app. simpl.
  destruct (String.eqb_spec x u); [contradiction|].
  now rewrite !orb_false_r.
Qed.

Lemma filter_unvisited_mono (ks vis vis' : list string) :
  incl vis vis' ->
  List.length (filter (fun k => negb (PyList.mem k vis')) ks)
  <= List.length (filter (fun k => negb (PyList.mem k vis)) ks).
Proof.
  intros Hincl. induction ks as [|k ks IH]; simpl; [lia|].
  destruct (PyList.mem k vis) eqn:E.
  - apply mem_In in E. apply Hincl in E. apply mem_In in E.
    rewrite E. simpl. exact IH.
  - destruct (PyList.mem k vis'); simpl; lia.
Qed.

Lemma filter_unvisited_add (ks vis : list string) (u : string) :
  In u ks -> ~ In u vis ->
  List.length (filter (fun k => negb (PyList.mem k (vis ++ [u]))) ks)
  < List.length (filter (fun k => negb (PyList.mem k vis)) ks).
Proof.
  intros Hin Hnot. induction ks as [|k ks IH]; simpl; [contradiction|].
  assert (Hmono := @filter_unvisited_mono ks vis (vis ++ [u])
                     (incl_appl [u] (incl_refl vis))).
  destruct (string_dec k u) as [->|Hne].
  - assert (E1 : PyList.mem u vis = false).
    { destruct (PyList.mem u vis) eqn:E; [|reflexivity].
      apply mem_In in E. contradiction. }
    assert (E2 : PyList.mem u (vis ++ [u]) = true).
    { apply mem_In. apply in_or_app. right. now left. }
    rewrite E1, E2. simpl. lia.
  - rewrite (mem_app_single_other vis Hne).
    destruct Hin as [E|Hin]; [congruence|].
    specialize (IH Hin). destruct (PyList.mem k vis); simpl; lia.
Qed.

Lemma unvisited_mono (G : Dict.t Macro) (vis vis' : list string) :
  incl vis vis' -> unvisited G vis' <= unvisited G vis.
Proof. apply filter_unvisited_mono. Qed.

Lemma unvisited_add (G : Dict.t Macro) (vis : list string) (u : string) :
  In u (Dict.keys G) -> ~ In u vis ->
  unvisited G (vis ++ [u]) < unvisited G vis.
Proof. apply filter_unvisited_add. Qed.

Lemma unvisited_le_length (G : Dict.t Macro) (vis : list string) :
  unvisited G vis <= List.length G.
Proof.
  unfold unvisited.
  etransitivity; [apply filter_length_le|].
  unfold Dict.keys. now rewrite length_map.
Qed.

Section Termination.

Variable new_macros : Dict.t Macro.
Variable modified_macros : list string.

Lemma returns_within_trans (v1 v2 : list string)
      (out : option StateSelectorMethod.visit_result) :
  incl v1 v2 ->
  List.length v2 + unvisited new_macros v2
  <= List.length v1 + unvisited new_macros v1 ->
  returns_within new_macros v2 out -> returns_within new_macros v1 out.
Proof.
  intros Hincl Hle (r & v' & E & Hi & Hb).
  exists r, v'. repeat split; auto.
  - eapply incl_tran; eauto.
  - lia.
Qed.

Lemma macros_loop_returns
      (recurse : list string -> list string
                 -> option StateSelectorMethod.visit_result)
      (d : nat) (all_macros : list string) :
  (forall deps vis, unvisited new_macros vis < d ->
                    returns_within new_macros vis (recurse deps vis)) ->
  forall todo vis,
    unvisited new_macros vis <= d ->
    returns_within new_macros vis
      (StateSelectorMethod.macros_loop new_macros modified_macros recurse
                                       all_macros todo vis).
Proof.
  intros Hrec. induction todo as [|u rest IH]; intros vis Hd; simpl.
  - exists (Ret false), vis. repeat split; auto using incl_refl.
    simpl. lia.
  - destruct (PyList.mem u vis) eqn:Hvis; [auto|].
    assert (Hnot : ~ In u vis).
    { intros H. apply mem_In in H. congruence. }
    assert (Hincl : incl vis (vis ++ [u])) by (apply incl_appl, incl_refl).
    assert (Hlen : List.length (vis ++ [u]) = S (List.length vis))
      by (rewrite length_app; simpl; lia).
    pose proof (unvisited_mono new_macros Hincl) as Hmono.
    destruct (PyList.mem u modified_macros).
    { exists (Ret true), (vis ++ [u]). repeat split; auto.
      simpl. lia. }
    destruct (Dict.get u new_macros) as [mac|] eqn:Hget.
    2:{ exists (Raise (KeyError u)), (vis ++ [u]). repeat split; auto.
        simpl. lia. }
    assert (Hkey : In u (Dict.keys new_macros)).
    { eapply In_keys. apply get_Some_In. eassumption. }
    pose proof (@unvisited_add new_macros vis u Hkey Hnot) as Hadd.
    assert (Hpot : List.length (vis ++ [u])
                   + unvisited new_macros (vis ++ [u])
                   <= List.length vis + unvisited new_macros vis) by lia.
    destruct (0 <? List.length (macro_depends_on mac))%nat.
    + destruct (Hrec (macro_depends_on mac) (vis ++ [u]))
        as (r & v2 & E & Hi2 & Hb2); [lia|].
      rewrite E.
      destruct r as [[|]|e].
      * exists (Ret true), v2. repeat split; auto.
        -- eapply incl_tran; eauto.
        -- simpl in *. lia.
      * simpl in Hb2.
        apply returns_within_trans with (v2 := v2).
        -- eapply incl_tran; eauto.
        -- lia.
        -- apply IH. pose proof (unvisited_mono new_macros Hi2). lia.
      * exists (Raise e), v2. repeat split; auto.
        -- eapply incl_tran; eauto.
        -- simpl in *. lia.
    + assert (Hgo : returns_within new_macros vis
                      (StateSelectorMethod.macros_loop
                         new_macros modified_macros recurse all_macros
                         rest (vis ++ [u]))).
      { apply returns_within_trans with (v2 := vis ++ [u]); auto.
        apply IH. lia. }
      destruct (List.length (vis ++ [u]) <? List.length all_macros)%nat;
        exact Hgo.
Qed.

Lemma check_macros_returns (depth : nat) :
  forall deps vis,
    unvisited new_macros vis < depth ->
    returns_within new_macros vis
      (StateSelectorMethod.check_macros new_macros modified_macros depth
                                        deps vis).
Proof.
  induction depth as [|d IH]; intros deps vis Hd; [lia|].
  simpl. apply macros_loop_returns with (d := d); [exact IH | lia].
Qed.

End Termination.

(** With the depth the matcher allows, the traversal returns. *)
Lemma check_macros_max_depth (new_macros : Dict.t Macro)
      (modified_macros all_macros visited : list string) :
  exists r visited',
    StateSelectorMethod.check_macros
      new_macros modified_macros
      (StateSelectorMethod.max_depth new_macros) all_macros visited
    = Some (r, visited').
Proof.
  destruct (@check_macros_returns new_macros modified_macros
              (StateSelectorMethod.max_depth new_macros) all_macros visited)
    as (r & v' & E & _).
  { unfold StateSelectorMethod.max_depth.
    pose proof (unvisited_le_length new_macros visited). lia. }
  eauto.
Qed.

(** ** The traversal decides reachability of a modified macro *)

Lemma reachable_via (G : Dict.t Macro) (start : list string) (u : string)
      (mac : Macro) (w : string) :
  reachable G start u -> Dict.get u G = Some mac ->
  reachable G (macro_depends_on mac) w -> reachable G start w.
Proof.
  intros Hu Hget Hw. induction Hw as [w Hin | w' mac' w Hw' IH Hget' Hin].
  - eapply reach_step; eauto.
  - eapply reach_step; eauto.
Qed.

Section Correctness.

Variable new_macros : Dict.t Macro.
Variable modified_macros : list string.

Lemma mem_false_not_In (x : string) (l : list string) :
  PyList.mem x l = false -> ~ In x l.
Proof. intros E H. apply mem_In in H. congruence. Qed.

Lemma macros_loop_spec
      (recurse : list string -> list string
                 -> option StateSelectorMethod.visit_result)
      (all_macros start : list string) :
  (forall deps vis out, recurse deps vis = Some out ->
                        visit_spec new_macros modified_macros deps deps vis out) ->
  forall todo vis out,
    (forall w, In w todo -> reachable new_macros start w) ->
    StateSelectorMethod.macros_loop new_macros modified_macros recurse
                                    all_macros todo vis = Some out ->
    visit_spec new_macros modified_macros start todo vis out.
Proof.
  intros Hrec. induction todo as [|u rest IH]; intros vis out Hreach Hrun;
    simpl in Hrun.
  - inversion Hrun; subst. split; [apply incl_refl|]. simpl.
    split; [intros w []|]. intros w Hw Hn. contradiction.
  - assert (Hu : reachable new_macros start u) by (apply Hreach; now left).
    assert (Hrest : forall w, In w rest -> reachable new_macros start w)
      by (intros; apply Hreach; now right).
    destruct (PyList.mem u vis) eqn:Hvis.
    { (* already visited *)
      apply mem_In in Hvis.
      destruct (IH vis out Hrest Hrun) as [Hincl Hres].
      split; [assumption|].
      destruct (fst out) as [[|]|e]; auto.
      destruct Hres as [Htodo Hnew]. split; [|assumption].
      intros w [<-|Hw]; auto. }
    apply mem_false_not_In in Hvis.
    assert (Hincl1 : incl vis (vis ++ [u])) by (apply incl_appl, incl_refl).
    assert (Hu1 : In u (vis ++ [u])) by (apply in_or_app; right; now left).
    destruct (PyList.mem u modified_macros) eqn:Hmod.
    { inversion Hrun; subst. split; [assumption|]. simpl.
      exists u. split; [assumption|]. now apply mem_In. }
    apply mem_false_not_In in Hmod.
    destruct (Dict.get u new_macros) as [mac|] eqn:Hget.
    2:{ inversion Hrun; subst. split; [assumption|]. simpl.
        exists u. auto. }
    (* what remains to be shown once the rest of the loop has run from
       a list [v2] in which [u] and its dependencies are settled *)
    assert (Hfinish :
      forall v2,
        incl (vis ++ [u]) v2 ->
        incl (macro_depends_on mac) v2 ->
        (forall w, In w v2 -> ~ In w (vis ++ [u]) ->
                   ~ In w modified_macros
                   /\ exists mac', Dict.get w new_macros = Some mac'
                                   /\ incl (macro_depends_on mac') v2) ->
        StateSelectorMethod.macros_loop new_macros modified_macros recurse
                                        all_macros rest v2 = Some out ->
        visit_spec new_macros modified_macros start (u :: rest) vis out).
    { intros v2 Hi2 Hdeps Hnew2 Hrun2.
      destruct (IH v2 out Hrest Hrun2) as [Hincl Hres].
      split; [eapply incl_tran; [|eassumption]; eapply incl_tran; eauto|].
      destruct (fst out) as [[|]|e]; auto.
      destruct Hres as [Htodo Hnew]. split.
      - intros w [<-|Hw]; auto.
      - intros w Hw Hnotvis.
        destruct (in_dec string_dec w v2) as [Hin2|Hnot2]; [|auto].
        destruct (in_dec string_dec w (vis ++ [u])) as [Hin1|Hnot1].
        + apply in_app_or in Hin1. destruct Hin1 as [H|[<-|[]]];
            [contradiction|].
          split; [assumption|]. exists mac. split; [assumption|].
          eapply incl_tran; eauto.
        + destruct (Hnew2 w Hin2 Hnot1) as (Hm & mac' & Hg & Hd).
          split; [assumption|]. exists mac'. split; [assumption|].
          eapply incl_tran; eauto. }
    destruct (0 <? List.length (macro_depends_on mac))%nat eqn:Hlen.
    + destruct (recurse (macro_depends_on mac) (vis ++ [u]))
        as [[r v2]|] eqn:Hcall; [|discriminate].
      destruct (Hrec _ _ _ Hcall) as [Hi2 Hres2]. simpl in Hi2, Hres2.
      destruct r as [[|]|e].
      * inversion Hrun; subst. split; [eapply incl_tran; eauto|]. simpl.
        destruct Hres2 as (w & Hw & Hm). exists w. split; [|assumption].
        eapply reachable_via; eauto.
      * destruct Hres2 as [Hdeps Hnew2]. eapply Hfinish; eauto.
      * inversion Hrun; subst. split; [eapply incl_tran; eauto|]. simpl.
        destruct Hres2 as (w & Hw & Hg & He). exists w.
        repeat split; auto. eapply reachable_via; eauto.
    + assert (Hnil : macro_depends_on mac = []).
      { apply Nat.ltb_ge in Hlen.
        destruct (macro_depends_on mac); [reflexivity | simpl in Hlen; lia]. }
      assert (Hrun' :
        StateSelectorMethod.macros_loop new_macros modified_macros recurse
          all_macros rest (vis ++ [u]) = Some out).
      { destruct (List.length (vis ++ [u]) <? List.length all_macros)%nat;
          exact Hrun. }
      apply Hfinish with (v2 := vis ++ [u]); auto using incl_refl.
      * rewrite Hnil. intros w [].
      * intros w Hw Hn. contradiction.
Qed.

Lemma check_macros_spec (depth : nat) :
  forall deps vis out,
    StateSelectorMethod.check_macros new_macros modified_macros depth
                                     deps vis = Some out ->
    visit_spec new_macros modified_macros deps deps vis out.
Proof.
  induction depth as [|d IH]; intros deps vis out Hrun; [discriminate|].
  simpl in Hrun. eapply macros_loop_spec; eauto.
  intros w Hw. now apply reach_start.
Qed.

(** A negative answer from an empty visited list: the visited list is
    closed under dependencies, so it holds every reachable id. *)
Lemma negative_covers (deps visited' : list string) :
  visit_spec new_macros modified_macros deps deps [] (Ret false, visited') ->
  forall w, reachable new_macros deps w ->
            In w visited' /\ ~ In w modified_macros.
Proof.
  intros [_ [Hdeps Hnew]]. simpl in Hdeps, Hnew.
  assert (Hin : forall w, reachable new_macros deps w -> In w visited').
  { intros w Hw. induction Hw as [w Hw | u mac w Hu IH Hget Hw].
    - now apply Hdeps.
    - destruct (Hnew u IH (fun H => H)) as (_ & mac' & Hg & Hd).
      rewrite Hget in Hg. inversion Hg; subst. now apply Hd. }
  intros w Hw. split; [auto|].
  apply (Hnew w (Hin w Hw) (fun H => H)).
Qed.

End Correctness.

(** C9: on every manifest, whatever the dependencies between its macros
    (cycles included), [recursively_check_macros_modified] returns: the
    nesting of its recursive calls never exceeds the number of macros
    of the manifest by more than one, so the bound on the depth is never
    reached, and the ids it marks as visited, one for each iteration
    that is not skipped, are at most one more than the macros of the
    manifest. *)
Theorem check_macros_terminates (new_macros : Dict.t Macro)
        (modified_macros visited : list string) :
  (forall all_macros,
      exists r visited',
        StateSelectorMethod.check_macros
          new_macros modified_macros (S (List.length new_macros))
          all_macros visited
        = Some (r, visited')
        /\ incl visited visited'
        /\ List.length visited'
           <= List.length visited + List.length new_macros + 1)
  /\ (forall node,
         fst (StateSelectorMethod.recursively_check_macros_modified
                new_macros modified_macros node visited)
         <> Raise RecursionError).
Proof.
  assert (Hret : forall all_macros,
    exists r visited',
      StateSelectorMethod.check_macros
        new_macros modified_macros (S (List.length new_macros))
        all_macros visited
      = Some (r, visited')
      /\ incl visited visited'
      /\ List.length visited'
         <= List.length visited + List.length new_macros + 1).
  { intros all_macros.
    destruct (@check_macros_returns new_macros modified_macros
                (S (List.length new_macros)) all_macros visited)
      as (r & v' & E & Hincl & Hb).
    { pose proof (unvisited_le_length new_macros visited). lia. }
    exists r, v'. repeat split; auto.
    pose proof (unvisited_le_length new_macros visited).
    destruct r as [[|]|e]; simpl in Hb; lia. }
  split; [exact Hret|].
  intros [n|]; unfold StateSelectorMethod.recursively_check_macros_modified;
    [|simpl; discriminate].
  destruct (depends_on_macros n) as [ms|]; [|simpl; discriminate].
  unfold StateSelectorMethod.max_depth.
  destruct (Hret ms) as (r & v' & E & _). rewrite E. simpl.
  apply check_macros_spec in E. destruct E as [_ Hres]. simpl in Hres.
  destruct r as [[|]|e]; try discriminate.
  destruct Hres as (w & _ & _ & ->). discriminate.
Qed.

Example check_macros_cycle :
  StateSelectorMethod.check_macros
    Scenario5.cyclic_macros ["macro.pkg.zzz"] 4 ["macro.pkg.a"] []
  = Some (Ret false, ["macro.pkg.a"; "macro.pkg.b"; "macro.pkg.c"]).
Proof. reflexivity. Qed.

(** ** Modified macros *)

Lemma contains_false_get {V} (k : string) (d : Dict.t V) :
  Dict.contains k d = false <-> Dict.get k d = None.
Proof.
  rewrite get_None_keys, <- contains_In.
  destruct (Dict.contains k d); split; intros H;
    try discriminate; try reflexivity; try congruence;
    exfalso; apply H; reflexivity.
Qed.

Lemma get_None_keys_neg {V} (k : string) (d : Dict.t V) :
  In k (Dict.keys d) -> Dict.get k d <> None.
Proof. intros H E. apply get_None_keys in E. contradiction. Qed.

(** [_macros_modified] lists the macro ids whose body differs, that
    were added, or that were removed. *)
Lemma macros_modified_spec (old_macros new_macros : Dict.t Macro)
      (u : string) :
  Dict.wf new_macros ->
  In u (StateSelectorMethod._macros_modified old_macros new_macros)
  <-> macro_modified old_macros new_macros u.
Proof.
  intros Hwf. unfold StateSelectorMethod._macros_modified, macro_modified.
  rewrite in_app_iff, !in_flat_map. split.
  - intros [([v mac] & Hin & Hu)|([v mac] & Hin & Hu)].
    + pose proof (@In_get_wf _ v mac new_macros Hwf Hin) as Hget.
      destruct (Dict.get v old_macros) as [o|] eqn:Ho.
      * destruct (String.eqb_spec (macro_sql mac) (macro_sql o));
          simpl in Hu; [contradiction|].
        destruct Hu as [<-|[]]. left. exists o, mac. auto.
      * destruct Hu as [<-|[]]. right. left. split; [assumption|].
        congruence.
    + destruct (Dict.contains v new_macros) eqn:Hc; simpl in Hu;
        [contradiction|].
      destruct Hu as [<-|[]]. right. right. split.
      * apply get_None_keys_neg. eapply In_keys; eauto.
      * now apply contains_false_get.
  - intros [(o & n & Ho & Hn & Hsql)|[[Ho Hn]|[Ho Hn]]].
    + left. exists (u, n). split; [now apply get_Some_In|].
      rewrite Ho.
      destruct (String.eqb_spec (macro_sql n) (macro_sql o));
        [contradiction|]. simpl. auto.
    + left. destruct (Dict.get u new_macros) as [n|] eqn:Hg;
        [|contradiction].
      exists (u, n). split; [now apply get_Some_In|].
      rewrite Ho. simpl. auto.
    + right. destruct (Dict.get u old_macros) as [o|] eqn:Hg;
        [|contradiction].
      exists (u, o). split; [now apply get_Some_In|].
      apply contains_false_get in Hn. rewrite Hn. simpl. auto.
Qed.

(** ** Upstream macro change *)

Lemma closed_reachable (m : Manifest) (ms : list string) (w : string) :
  (forall x, In x ms -> In x (Dict.keys (macros m))) ->
  (forall u mac x, In (u, mac) (macros m) -> In x (macro_depends_on mac) ->
                   In x (Dict.keys (macros m))) ->
  reachable (macros m) ms w -> In w (Dict.keys (macros m)).
Proof.
  intros Hstart Hstep Hw. induction Hw as [w Hw | u mac w Hu IH Hget Hw].
  - auto.
  - apply (Hstep u mac w); [now apply get_Some_In | assumption].
Qed.

Lemma all_nodes_In (self : SelectorMethod) (included : IdSet)
      (u : UniqueId) (n : Node) :
  In (u, n) (all_nodes self included) <->
  In u included
  /\ exists d, In d (node_mappings (manifest self)) /\ In (u, n) d.
Proof.
  rewrite all_nodes_chain. unfold chain. rewrite in_flat_map. split.
  - intros (d & Hd & Hin). apply restrict_In in Hin. destruct Hin.
    split; [assumption|]. eauto.
  - intros (Hinc & d & Hd & Hin). exists d. split; [assumption|].
    apply restrict_In. auto.
Qed.

(** The answer of [check_macros_modified] once [modified_macros] holds
    the result of [_macros_modified]: it returns, and it says whether a
    modified macro is reachable from the node. *)
Lemma check_macros_modified_decides (self : SelectorMethod)
      (old_manifest : Manifest) (n : Node) :
  Dict.wf (macros (manifest self)) ->
  macros_closed (manifest self) ->
  (exists d u, In d (node_mappings (manifest self)) /\ In (u, n) d) ->
  exists b,
    fst (StateSelectorMethod.check_macros_modified
           self old_manifest
           (Some (StateSelectorMethod._macros_modified
                    (macros old_manifest) (macros (manifest self))))
           (Some n)) = Ret b
    /\ (b = true <->
        upstream_macro_changed (macros old_manifest)
                               (macros (manifest self)) n).
Proof.
  intros Hwf [Hcn Hcm] (d & u & Hd & Hn).
  unfold StateSelectorMethod.check_macros_modified, upstream_macro_changed.
  set (M := StateSelectorMethod._macros_modified
              (macros old_manifest) (macros (manifest self))).
  assert (HM : forall w, In w M <->
                         macro_modified (macros old_manifest)
                                        (macros (manifest self)) w)
    by (intros w; now apply macros_modified_spec).
  destruct M as [|m0 M'] eqn:EM.
  { exists false. split; [reflexivity|]. split; [discriminate|].
    intros (ms & w & _ & _ & Hw). apply HM in Hw. contradiction. }
  cbv beta iota zeta. rewrite <- EM in *. clear EM m0 M'.
  unfold StateSelectorMethod.recursively_check_macros_modified.
  destruct (depends_on_macros n) as [ms|] eqn:Hdeps.
  2:{ exists false. split; [reflexivity|]. split; [discriminate|].
      intros (ms & w & E & _). discriminate. }
  destruct (check_macros_max_depth (macros (manifest self)) M ms [])
    as (r & v' & Hrun).
  rewrite Hrun.
  cbv beta iota zeta. unfold fst.
  pose proof (check_macros_spec _ _ _ _ _ Hrun) as Hspec.
  destruct r as [[|]|e].
  - exists true. split; [reflexivity|]. split; [|reflexivity]. intros _.
    destruct Hspec as [_ (w & Hw & Hm)]. exists ms, w.
    repeat split; auto. now apply HM.
  - exists false. split; [reflexivity|]. split; [discriminate|].
    intros (ms' & w & E & Hw & Hm). inversion E; subst ms'. exfalso.
    destruct (negative_covers Hspec Hw) as [_ Hnot].
    apply Hnot. now apply HM.
  - exfalso. destruct Hspec as [_ (w & Hw & Hg & _)]. simpl in Hw.
    apply get_None_keys in Hg. apply Hg.
    apply (@closed_reachable (manifest self) ms w); auto.
    intros x Hx. exact (Hcn d u n ms x Hd Hn Hdeps Hx).
Qed.

(** ** The state of the instance *)

Lemma check_macros_modified_memo (self : SelectorMethod)
      (old_manifest : Manifest) (st : StateSelectorMethod.memo)
      (node : option Node) :
  memo_valid self old_manifest st ->
  StateSelectorMethod.check_macros_modified self old_manifest st node
  = StateSelectorMethod.check_macros_modified
      self old_manifest
      (Some (StateSelectorMethod._macros_modified
               (macros old_manifest) (macros (manifest self))))
      node
  /\ memo_valid self old_manifest
       (snd (StateSelectorMethod.check_macros_modified
               self old_manifest st node)).
Proof.
  intros [->| ->];
    unfold StateSelectorMethod.check_macros_modified, memo_valid;
    (split; [reflexivity|]); right;
    destruct (StateSelectorMethod._macros_modified _ _); reflexivity.
Qed.

Lemma call_checker_memo (X : Externals) (self : SelectorMethod)
      (old_manifest : Manifest) (c : StateSelectorMethod.checker)
      (kw : StateSelectorMethod.kwargs)
      (st : StateSelectorMethod.memo) (old new : option Node) :
  memo_valid self old_manifest st ->
  fst (StateSelectorMethod.call_checker X self old_manifest c kw st old new)
  = fst (StateSelectorMethod.call_checker
           X self old_manifest c kw
           (Some (StateSelectorMethod._macros_modified
                    (macros old_manifest) (macros (manifest self))))
           old new)
  /\ memo_valid self old_manifest
       (snd (StateSelectorMethod.call_checker X self old_manifest c kw st
                                              old new)).
Proof.
  intros Hst.
  destruct (@check_macros_modified_memo self old_manifest st new Hst)
    as [Heq Hval].
  destruct c, kw as [adapter|]; simpl; auto;
    unfold StateSelectorMethod.check_unmodified_content,
      StateSelectorMethod.check_modified_content,
      StateSelectorMethod.check_modified_macros;
    rewrite Heq in *;
    destruct (StateSelectorMethod.check_macros_modified
                self old_manifest
                (Some (StateSelectorMethod._macros_modified
                         (macros old_manifest) (macros (manifest self))))
                new) as [[b|e] st']; simpl in *; auto.
Qed.

(** A loop whose body depends on the state only through an invariant
    of the state is a loop without state. *)
Lemma gen_for_st_canonical {A S} (I : S -> Prop)
      (body : S -> A -> gen * S) (f : A -> gen) (l : list A) :
  (forall s x, I s -> In x l -> fst (body s x) = f x /\ I (snd (body s x))) ->
  forall s, I s ->
            fst (gen_for_st body s l) = gen_for f l
            /\ I (snd (gen_for_st body s l)).
Proof.
  induction l as [|x r IH]; intros Hbody s Hs; simpl.
  - auto.
  - destruct (Hbody s x Hs (or_introl eq_refl)) as [Hf Hs1].
    destruct (body s x) as [g s1]. simpl in Hf, Hs1. subst g.
    unfold gen_seq. destruct (raised (f x)); simpl; [auto|].
    destruct (IH (fun s' y Hs' Hy => Hbody s' y Hs' (or_intror Hy)) s1 Hs1)
      as [Hg Hs2].
    destruct (gen_for_st body s1 r) as [g' s2]. simpl in *.
    subst g'. auto.
Qed.

Lemma state_visit_memo (X : Externals) (self : SelectorMethod)
      (old_manifest : Manifest) (c : StateSelectorMethod.checker)
      (st : StateSelectorMethod.memo) (kv : UniqueId * Node) :
  memo_valid self old_manifest st ->
  fst (StateSelectorMethod.visit X self old_manifest c st kv)
  = fst (StateSelectorMethod.visit
           X self old_manifest c
           (Some (StateSelectorMethod._macros_modified
                    (macros old_manifest) (macros (manifest self))))
           kv)
  /\ memo_valid self old_manifest
       (snd (StateSelectorMethod.visit X self old_manifest c st kv)).
Proof.
  intros Hst. destruct kv as [u n]. unfold StateSelectorMethod.visit.
  destruct (@call_checker_memo
              X self old_manifest c
              (StateSelectorMethod.loop_keyword_args self c) st
              (StateSelectorMethod.previous_node_of X old_manifest u)
              (Some n) Hst) as [Heq Hval].
  destruct (StateSelectorMethod.call_checker X self old_manifest c _ st _ _)
    as [r1 s1].
  destruct (StateSelectorMethod.call_checker X self old_manifest c _
              (Some _) _ _) as [r2 s2].
  simpl in Heq, Hval. subst r2.
  destruct r1; simpl; auto.
Qed.

Lemma search_with_one_pass (X : Externals) (self : SelectorMethod)
      (old_manifest : Manifest) (c : StateSelectorMethod.checker)
      (st : StateSelectorMethod.memo) (included : IdSet) :
  StateSelectorMethod.handles_removed c = false ->
  StateSelectorMethod.search_with X self old_manifest c st included
  = gen_for_st (StateSelectorMethod.visit X self old_manifest c) st
               (all_nodes self included).
Proof.
  intros Hc. unfold StateSelectorMethod.search_with. rewrite Hc.
  destruct (gen_for_st _ st (all_nodes self included)) as [g1 st1].
  destruct (raised g1); reflexivity.
Qed.

(** C2: when the macro ids named by the dependencies of the nodes and
    macros of the current manifest all exist in its macros, the state
    matcher, asked for "modified.macros", ends normally and yields a
    candidate exactly when a macro id reachable from the candidate's
    [depends_on.macros] through the macros of the current manifest is
    modified: its [macro_sql] differs between the two manifests, or it
    was added, or it was removed. *)
Theorem state_modified_macros_search (X : Externals)
        (self : SelectorMethod) (ps : PreviousState)
        (old_manifest : Manifest) (st : StateSelectorMethod.memo)
        (included : IdSet) (u : UniqueId) (n : Node) :
  previous_state self = Some ps ->
  prev_manifest ps = Some old_manifest ->
  manifest_wf (manifest self) ->
  ids_unique (manifest self) included ->
  macros_closed (manifest self) ->
  memo_valid self old_manifest st ->
  In (u, n) (all_nodes self included) ->
  raised (fst (StateSelectorMethod.search X self st included
                                          "modified.macros")) = None
  /\ (In u (yields (fst (StateSelectorMethod.search
                           X self st included "modified.macros")))
      <-> upstream_macro_changed (macros old_manifest)
                                 (macros (manifest self)) n).
Proof.
  intros Hps Hpm Hwf Huniq Hclosed Hst Hin.
  unfold StateSelectorMethod.search. rewrite Hps, Hpm.
  change (Dict.get "modified.macros" StateSelectorMethod.state_checks)
    with (Some StateSelectorMethod.CheckModifiedMacros).
  cbv beta iota zeta.
  rewrite search_with_one_pass by reflexivity.
  set (M := StateSelectorMethod._macros_modified
              (macros old_manifest) (macros (manifest self))).
  set (f := fun kv =>
              fst (StateSelectorMethod.visit
                     X self old_manifest
                     StateSelectorMethod.CheckModifiedMacros (Some M) kv)).
  destruct (@gen_for_st_canonical
              _ _ (memo_valid self old_manifest)
              (StateSelectorMethod.visit
                 X self old_manifest StateSelectorMethod.CheckModifiedMacros)
              f (all_nodes self included)) with (s := st) as [Hfst _].
  { intros s x Hs _. now apply state_visit_memo. }
  { assumption. }
  rewrite Hfst. clear Hfst.
  assert (Hwfm : Dict.wf (macros (manifest self))) by apply Hwf.
  assert (Hdec : forall v m,
             In (v, m) (all_nodes self included) ->
             exists b, f (v, m) = yield_if b v
                       /\ (b = true <->
                           upstream_macro_changed
                             (macros old_manifest)
                             (macros (manifest self)) m)).
  { intros v m Hvm. apply all_nodes_In in Hvm.
    destruct Hvm as (_ & d & Hd & Hvm).
    destruct (@check_macros_modified_decides self old_manifest m Hwfm
                Hclosed (ex_intro _ d (ex_intro _ v (conj Hd Hvm))))
      as (b & Hb & Hiff).
    exists b. split; [|assumption].
    unfold f, StateSelectorMethod.visit, StateSelectorMethod.call_checker,
      StateSelectorMethod.check_modified_macros.
    fold M in Hb.
    destruct (StateSelectorMethod.check_macros_modified
                self old_manifest (Some M) (Some m)) as [r s'].
    simpl in Hb. subst r. reflexivity. }
  destruct (gen_for_total f (all_nodes self included)) as [Hr Hy].
  { intros [v m] Hvm. destruct (Hdec v m Hvm) as (b & -> & _).
    destruct b; reflexivity. }
  split; [exact Hr|]. rewrite Hy, in_flat_map. split.
  - intros ([v m] & Hvm & Hu).
    destruct (Hdec v m Hvm) as (b & Hf & Hiff). rewrite Hf in Hu.
    apply yield_if_yields in Hu. destruct Hu as [-> Hb].
    assert (m = n) as <-.
    { eapply NoDup_keys_functional;
        [apply all_nodes_NoDup| |]; eauto. }
    now apply Hiff.
  - intros Hup. exists (u, n). split; [assumption|].
    destruct (Hdec u n Hin) as (b & Hf & Hiff). rewrite Hf.
    apply Hiff in Hup. subst b. simpl. auto.
Qed.

Lemma resolve_unique (m : Manifest) (included : IdSet) :
  ids_resolve m included -> ids_unique m included.
Proof. intros H u Hu. rewrite (H u Hu). lia. Qed.

Lemma scenario6_wf : manifest_wf Scenario6.after.
Proof.
  unfold manifest_wf, Dict.wf. simpl.
  repeat split; repeat constructor; simpl; intuition discriminate.
Qed.

Lemma scenario6_closed : macros_closed Scenario6.after.
Proof.
  split.
  - intros d u n ms w Hd Hn Hdeps Hw. simpl in Hd.
    repeat (destruct Hd as [<-|Hd]; [|]); simpl in Hn;
      try contradiction;
      repeat (destruct Hn as [Hn|Hn]; [inversion Hn; subst; clear Hn|]);
      try contradiction;
      simpl in Hdeps; inversion Hdeps; subst; simpl in Hw;
      repeat (destruct Hw as [<-|Hw]; [simpl; tauto|]);
      contradiction.
  - intros u mac w Hin Hw. simpl in Hin.
    repeat (destruct Hin as [Hin|Hin]; [inversion Hin; subst; clear Hin|]);
      try contradiction; simpl in Hw;
      repeat (destruct Hw as [<-|Hw]; [simpl; tauto|]);
      contradiction.
Qed.

Lemma scenario6_resolve : ids_resolve Scenario6.after Scenario6.included.
Proof.
  intros u Hu. vm_compute in Hu.
  destruct Hu as [<-|[<-|[]]]; vm_compute; reflexivity.
Qed.

Lemma state_modified_macros_search_witness :
  raised (fst (StateSelectorMethod.search
                 Sample.externals Scenario6.method None
                 Scenario6.included "modified.macros")) = None
  /\ (In "model.pkg.m"
         (yields (fst (StateSelectorMethod.search
                         Sample.externals Scenario6.method None
                         Scenario6.included "modified.macros")))
      <-> upstream_macro_changed Scenario6.macros_before
                                 Scenario6.macros_after
                                 Scenario6.model_m).
Proof.
  apply (@state_modified_macros_search
           Sample.externals Scenario6.method Scenario6.state
           Scenario6.before None Scenario6.included
           "model.pkg.m" Scenario6.model_m).
  - reflexivity.
  - reflexivity.
  - exact scenario6_wf.
  - apply resolve_unique. exact scenario6_resolve.
  - exact scenario6_closed.
  - left. reflexivity.
  - vm_compute. auto.
Defined.

(** The fifth scenario of the specification. *)
Example state_modified_macros_scenario :
  fst (StateSelectorMethod.search Sample.externals Scenario6.method None
                                  Scenario6.included "modified.macros")
  = Gen ["model.pkg.m"] None.
Proof. reflexivity. Qed.

(** ** Modified and unmodified *)

Lemma gen_for_filter (p : UniqueId * Node -> bool)
      (l : list (UniqueId * Node)) :
  gen_for (fun kv => yield_if (p kv) (fst kv)) l
  = Gen (map fst (filter p l)) None.
Proof.
  induction l as [|kv r IH]; simpl; [reflexivity|].
  rewrite IH. unfold gen_seq, yield_if.
  destruct (p kv); reflexivity.
Qed.

Lemma gen_for_ext {A} (f g : A -> gen) (l : list A) :
  (forall x, In x l -> f x = g x) -> gen_for f l = gen_for g l.
Proof.
  induction l as [|x r IH]; simpl; intros H; [reflexivity|].
  rewrite (H x (or_introl eq_refl)), IH; auto.
Qed.

Lemma gen_for_done {A} (l : list A) :
  gen_for (fun _ => gen_done) l = gen_done.
Proof. induction l as [|x r IH]; simpl; [|rewrite IH]; reflexivity. Qed.

Lemma filter_keys_In (p : UniqueId * Node -> bool)
      (l : list (UniqueId * Node)) (u : UniqueId) (n : Node) :
  NoDup (Dict.keys l) -> In (u, n) l ->
  (In u (map fst (filter p l)) <-> p (u, n) = true).
Proof.
  intros Hnd Hin. rewrite in_map_iff. split.
  - intros ([v m] & E & Hf). simpl in E. subst v.
    apply filter_In in Hf. destruct Hf as [Hm Hp].
    now rewrite (@NoDup_keys_functional _ l u n m Hnd Hin Hm).
  - intros Hp. exists (u, n). split; [reflexivity|].
    apply filter_In. auto.
Qed.

Lemma gen_for_st_inv {A S} (I : S -> Prop) (body : S -> A -> gen * S)
      (l : list A) :
  (forall s x, I s -> I (snd (body s x))) ->
  forall s, I s -> I (snd (gen_for_st body s l)).
Proof.
  intros Hbody. induction l as [|x r IH]; intros s Hs; simpl; [assumption|].
  specialize (Hbody s x Hs). destruct (body s x) as [g s1]. simpl in Hbody.
  destruct (raised g); simpl; [assumption|].
  specialize (IH s1 Hbody). destruct (gen_for_st body s1 r) as [g' s2].
  exact IH.
Qed.

(** The pass over the removed nodes keeps the state valid. *)
Lemma visit_removed_memo (X : Externals) (self : SelectorMethod)
      (old_manifest : Manifest) (c : StateSelectorMethod.checker)
      (kw : StateSelectorMethod.kwargs)
      (st : StateSelectorMethod.memo) (kv : UniqueId * Node) :
  memo_valid self old_manifest st ->
  memo_valid self old_manifest
    (snd (StateSelectorMethod.visit_removed X self old_manifest c kw st kv)).
Proof.
  intros Hst. destruct kv as [v n].
  unfold StateSelectorMethod.visit_removed.
  assert (Hcall : forall r,
    memo_valid self old_manifest
      (snd (match StateSelectorMethod.call_checker
                    X self old_manifest c kw st (Some r) None with
            | (Raise e, st') => (gen_raise e, st')
            | (Ret _, st') => (gen_done, st')
            end))).
  { intros r.
    destruct (@call_checker_memo X self old_manifest c kw st (Some r) None
                Hst) as [_ Hval].
    destruct (StateSelectorMethod.call_checker _ _ _ _ _ _ _ _)
      as [[b|e] s']; exact Hval. }
  destruct (Dict.get v (disabled (manifest self))) as [shells|];
    [apply Hcall|].
  destruct (negb (Dict.contains v (nodes (manifest self))));
    [apply Hcall | assumption].
Qed.

(** Given the adapter type, the pass over the removed nodes raises
    nothing when the checker is one of the two content checkers. *)
Lemma content_visit_removed (X : Externals) (self : SelectorMethod)
      (old_manifest : Manifest) (c : StateSelectorMethod.checker)
      (adapter : option string)
      (st : StateSelectorMethod.memo) (kv : UniqueId * Node) :
  c = StateSelectorMethod.CheckModifiedContent
  \/ c = StateSelectorMethod.CheckUnmodifiedContent ->
  memo_valid self old_manifest st ->
  fst (StateSelectorMethod.visit_removed X self old_manifest c
                                         (Some adapter) st kv)
  = gen_done
  /\ memo_valid self old_manifest
       (snd (StateSelectorMethod.visit_removed X self old_manifest c
                                               (Some adapter) st kv)).
Proof.
  intros Hc Hst. split; [|now apply visit_removed_memo].
  destruct kv as [v n].
  assert (Hcall : forall r,
    exists b s',
      StateSelectorMethod.call_checker X self old_manifest c (Some adapter)
                                       st (Some r) None = (Ret b, s')).
  { intros r.
    assert (Hnone :
      fst (StateSelectorMethod.check_macros_modified
             self old_manifest st None) = Ret false).
    { unfold StateSelectorMethod.check_macros_modified.
      destruct st as [[|m0 l]|]; try reflexivity.
      destruct (StateSelectorMethod._macros_modified _ _); reflexivity. }
    destruct Hc as [-> | ->]; simpl;
      unfold StateSelectorMethod.check_unmodified_content,
        StateSelectorMethod.check_modified_content;
      destruct (StateSelectorMethod.check_macros_modified
                  self old_manifest st None) as [r0 s0];
      simpl in Hnone; subst r0; eauto. }
  unfold StateSelectorMethod.visit_removed.
  destruct (Dict.get v (disabled (manifest self))) as [shells|].
  - destruct (Hcall (fst shells)) as (b & s' & ->). reflexivity.
  - destruct (negb (Dict.contains v (nodes (manifest self))));
      [|reflexivity].
    destruct (Hcall n) as (b & s' & ->). reflexivity.
Qed.

(** The answers of the two content checkers on a candidate. *)
Lemma content_visit (X : Externals) (self : SelectorMethod)
      (old_manifest : Manifest) (v : UniqueId) (m : Node) :
  Dict.wf (macros (manifest self)) ->
  macros_closed (manifest self) ->
  (exists d, In d (node_mappings (manifest self)) /\ In (v, m) d) ->
  fst (StateSelectorMethod.visit
         X self old_manifest StateSelectorMethod.CheckModifiedContent
         (Some (StateSelectorMethod._macros_modified
                  (macros old_manifest) (macros (manifest self))))
         (v, m))
  = yield_if (content_modified X self old_manifest (v, m)) v
  /\ fst (StateSelectorMethod.visit
            X self old_manifest StateSelectorMethod.CheckUnmodifiedContent
            (Some (StateSelectorMethod._macros_modified
                     (macros old_manifest) (macros (manifest self))))
            (v, m))
     = yield_if (negb (content_modified X self old_manifest (v, m))) v.
Proof.
  intros Hwf Hclosed (d & Hd & Hvm).
  destruct (@check_macros_modified_decides self old_manifest m Hwf Hclosed
              (ex_intro _ d (ex_intro _ v (conj Hd Hvm))))
    as (b & Hb & _).
  unfold content_modified, StateSelectorMethod.visit,
    StateSelectorMethod.call_checker,
    StateSelectorMethod.check_unmodified_content,
    StateSelectorMethod.check_modified_content.
  simpl fst. simpl snd.
  destruct (StateSelectorMethod.check_macros_modified
              self old_manifest _ (Some m)) as [r s'].
  simpl in Hb. subst r. simpl. split; reflexivity.
Qed.

(** The search of a content checker: the ids it yields are a filter of
    the candidates; it ends normally when there is a candidate; it keeps
    the state valid. *)
Lemma content_search (X : Externals) (self : SelectorMethod)
      (old_manifest : Manifest) (c : StateSelectorMethod.checker)
      (p : UniqueId * Node -> bool)
      (st : StateSelectorMethod.memo) (included : IdSet) :
  c = StateSelectorMethod.CheckModifiedContent
  \/ c = StateSelectorMethod.CheckUnmodifiedContent ->
  (forall v m, In (v, m) (all_nodes self included) ->
     fst (StateSelectorMethod.visit
            X self old_manifest c
            (Some (StateSelectorMethod._macros_modified
                     (macros old_manifest) (macros (manifest self))))
            (v, m))
     = yield_if (p (v, m)) v) ->
  memo_valid self old_manifest st ->
  yields (fst (StateSelectorMethod.search_with X self old_manifest c st
                                               included))
  = map fst (filter p (all_nodes self included))
  /\ (all_nodes self included <> [] ->
      raised (fst (StateSelectorMethod.search_with X self old_manifest c st
                                                   included)) = None)
  /\ memo_valid self old_manifest
       (snd (StateSelectorMethod.search_with X self old_manifest c st
                                             included)).
Proof.
  intros Hc Hvisit Hst. unfold StateSelectorMethod.search_with.
  destruct (@gen_for_st_canonical
              _ _ (memo_valid self old_manifest)
              (StateSelectorMethod.visit X self old_manifest c)
              (fun kv => yield_if (p kv) (fst kv))
              (all_nodes self included)) with (s := st) as [Hg1 Hs1].
  { intros s [v m] Hs Hin.
    destruct (@state_visit_memo X self old_manifest c s (v, m) Hs)
      as [Heq Hval].
    split; [|assumption]. rewrite Heq. now apply Hvisit. }
  { assumption. }
  rewrite gen_for_filter in Hg1.
  destruct (gen_for_st (StateSelectorMethod.visit X self old_manifest c) st
                       (all_nodes self included)) as [g1 st1].
  simpl in Hg1, Hs1. subst g1. simpl raised. cbv iota.
  assert (Hh : StateSelectorMethod.handles_removed c = true)
    by (destruct Hc as [-> | ->]; reflexivity).
  rewrite Hh.
  destruct (all_nodes self included) as [|kv0 rest] eqn:Hall.
  - (* no candidate: [keyword_args] is empty *)
    pose proof (gen_for_st_silent
                  (StateSelectorMethod.visit_removed X self old_manifest c
                                                     None)
                  (nodes old_manifest)
                  (state_visit_removed_silent X self old_manifest c None)
                  st1) as Hsilent.
    pose proof (@gen_for_st_inv
                  _ _ (memo_valid self old_manifest)
                  (StateSelectorMethod.visit_removed X self old_manifest c
                                                     None)
                  (nodes old_manifest)
                  (fun s x Hs => visit_removed_memo X c None x Hs)
                  st1 Hs1) as Hinv.
    destruct (gen_for_st
                (StateSelectorMethod.visit_removed X self old_manifest c
                                                   None)
                st1 (nodes old_manifest)) as [g2 st2].
    simpl in *. unfold gen_seq. simpl. rewrite Hsilent.
    repeat split; auto. intros H. contradiction.
  - assert (Hkw : StateSelectorMethod.loop_keyword_args self c
                  = Some (adapter_type (manifest self)))
      by (destruct Hc as [-> | ->]; reflexivity).
    rewrite Hkw.
    destruct (@gen_for_st_canonical
                _ _ (memo_valid self old_manifest)
                (StateSelectorMethod.visit_removed
                   X self old_manifest c
                   (Some (adapter_type (manifest self))))
                (fun _ => gen_done)
                (nodes old_manifest)) with (s := st1) as [Hg2 Hs2].
    { intros s kv Hs _. now apply content_visit_removed. }
    { assumption. }
    rewrite gen_for_done in Hg2.
    destruct (gen_for_st
                (StateSelectorMethod.visit_removed
                   X self old_manifest c
                   (Some (adapter_type (manifest self))))
                st1 (nodes old_manifest)) as [g2 st2].
    simpl in Hg2, Hs2. subst g2. unfold gen_seq. simpl.
    rewrite app_nil_r. repeat split; auto.
Qed.

Lemma resolve_candidate (self : SelectorMethod) (included : IdSet)
      (u : UniqueId) :
  ids_resolve (manifest self) included -> In u included ->
  exists n, In (u, n) (all_nodes self included).
Proof.
  intros Hres Hu. specialize (Hres u Hu). unfold mappings_holding in Hres.
  destruct (filter (Dict.contains u) (node_mappings (manifest self)))
    as [|d r] eqn:Hf; [discriminate|].
  assert (Hd : In d (filter (Dict.contains u)
                            (node_mappings (manifest self))))
    by (rewrite Hf; now left).
  apply filter_In in Hd. destruct Hd as [Hd Hc].
  apply contains_In in Hc. unfold Dict.keys in Hc.
  apply in_map_iff in Hc. destruct Hc as ([v n] & E & Hin).
  simpl in E. subst v. exists n. apply all_nodes_In. eauto.
Qed.

(** C6: for one instance of the state matcher with a previous manifest,
    on a manifest that satisfies the invariants of the data model, and
    for an included set whose ids each resolve to a node of the current
    manifest, a search for "modified" followed by a search for
    "unmodified" yield only included ids, and every included id is
    yielded by exactly one of the two; with at least one included id
    both searches end normally. *)
Theorem state_modified_unmodified_partition (X : Externals)
        (self : SelectorMethod) (ps : PreviousState)
        (old_manifest : Manifest) (st : StateSelectorMethod.memo)
        (included : IdSet) :
  previous_state self = Some ps ->
  prev_manifest ps = Some old_manifest ->
  manifest_wf (manifest self) ->
  ids_resolve (manifest self) included ->
  macros_closed (manifest self) ->
  memo_valid self old_manifest st ->
  let first := StateSelectorMethod.search X self st included "modified" in
  let second :=
    StateSelectorMethod.search X self (snd first) included "unmodified" in
  (forall u, In u (yields (fst first)) \/ In u (yields (fst second)) ->
             In u included)
  /\ (forall u, In u included ->
                (In u (yields (fst first)) /\ ~ In u (yields (fst second)))
                \/ (~ In u (yields (fst first))
                    /\ In u (yields (fst second))))
  /\ (included <> [] ->
      raised (fst first) = None /\ raised (fst second) = None).
Proof.
  intros Hps Hpm Hwf Hres Hclosed Hst.
  assert (Hwfm : Dict.wf (macros (manifest self))) by apply Hwf.
  assert (Hnd : NoDup (Dict.keys (all_nodes self included)))
    by (apply all_nodes_NoDup; auto using resolve_unique).
  assert (Hvisit : forall v m,
             In (v, m) (all_nodes self included) ->
             exists d, In d (node_mappings (manifest self)) /\ In (v, m) d).
  { intros v m Hvm. apply all_nodes_In in Hvm. apply Hvm. }
  assert (Hcand : included <> [] -> all_nodes self included <> []).
  { intros Hne. destruct included as [|u0 r]; [contradiction|].
    destruct (@resolve_candidate self (u0 :: r) u0 Hres (or_introl eq_refl))
      as (n & Hn).
    intros E. rewrite E in Hn. contradiction. }
  unfold StateSelectorMethod.search. rewrite Hps, Hpm.
  change (Dict.get "modified" StateSelectorMethod.state_checks)
    with (Some StateSelectorMethod.CheckModifiedContent).
  change (Dict.get "unmodified" StateSelectorMethod.state_checks)
    with (Some StateSelectorMethod.CheckUnmodifiedContent).
  cbv beta iota zeta.
  destruct (@content_search
              X self old_manifest StateSelectorMethod.CheckModifiedContent
              (content_modified X self old_manifest) st included)
    as (Hy1 & Hr1 & Hs1); auto.
  { intros v m Hvm. apply content_visit; auto. }
  destruct (StateSelectorMethod.search_with
              X self old_manifest StateSelectorMethod.CheckModifiedContent
              st included) as [g1 st1].
  simpl in Hy1, Hr1, Hs1. simpl snd. simpl fst.
  destruct (@content_search
              X self old_manifest StateSelectorMethod.CheckUnmodifiedContent
              (fun kv => negb (content_modified X self old_manifest kv))
              st1 included)
    as (Hy2 & Hr2 & Hs2); auto.
  { intros v m Hvm. apply content_visit; auto. }
  destruct (StateSelectorMethod.search_with
              X self old_manifest StateSelectorMethod.CheckUnmodifiedContent
              st1 included) as [g2 st2].
  simpl in Hy2, Hr2, Hs2. simpl fst. rewrite Hy1, Hy2.
  split; [|split].
  - intros u [Hu|Hu]; apply in_map_iff in Hu;
      destruct Hu as ([v m] & E & Hf); simpl in E; subst v;
      apply filter_In in Hf; destruct Hf as [Hf _];
      apply all_nodes_In in Hf; apply Hf.
  - intros u Hu.
    destruct (@resolve_candidate self included u Hres Hu) as (n & Hn).
    rewrite (@filter_keys_In (content_modified X self old_manifest)
               _ u n Hnd Hn).
    rewrite (@filter_keys_In
               (fun kv => negb (content_modified X self old_manifest kv))
               _ u n Hnd Hn).
    destruct (content_modified X self old_manifest (u, n)); simpl.
    + left. split; [reflexivity | discriminate].
    + right. split; [discriminate | reflexivity].
  - intros Hne. split; auto.
Qed.

Lemma state_modified_unmodified_partition_witness :
  let first :=
    StateSelectorMethod.search Sample.externals Scenario6.method None
                               Scenario6.included "modified" in
  let second :=
    StateSelectorMethod.search Sample.externals Scenario6.method
                               (snd first) Scenario6.included "unmodified" in
  (forall u, In u (yields (fst first)) \/ In u (yields (fst second)) ->
             In u Scenario6.included)
  /\ (forall u, In u Scenario6.included ->
                (In u (yields (fst first)) /\ ~ In u (yields (fst second)))
                \/ (~ In u (yields (fst first))
                    /\ In u (yields (fst second))))
  /\ (Scenario6.included <> [] ->
      raised (fst first) = None /\ raised (fst second) = None).
Proof.
  apply (@state_modified_unmodified_partition
           Sample.externals Scenario6.method Scenario6.state
           Scenario6.before None Scenario6.included).
  - reflexivity.
  - reflexivity.
  - exact scenario6_wf.
  - exact scenario6_resolve.
  - exact scenario6_closed.
  - left. reflexivity.
Defined.

Example state_modified_then_unmodified :
  let first :=
    StateSelectorMethod.search Sample.externals Scenario6.method None
                               Scenario6.included "modified" in
  fst first = Gen ["model.pkg.m"] None
  /\ fst (StateSelectorMethod.search Sample.externals Scenario6.method
                                     (snd first) Scenario6.included
                                     "unmodified")
     = Gen ["model.pkg.k"] None.
Proof. split; reflexivity. Qed.

(** ** The path matcher yields an id once for each test that succeeds *)

(** C7, as stated, fails: the invariants hold on a project with a single
    model, yet the path matcher yields the id of the model twice, once
    because its file is among the paths found and once because the
    directory of the file is. *)
Lemma path_search_yields_twice :
  manifest_wf (manifest Scenario.one_model)
  /\ ids_unique (manifest Scenario.one_model) ["model.pkg.m"]
  /\ yields (fst (MethodManager.search
                    MethodName.Path Scenario4.externals Scenario.one_model
                    None ["model.pkg.m"] "**/*"))
     = ["model.pkg.m"; "model.pkg.m"]
  /\ ~ NoDup (yields (fst (MethodManager.search
                             MethodName.Path Scenario4.externals
                             Scenario.one_model None ["model.pkg.m"]
                             "**/*"))).
Proof.
  split; [|split; [|split]].
  - unfold manifest_wf, Dict.wf. simpl.
    repeat split; repeat constructor; simpl; intuition discriminate.
  - intros u Hu. vm_compute in Hu. destruct Hu as [<-|[]].
    vm_compute. lia.
  - reflexivity.
  - intros H. vm_compute in H. inversion H as [|x l Hx Hl]; subst.
    apply Hx. now left.
Qed.

Lemma search_yield_bound_witness :
  count_occ string_dec
            (yields (fst (MethodManager.search
                            MethodName.Path Scenario4.externals
                            Scenario.one_model None ["model.pkg.m"]
                            "**/*"))) "model.pkg.m"
  <= yield_bound MethodName.Path.
Proof.
  apply search_yield_bound.
  - unfold manifest_wf, Dict.wf. simpl.
    repeat split; repeat constructor; simpl; intuition discriminate.
  - intros u Hu. vm_compute in Hu. destruct Hu as [<-|[]].
    vm_compute. lia.
Defined.

(** ** What every matcher yields *)

Lemma split_go_nonempty (sep : string) (s : string) :
  forall skip cur, PyStr.split_go sep skip cur s <> [].
Proof.
  induction s as [|c s IH]; intros skip cur; [simpl; discriminate|].
  cbn [PyStr.split_go]. destruct skip; [|apply IH].
  destruct (String.prefix sep (String c s)); [discriminate | apply IH].
Qed.

Lemma chain_In_included (included : IdSet) (ds : list (Dict.t Node))
      (u : UniqueId) (n : Node) :
  In (u, n) (chain included ds) -> In u included.
Proof.
  unfold chain. rewrite in_flat_map. intros (d & _ & H).
  apply restrict_In in H. apply H.
Qed.

(** Every composite iterator only produces included ids. *)
Lemma iterator_included (self : SelectorMethod) (included : IdSet)
      (u : UniqueId) (n : Node) :
  In (u, n) (all_nodes self included)
  \/ In (u, n) (configurable_nodes self included)
  \/ In (u, n) (non_source_nodes self included)
  \/ In (u, n) (groupable_nodes self included)
  \/ In (u, n) (parsed_and_unit_nodes self included)
  \/ In (u, n) (parsed_nodes self included)
  \/ In (u, n) (source_nodes self included)
  \/ In (u, n) (exposure_nodes self included)
  \/ In (u, n) (metric_nodes self included)
  \/ In (u, n) (unit_tests_of self included)
  \/ In (u, n) (semantic_model_nodes self included)
  \/ In (u, n) (saved_query_nodes self included) ->
  In u included.
Proof.
  unfold all_nodes, configurable_nodes, non_source_nodes, groupable_nodes,
    parsed_and_unit_nodes, parsed_nodes, source_nodes, exposure_nodes,
    metric_nodes, unit_tests_of, semantic_model_nodes, saved_query_nodes.
  rewrite !in_app_iff, !restrict_In. tauto.
Qed.

(** A loop whose body yields nothing but the id it is given yields
    included ids, provided it runs over one of the iterators. *)
Lemma gen_for_included (body : UniqueId * Node -> gen)
      (l : list (UniqueId * Node)) (included : IdSet) (u : UniqueId) :
  (forall v n, In (v, n) l -> In v included) ->
  (forall v n, In u (yields (body (v, n))) -> v = u) ->
  In u (yields (gen_for body l)) -> In u included.
Proof.
  intros Hl Hbody Hu. apply gen_for_yields_in in Hu.
  destruct Hu as ([v n] & Hin & Hy). apply Hbody in Hy. subst v. eauto.
Qed.

Ltac iterator_ids :=
  intros ?v ?n ?H; eapply iterator_included; eauto 15.

Ltac own_id :=
  intros ?v ?n;
  unfold PathSelectorMethod.visit, ConfigSelectorMethod.visit,
    VersionSelectorMethod.visit, gen_seq, yield_if, gen_yield, gen_done,
    gen_raise;
  simpl; split_cases; simpl; intuition (try contradiction; auto).

Ltac method_included :=
  unfold package_name_search;
  split_cases; simpl;
  first [ contradiction
        | apply gen_for_included; [iterator_ids | own_id] ].

(** X1: the first universal invariant: whatever the matcher, the
    manifest, the state and the selector, and whether or not the search
    ends normally, the ids it yields are included ids. *)
Theorem search_yields_included (X : Externals) (method : MethodName.t)
        (self : SelectorMethod) (st : StateSelectorMethod.memo)
        (included : IdSet) (selector : string) (u : UniqueId) :
  In u (yields (fst (MethodManager.search method X self st included
                                          selector))) ->
  In u included.
Proof.
  destruct method;
    unfold MethodManager.search, MethodManager.stateless; simpl fst.
  - unfold QualifiedNameSelectorMethod.search. method_included.
  - unfold TagSelectorMethod.search. method_included.
  - unfold GroupSelectorMethod.search. method_included.
  - unfold AccessSelectorMethod.search. method_included.
  - unfold SourceSelectorMethod.search. method_included.
  - unfold PathSelectorMethod.search. method_included.
  - unfold FileSelectorMethod.search. method_included.
  - unfold PackageSelectorMethod.search. method_included.
  - unfold ConfigSelectorMethod.search. method_included.
  - unfold TestNameSelectorMethod.search. method_included.
  - unfold TestTypeSelectorMethod.search. method_included.
  - unfold ResourceTypeSelectorMethod.search. method_included.
  - unfold StateSelectorMethod.search.
    destruct (previous_state self) as [ps|]; [|contradiction].
    destruct (prev_manifest ps) as [old_manifest|]; [|contradiction].
    destruct (Dict.get selector StateSelectorMethod.state_checks) as [c|];
      [|contradiction].
    rewrite state_search_with_yields. intros Hu.
    apply gen_for_st_yields_in in Hu.
    destruct Hu as ([v n] & s' & Hin & Hy).
    assert (v = u) as ->.
    { pose proof (state_visit_bound X self old_manifest c s' v n u) as Hb.
      apply (count_occ_In string_dec) in Hy.
      destruct (string_dec v u); [assumption | lia]. }
    eapply iterator_included; eauto.
  - unfold ExposureSelectorMethod.search. method_included.
  - unfold MetricSelectorMethod.search. method_included.
  - unfold ResultSelectorMethod.search. method_included.
  - unfold SourceStatusSelectorMethod.search. method_included.
  - unfold VersionSelectorMethod.search. method_included.
  - unfold SemanticModelSelectorMethod.search. method_included.
  - unfold SavedQuerySelectorMethod.search. method_included.
  - unfold UnitTestSelectorMethod.search. method_included.
Qed.

(** ** A search over no id *)

Lemma iterators_empty (self : SelectorMethod) :
  all_nodes self [] = [] /\ configurable_nodes self [] = []
  /\ non_source_nodes self [] = [] /\ groupable_nodes self [] = []
  /\ parsed_and_unit_nodes self [] = [] /\ parsed_nodes self [] = []
  /\ source_nodes self [] = [] /\ exposure_nodes self [] = []
  /\ metric_nodes self [] = [] /\ unit_tests_of self [] = []
  /\ semantic_model_nodes self [] = [] /\ saved_query_nodes self [] = [].
Proof.
  unfold all_nodes, configurable_nodes, non_source_nodes, groupable_nodes,
    parsed_and_unit_nodes, parsed_nodes, source_nodes, exposure_nodes,
    metric_nodes, unit_tests_of, semantic_model_nodes, saved_query_nodes.
  rewrite !restrict_empty. simpl. tauto.
Qed.

Ltac no_candidates self :=
  let E1 := fresh in let E2 := fresh in let E3 := fresh in
  let E4 := fresh in let E5 := fresh in let E6 := fresh in
  let E7 := fresh in let E8 := fresh in let E9 := fresh in
  let E10 := fresh in let E11 := fresh in let E12 := fresh in
  destruct (iterators_empty self)
    as (E1 & E2 & E3 & E4 & E5 & E6 & E7 & E8 & E9 & E10 & E11 & E12);
  rewrite ?E1, ?E2, ?E3, ?E4, ?E5, ?E6, ?E7, ?E8, ?E9, ?E10, ?E11, ?E12;
  clear E1 E2 E3 E4 E5 E6 E7 E8 E9 E10 E11 E12.

Lemma package_name_search_empty (X : Externals) (msg : string -> string)
      (selector : string) :
  List.length (PyStr.split "." selector) <= 2 ->
  package_name_search X msg [] selector = gen_done.
Proof.
  unfold package_name_search, PyStr.split. intros Hn.
  pose proof (@split_go_nonempty "." selector 0 "") as Hne.
  destruct (PyStr.split_go "." 0 "" selector) as [|p0 [|p1 [|p2 r]]];
    try reflexivity; [contradiction | simpl in Hn; lia].
Qed.

(** The keys of the dictionary of load times come from the records that
    carry one. *)
Lemma loaded_at_keys (results : list FreshnessRecord) :
  forall acc u,
    In u (Dict.keys (SourceStatusSelectorMethod.loaded_at results acc)) ->
    In u (Dict.keys acc)
    \/ exists r, In r results /\ fresh_unique_id r = u
                 /\ max_loaded_at r <> None.
Proof.
  assert (Hset : forall (k : string) (t : Z) (d : Dict.t Z) u,
             In u (Dict.keys (Dict.set k t d)) -> u = k \/ In u (Dict.keys d)).
  { intros k t d u. induction d as [|[k' v'] d IH]; simpl.
    - intros [<-|[]]. now left.
    - destruct (String.eqb_spec k k') as [->|Hne]; simpl.
      + intros [<-|H]; auto.
      + intros [<-|H]; auto. destruct (IH H); auto. }
  induction results as [|r rest IH]; intros acc u; simpl.
  - auto.
  - destruct (max_loaded_at r) as [t|] eqn:Ht.
    + intros H. apply IH in H. destruct H as [H|(r' & Hr' & E & Hm)].
      * apply Hset in H. destruct H as [->|H]; [|auto].
        right. exists r. rewrite Ht. repeat split; auto. discriminate.
      * right. exists r'. auto.
    + intros H. apply IH in H. destruct H as [H|(r' & Hr' & E & Hm)]; auto.
      right. exists r'. auto.
Qed.

Lemma fresher_keys (cur prev : Dict.t Z) (u : UniqueId) :
  In u (SourceStatusSelectorMethod.fresher cur prev) -> In u (Dict.keys cur).
Proof.
  unfold SourceStatusSelectorMethod.fresher. rewrite in_flat_map.
  intros ([v t] & Hin & Hu).
  assert (u = v) as ->.
  { destruct (Dict.get v prev) as [p|].
    - destruct (p <? t)%Z; simpl in Hu; intuition.
    - simpl in Hu; intuition. }
  eapply In_keys; eauto.
Qed.

(** When no source has both a load time and a runtime error among the
    current results, the exclusion loop removes nothing and the matches
    are computed normally. *)
Lemma compute_matches_consistent (previous current : list FreshnessRecord)
      (selector : string) :
  (forall r1 r2, In r1 current -> In r2 current ->
                 fresh_unique_id r1 = fresh_unique_id r2 ->
                 max_loaded_at r1 <> None -> max_loaded_at r2 <> None) ->
  exists matches,
    SourceStatusSelectorMethod.compute_matches previous current selector
    = Ret matches.
Proof.
  intros Hcons. unfold SourceStatusSelectorMethod.compute_matches.
  destruct (String.eqb selector "fresher"); [|eauto].
  rewrite drop_errors_ok; [eauto|].
  intros u Hu. apply fresher_keys in Hu. apply loaded_at_keys in Hu.
  destruct Hu as [[]|(r1 & Hr1 & E1 & Hm1)].
  assert (Hno : ~ In u (SourceStatusSelectorMethod.runtime_errors current)).
  { unfold SourceStatusSelectorMethod.runtime_errors.
    rewrite in_map_iff. intros (r2 & E2 & Hf).
    apply filter_In in Hf. destruct Hf as [Hr2 Hnone].
    assert (max_loaded_at r2 <> None)
      by (apply (Hcons r1 r2); auto; congruence).
    destruct (max_loaded_at r2); [discriminate | congruence]. }
  auto.
Qed.

Lemma gen_for_st_quiet {A S} (body : S -> A -> gen * S) (l : list A) :
  (forall s x, In x l -> fst (body s x) = gen_done) ->
  forall s, fst (gen_for_st body s l) = gen_done.
Proof.
  induction l as [|x r IH]; intros Hbody s; simpl; [reflexivity|].
  pose proof (Hbody s x (or_introl eq_refl)) as Hx.
  destruct (body s x) as [g s1]. simpl in Hx.
  subst g. simpl.
  specialize (IH (fun s' y Hy => Hbody s' y (or_intror Hy)) s1).
  destruct (gen_for_st body s1 r) as [g' s2]. simpl in *. now subst g'.
Qed.

Lemma content_checker_selector (selector : string)
      (c : StateSelectorMethod.checker) :
  Dict.get selector StateSelectorMethod.state_checks = Some c ->
  c = StateSelectorMethod.CheckModifiedContent
  \/ c = StateSelectorMethod.CheckUnmodifiedContent ->
  In selector ["modified"; "unmodified"].
Proof.
  unfold StateSelectorMethod.state_checks. simpl.
  repeat match goal with
         | |- context [String.eqb selector ?k] =>
             destruct (String.eqb_spec selector k) as [->|?];
             [intros H [E|E]; inversion H; subst;
              try discriminate; simpl; tauto|]
         end.
  discriminate.
Qed.

(** With no keyword, the pass over the removed nodes raises nothing if
    the checker is the contract checker, or if the previous manifest
    has no removed node. *)
Lemma visit_removed_quiet (X : Externals) (self : SelectorMethod)
      (old_manifest : Manifest) (c : StateSelectorMethod.checker)
      (s : StateSelectorMethod.memo) (kv : UniqueId * Node) :
  c = StateSelectorMethod.CheckModifiedContract
  \/ removed_nodes (manifest self) old_manifest = [] ->
  In kv (nodes old_manifest) ->
  fst (StateSelectorMethod.visit_removed X self old_manifest c None s kv)
  = gen_done.
Proof.
  intros Hc Hin. destruct kv as [v n].
  unfold StateSelectorMethod.visit_removed.
  destruct Hc as [-> | Hnone].
  - destruct (Dict.get v (disabled (manifest self))); [reflexivity|].
    destruct (negb (Dict.contains v (nodes (manifest self)))); reflexivity.
  - assert (Hkeep :
      Dict.contains v (disabled (manifest self))
      || negb (Dict.contains v (nodes (manifest self))) = false).
    { destruct (Dict.contains v (disabled (manifest self))
                || negb (Dict.contains v (nodes (manifest self)))) eqn:E;
        [|reflexivity].
      assert (Hrm : In (v, n) (removed_nodes (manifest self) old_manifest))
        by (unfold removed_nodes; apply filter_In; auto).
      rewrite Hnone in Hrm. contradiction. }
    apply orb_false_iff in Hkeep. destruct Hkeep as [Hd Hn].
    apply contains_false_get in Hd. rewrite Hd, Hn. reflexivity.
Qed.

Lemma state_search_empty (X : Externals) (self : SelectorMethod)
      (st : StateSelectorMethod.memo) (selector : string) :
  In selector (Dict.keys StateSelectorMethod.state_checks) ->
  (exists p m, previous_state self = Some p /\ prev_manifest p = Some m) ->
  removed_pass_fits MethodName.State selector self ->
  fst (StateSelectorMethod.search X self st [] selector) = gen_done.
Proof.
  intros Hsel (p & old_manifest & Hp & Hm) Hfits.
  unfold StateSelectorMethod.search. rewrite Hp, Hm.
  destruct (Dict.get selector StateSelectorMethod.state_checks) as [c|] eqn:Hc.
  2:{ apply get_None_keys in Hc. contradiction. }
  unfold StateSelectorMethod.search_with. no_candidates self. simpl.
  destruct (StateSelectorMethod.handles_removed c) eqn:Hh; [|reflexivity].
  assert (Hq : c = StateSelectorMethod.CheckModifiedContract
               \/ removed_nodes (manifest self) old_manifest = []).
  { destruct c; try discriminate; auto; right;
      apply (Hfits eq_refl) with (p := p); auto;
      eapply content_checker_selector; eauto. }
  pose proof (@gen_for_st_quiet
                _ _ (StateSelectorMethod.visit_removed X self old_manifest c
                                                       None)
                (nodes old_manifest)
                (fun s kv Hkv =>
                   @visit_removed_quiet X self old_manifest c s kv Hq Hkv)
                st)
    as Hquiet.
  destruct (gen_for_st (StateSelectorMethod.visit_removed
                          X self old_manifest c None) st
                       (nodes old_manifest))
    as [g2 st2].
  simpl in Hquiet. subst g2. reflexivity.
Qed.

(** X2: the second universal invariant, where it holds: a search over
    no id yields nothing and ends normally, for a selector the matcher
    accepts (for the path matcher, a pattern the glob accepts) and a
    state that meets its preconditions, provided the current
    freshness results do not hold both a load time and a runtime error
    for one source, and provided the previous manifest has no removed
    node when the state matcher is asked for "modified" or
    "unmodified". *)
Theorem search_empty_included (X : Externals) (method : MethodName.t)
        (self : SelectorMethod) (st : StateSelectorMethod.memo)
        (selector : string) :
  valid_selector X method selector ->
  state_precondition method (previous_state self) ->
  freshness_consistent (previous_state self) ->
  removed_pass_fits method selector self ->
  fst (MethodManager.search method X self st [] selector) = gen_done.
Proof.
  intros Hsel Hpre Hfresh Hfits.
  destruct method;
    unfold MethodManager.search, MethodManager.stateless; simpl fst;
    simpl in Hsel, Hpre;
    try (apply state_search_empty; assumption).
  - unfold QualifiedNameSelectorMethod.search.
    no_candidates self. reflexivity.
  - unfold TagSelectorMethod.search. no_candidates self. reflexivity.
  - unfold GroupSelectorMethod.search. no_candidates self. reflexivity.
  - unfold AccessSelectorMethod.search. no_candidates self. reflexivity.
  - unfold SourceSelectorMethod.search, PyStr.split in *.
    no_candidates self.
    pose proof (@split_go_nonempty "." selector 0 "") as Hne.
    destruct (PyStr.split_go "." 0 "" selector) as [|p0 [|p1 [|p2 [|p3 r]]]];
      try reflexivity; [contradiction | simpl in Hsel; lia].
  - unfold PathSelectorMethod.search. no_candidates self.
    destruct Hsel as [paths ->]. reflexivity.
  - unfold FileSelectorMethod.search. no_candidates self. reflexivity.
  - unfold PackageSelectorMethod.search. no_candidates self. reflexivity.
  - unfold ConfigSelectorMethod.search. no_candidates self. reflexivity.
  - unfold TestNameSelectorMethod.search. no_candidates self. reflexivity.
  - unfold TestTypeSelectorMethod.search. no_candidates self.
    destruct Hsel as [<-|[<-|[<-|[<-|[<-|[]]]]]]; reflexivity.
  - unfold ResourceTypeSelectorMethod.search. no_candidates self.
    apply mem_In in Hsel. rewrite Hsel. reflexivity.
  - unfold ExposureSelectorMethod.search. no_candidates self.
    now apply package_name_search_empty.
  - unfold MetricSelectorMethod.search. no_candidates self.
    now apply package_name_search_empty.
  - unfold ResultSelectorMethod.search. no_candidates self.
    destruct Hpre as (p & r & -> & ->). reflexivity.
  - unfold SourceStatusSelectorMethod.search. no_candidates self.
    destruct Hpre as (p & a & b & Hp & Ha & Hb). rewrite Hp, Ha, Hb.
    destruct (@compute_matches_consistent a b selector
                (Hfresh p b Hp Hb)) as (matches & ->).
    reflexivity.
  - unfold VersionSelectorMethod.search. no_candidates self. reflexivity.
  - unfold SemanticModelSelectorMethod.search. no_candidates self.
    now apply package_name_search_empty.
  - unfold SavedQuerySelectorMethod.search. no_candidates self.
    now apply package_name_search_empty.
  - unfold UnitTestSelectorMethod.search. no_candidates self.
    now apply package_name_search_empty.
Qed.

(** ** Checks of the string and path functions *)

Example split_examples :
  map (PyStr.split ".") [""; "a"; "a.b"; "a..b"; ".a"; "a."]
  = [[""]; ["a"]; ["a"; "b"]; ["a"; ""; "b"]; [""; "a"]; ["a"; ""]].
Proof. reflexivity. Qed.

Example split_patch_path :
  PyStr.split "://" "pkg://models/schema.yml" = ["pkg"; "models/schema.yml"]
  /\ PyStr.split "://" "models/schema.yml" = ["models/schema.yml"]
  /\ PyStr.split "://" "a://" = ["a"; ""].
Proof. repeat split; reflexivity. Qed.

Example path_examples :
  PyPath.parents (PyPath.of_string "models/marts/orders.sql")
  = [PyPath.of_string "models/marts"; PyPath.of_string "models";
     PyPath.of_string "."]
  /\ PyPath.name (PyPath.of_string "models/marts/orders.sql") = "orders.sql"
  /\ PyPath.stem (PyPath.of_string "models/marts/orders.sql") = "orders"
  /\ PyPath.stem (PyPath.of_string "models/.hidden") = ".hidden"
  /\ PyPath.eqb (PyPath.of_string "models//marts/./x")
                (PyPath.of_string "models/marts/x") = true.
Proof. repeat split; reflexivity. Qed.

Example test_type_substring :
  map TestTypeSelectorMethod.search_types ["data"; "a"; "unit"; "i"]
  = [Ret [GenericTestNode; SingularTestNode];
     Ret [GenericTestNode; SingularTestNode];
     Ret [UnitTestDefinition];
     Ret [SingularTestNode]].
Proof. reflexivity. Qed.

(** The second scenario of the specification (source dotted form). *)
Example source_dotted_form :
  map (fun selector =>
         SourceSelectorMethod.search
           Sample.externals Scenario2.model_and_source Scenario2.both
           selector)
      ["stripe.charges"; "analytics.stripe.charges"; "stripe"; "other"]
  = [Gen [Scenario.stripe] None; Gen [Scenario.stripe] None;
     Gen [Scenario.stripe] None; Gen [] None]
  /\ raised (SourceSelectorMethod.search
               Sample.externals Scenario2.model_and_source Scenario2.both
               "a.b.c.d")
     = Some (DbtRuntimeError (SourceSelectorMethod.invalid_msg "a.b.c.d")).
Proof. split; reflexivity. Qed.

(** ** The state matcher without a candidate *)

(** C1: with an empty included set every search is meant to end
    normally without an id.  The state matcher obtained from the
    registry, with a previous manifest and an accepted selector, raises
    [TypeError] when the previous manifest holds a removed node: the
    adapter type is put into [keyword_args] by the body of the first
    loop, which did not run, and the content checker is called without
    it. *)
Theorem state_modified_empty_included_raises :
  state_precondition MethodName.State (previous_state Scenario8.method)
  /\ valid_selector Sample.externals MethodName.State "modified"
  /\ fst (MethodManager.search
            MethodName.State Sample.externals Scenario8.method None []
            "modified")
     = Gen [] (Some TypeError).
Proof.
  split; [|split].
  - exists Scenario8.state, Scenario8.before. split; reflexivity.
  - simpl. tauto.
  - reflexivity.
Qed.

(** With a candidate the same search ends normally. *)
Example state_modified_removed_node_with_candidate :
  fst (StateSelectorMethod.search
         Sample.externals
         (Scenario.method_on
            (Scenario.with_nodes [("model.pkg.k", Scenario6.model_k)] [] [])
            (Some Scenario8.state) [])
         None ["model.pkg.k"] "modified")
  = Gen [] None.
Proof. reflexivity. Qed.

(** ** The kinds of node a matcher yields *)

Lemma gen_for_candidates (body : UniqueId * Node -> gen)
      (l : list (UniqueId * Node)) (u : UniqueId) :
  (forall v n, In u (yields (body (v, n))) -> v = u) ->
  In u (yields (gen_for body l)) -> exists n, In (u, n) l.
Proof.
  intros Hbody Hu. apply gen_for_yields_in in Hu.
  destruct Hu as ([v n] & Hin & Hy). apply Hbody in Hy. subst v. eauto.
Qed.

Ltac in_mapping :=
  match goal with
  | H : In (?u, ?n) ?d |- _ =>
      exists d, n; split; [simpl; tauto | exact H]
  end.

Ltac find_mapping H :=
  unfold all_nodes, configurable_nodes, non_source_nodes, groupable_nodes,
    parsed_and_unit_nodes, parsed_nodes, source_nodes, exposure_nodes,
    metric_nodes, unit_tests_of, semantic_model_nodes, saved_query_nodes
    in H;
  rewrite ?in_app_iff, ?restrict_In in H;
  unfold permitted_mappings, node_mappings;
  repeat match type of H with
         | _ \/ _ => destruct H as [H|H]
         end;
  destruct H as [H _]; in_mapping.

Ltac method_kind :=
  unfold package_name_search;
  split_cases; simpl;
  first [ contradiction
        | let Hy := fresh "Hy" in
          let n := fresh "n" in
          let Hn := fresh "Hn" in
          intros Hy; apply gen_for_candidates in Hy; [|own_id];
          destruct Hy as (n & Hn); find_mapping Hn ].

(** X3: whatever the manifest, the state, the selector and the included
    set, and whether or not the search ends normally, every id a matcher
    yields is a key of one of the mappings that matcher iterates: the
    access and version matchers only yield parsed nodes, the source
    matcher only sources, the fqn matcher never a source, and so on. *)
Theorem search_yields_permitted_kind (X : Externals)
        (method : MethodName.t) (self : SelectorMethod)
        (st : StateSelectorMethod.memo) (included : IdSet)
        (selector : string) (u : UniqueId) :
  In u (yields (fst (MethodManager.search method X self st included
                                          selector))) ->
  exists d n, In d (permitted_mappings method (manifest self))
              /\ In (u, n) d.
Proof.
  destruct method;
    unfold MethodManager.search, MethodManager.stateless; simpl fst.
  - unfold QualifiedNameSelectorMethod.search. method_kind.
  - unfold TagSelectorMethod.search. method_kind.
  - unfold GroupSelectorMethod.search. method_kind.
  - unfold AccessSelectorMethod.search. method_kind.
  - unfold SourceSelectorMethod.search. method_kind.
  - unfold PathSelectorMethod.search. method_kind.
  - unfold FileSelectorMethod.search. method_kind.
  - unfold PackageSelectorMethod.search. method_kind.
  - unfold ConfigSelectorMethod.search. method_kind.
  - unfold TestNameSelectorMethod.search. method_kind.
  - unfold TestTypeSelectorMethod.search. method_kind.
  - unfold ResourceTypeSelectorMethod.search. method_kind.
  - unfold StateSelectorMethod.search.
    destruct (previous_state self) as [ps|]; [|contradiction].
    destruct (prev_manifest ps) as [old_manifest|]; [|contradiction].
    destruct (Dict.get selector StateSelectorMethod.state_checks) as [c|];
      [|contradiction].
    rewrite state_search_with_yields. intros Hu.
    apply gen_for_st_yields_in in Hu.
    destruct Hu as ([v n] & s' & Hin & Hy).
    assert (v = u) as ->.
    { pose proof (state_visit_bound X self old_manifest c s' v n u) as Hb.
      apply (count_occ_In string_dec) in Hy.
      destruct (string_dec v u); [assumption | lia]. }
    find_mapping Hin.
  - unfold ExposureSelectorMethod.search. method_kind.
  - unfold MetricSelectorMethod.search. method_kind.
  - unfold ResultSelectorMethod.search. method_kind.
  - unfold SourceStatusSelectorMethod.search. method_kind.
  - unfold VersionSelectorMethod.search. method_kind.
  - unfold SemanticModelSelectorMethod.search. method_kind.
  - unfold SavedQuerySelectorMethod.search. method_kind.
  - unfold UnitTestSelectorMethod.search. method_kind.
Qed.

(** ** Where the selector is validated *)

Lemma gen_seq_done_l (g : gen) : gen_seq gen_done g = g.
Proof. destruct g; reflexivity. Qed.

Lemma version_visit_valid (X : Externals) (selector : string)
      (u : UniqueId) (n : Node) :
  In selector ["latest"; "prerelease"; "old"; "none"] ->
  raised (VersionSelectorMethod.visit X selector u n) = None.
Proof.
  intros Hsel. unfold VersionSelectorMethod.visit.
  destruct (NodeClass_eqb (node_class n) ModelNode); [|reflexivity].
  simpl in Hsel.
  destruct Hsel as [<-|[<-|[<-|[<-|[]]]]]; simpl;
    match goal with |- raised (yield_if ?b _) = None => destruct b end;
    reflexivity.
Qed.

Lemma NodeClass_eqb_eq (a b : NodeClass) :
  NodeClass_eqb a b = true <-> a = b.
Proof. destruct a, b; simpl; split; intros H; congruence. Qed.

(** X4: the version matcher examines its selector only when it visits a
    model.  The search raises exactly when the selector is none of
    "latest", "prerelease", "old", "none" and a model is among the
    included parsed nodes; it then raises the error that names the
    selector, before any id is yielded. *)
Theorem version_search_raises_iff (X : Externals) (self : SelectorMethod)
        (included : IdSet) (selector : string) :
  (raised (VersionSelectorMethod.search X self included selector) <> None
   <-> ~ In selector ["latest"; "prerelease"; "old"; "none"]
       /\ exists u n, In (u, n) (parsed_nodes self included)
                      /\ node_class n = ModelNode)
  /\ (raised (VersionSelectorMethod.search X self included selector)
      <> None ->
      VersionSelectorMethod.search X self included selector
      = gen_raise (DbtRuntimeError
                     (VersionSelectorMethod.invalid_msg selector))).
Proof.
  unfold VersionSelectorMethod.search.
  destruct (in_dec string_dec selector
                   ["latest"; "prerelease"; "old"; "none"]) as [Hv|Hi].
  - (* an accepted selector never raises *)
    destruct (gen_for_total
                (fun '(unique_id, node) =>
                   VersionSelectorMethod.visit X selector unique_id node)
                (parsed_nodes self included)) as [Hr _].
    { intros [u n] _. now apply version_visit_valid. }
    rewrite Hr. split; [split|]; intros H; try contradiction.
    destruct H as [H _]. contradiction.
  - induction (parsed_nodes self included) as [|[u n] r IH]; simpl.
    + split; [split|]; intros H; try contradiction.
      destruct H as (_ & v & m & [] & _).
    + destruct (NodeClass_eqb (node_class n) ModelNode) eqn:Hc.
      * apply NodeClass_eqb_eq in Hc.
        rewrite (version_visit_invalid_selector X u n Hi Hc). simpl.
        split; [split|]; intros; try reflexivity; try discriminate.
        split; [assumption|]. exists u, n. auto.
      * assert (Hd : VersionSelectorMethod.visit X selector u n = gen_done)
          by (unfold VersionSelectorMethod.visit; now rewrite Hc).
        rewrite Hd, gen_seq_done_l.
        destruct IH as [[IH1 IH2] IH3]. split; [split|]; auto.
        -- intros H. destruct (IH1 H) as (Hs & v & m & Hin & Hm).
           split; [assumption|]. exists v, m. auto.
        -- intros (Hs & v & m & [E|Hin] & Hm).
           ++ inversion E; subst. rewrite Hm in Hc. discriminate.
           ++ apply IH2. split; [assumption|]. exists v, m. auto.
Qed.

Lemma package_name_search_body_total (X : Externals)
      (target_package target_name : string)
      (l : list (UniqueId * Node)) :
  raised (gen_for (fun '(unique_id, node) =>
                     if negb (fnmatch X (package_name node) target_package)
                     then gen_done
                     else if negb (fnmatch X (name node) target_name)
                     then gen_done
                     else gen_yield unique_id) l) = None.
Proof.
  apply gen_for_total. intros [u n] _.
  destruct (negb _); [reflexivity|]. destruct (negb _); reflexivity.
Qed.

Lemma package_name_search_raises (X : Externals) (msg : string -> string)
      (l : list (UniqueId * Node)) (selector : string) :
  (raised (package_name_search X msg l selector) <> None
   <-> 2 < List.length (PyStr.split "." selector))
  /\ (raised (package_name_search X msg l selector) <> None ->
      package_name_search X msg l selector
      = gen_raise (DbtRuntimeError (msg selector))).
Proof.
  unfold package_name_search, PyStr.split.
  pose proof (@split_go_nonempty "." selector 0 "") as Hne.
  destruct (PyStr.split_go "." 0 "" selector) as [|p0 [|p1 [|p2 r]]];
    [contradiction| | |].
  - rewrite package_name_search_body_total. simpl.
    split; [split|]; intros H; try contradiction; lia.
  - rewrite package_name_search_body_total. simpl.
    split; [split|]; intros H; try contradiction; lia.
  - simpl. split; [split|]; intros; try reflexivity; try discriminate; lia.
Qed.

(** X5: the exposure, metric, semantic model, saved query and unit test
    matchers check the shape of the selector before they iterate: the
    search raises exactly when the selector has more than two
    dot-separated parts, whatever the manifest and the included set,
    and then no id is yielded. *)
Theorem two_part_search_raises_iff (X : Externals) (method : MethodName.t)
        (self : SelectorMethod) (st : StateSelectorMethod.memo)
        (included : IdSet) (selector : string) :
  In method [MethodName.Exposure; MethodName.Metric;
             MethodName.SemanticModel; MethodName.SavedQuery;
             MethodName.UnitTest] ->
  (raised (fst (MethodManager.search method X self st included selector))
   <> None
   <-> 2 < List.length (PyStr.split "." selector))
  /\ (raised (fst (MethodManager.search method X self st included
                                        selector)) <> None ->
      exists msg,
        fst (MethodManager.search method X self st included selector)
        = gen_raise (DbtRuntimeError msg)).
Proof.
  intros Hm. simpl in Hm.
  destruct Hm as [<-|[<-|[<-|[<-|[<-|[]]]]]];
    unfold MethodManager.search, MethodManager.stateless,
      ExposureSelectorMethod.search, MetricSelectorMethod.search,
      SemanticModelSelectorMethod.search, SavedQuerySelectorMethod.search,
      UnitTestSelectorMethod.search; simpl fst;
    match goal with
    | |- context [package_name_search X ?msg ?l selector] =>
        destruct (package_name_search_raises X msg l selector) as [H1 H2]
    end;
    (split; [exact H1 | intros H; eexists; apply (H2 H)]).
Qed.

Lemma two_part_search_raises_iff_witness :
  (raised (fst (MethodManager.search
                  MethodName.Metric Sample.externals Scenario.one_model
                  None ["model.pkg.m"] "a.b.c")) <> None
   <-> 2 < List.length (PyStr.split "." "a.b.c"))
  /\ (raised (fst (MethodManager.search
                     MethodName.Metric Sample.externals Scenario.one_model
                     None ["model.pkg.m"] "a.b.c")) <> None ->
      exists msg,
        fst (MethodManager.search
               MethodName.Metric Sample.externals Scenario.one_model
               None ["model.pkg.m"] "a.b.c")
        = gen_raise (DbtRuntimeError msg)).
Proof.
  apply two_part_search_raises_iff. simpl. tauto.
Defined.

(** X6: the source matcher accepts one, two or three dot-separated
    parts: the search raises exactly when the selector has more than
    three, whatever the manifest and the included set, with the message
    that quotes the selector and before any id is yielded. *)
Theorem source_search_raises_iff (X : Externals) (self : SelectorMethod)
        (included : IdSet) (selector : string) :
  (raised (SourceSelectorMethod.search X self included selector) <> None
   <-> 3 < List.length (PyStr.split "." selector))
  /\ (raised (SourceSelectorMethod.search X self included selector)
      <> None ->
      SourceSelectorMethod.search X self included selector
      = gen_raise (DbtRuntimeError
                     (SourceSelectorMethod.invalid_msg selector))).
Proof.
  unfold SourceSelectorMethod.search, PyStr.split.
  pose proof (@split_go_nonempty "." selector 0 "") as Hne.
  assert (Hbody : forall tp ts tt,
    raised (gen_for (fun '(unique_id, node) =>
                       if negb (fnmatch X (package_name node) tp)
                       then gen_done
                       else if negb (fnmatch X (source_name node) ts)
                       then gen_done
                       else if negb (fnmatch X (name node) tt)
                       then gen_done
                       else gen_yield unique_id)
                    (source_nodes self included)) = None).
  { intros tp ts tt. apply gen_for_total. intros [u n] _.
    repeat (destruct (negb _); [reflexivity|]). reflexivity. }
  destruct (PyStr.split_go "." 0 "" selector) as [|p0 [|p1 [|p2 [|p3 r]]]];
    [contradiction| | | |]; simpl;
    try (rewrite Hbody; split; [split|]; intros H;
         try contradiction; lia).
  split; [split|]; intros; try reflexivity; try discriminate; lia.
Qed.

(** X7: [selector in ("data")] tests for a substring, the parentheses
    making no tuple: every substring of "data", the empty selector
    included, selects what "data" selects. *)
Theorem test_type_data_substring (X : Externals) (self : SelectorMethod)
        (included : IdSet) (selector : string) :
  PyStr.substring_of selector "data" = true ->
  TestTypeSelectorMethod.search X self included selector
  = TestTypeSelectorMethod.search X self included "data".
Proof.
  intros Hsub. unfold TestTypeSelectorMethod.search.
  assert (Hty : TestTypeSelectorMethod.search_types selector
                = TestTypeSelectorMethod.search_types "data").
  { unfold TestTypeSelectorMethod.search_types at 1.
    destruct (PyList.mem selector ["generic"; "schema"]) eqn:Hm.
    - apply mem_In in Hm. simpl in Hm.
      destruct Hm as [<-|[<-|[]]]; vm_compute in Hsub; discriminate.
    - rewrite Hsub. reflexivity. }
  now rewrite Hty.
Qed.

Lemma test_type_data_substring_witness :
  TestTypeSelectorMethod.search Sample.externals Scenario3.severity_method
                                ["test.pkg.not_null_m_id"] ""
  = TestTypeSelectorMethod.search Sample.externals Scenario3.severity_method
                                  ["test.pkg.not_null_m_id"] "data".
Proof.
  apply test_type_data_substring. reflexivity.
Defined.

Example test_type_empty_selector :
  TestTypeSelectorMethod.search Sample.externals Scenario3.severity_method
                                ["test.pkg.not_null_m_id"] ""
  = Gen ["test.pkg.not_null_m_id"] None.
Proof. reflexivity. Qed.

(** ** New and old nodes *)

Lemma get_None_keys_neg' {V} (k : string) (v : V) (d : Dict.t V) :
  Dict.get k d = Some v -> In k (Dict.keys d).
Proof. intros H. eapply In_keys. apply get_Some_In. eassumption. Qed.

Lemma classic_mapping (m : Manifest) (u : UniqueId) :
  (exists d, In d (node_mappings m) /\ In u (Dict.keys d))
  \/ (forall d, In d (node_mappings m) -> ~ In u (Dict.keys d)).
Proof.
  induction (node_mappings m) as [|d r IH].
  - right. intros d [].
  - destruct (in_dec string_dec u (Dict.keys d)) as [Hin|Hnot].
    + left. exists d. split; [now left | assumption].
    + destruct IH as [(d' & Hd' & Hk)|Hno].
      * left. exists d'. split; [now right | assumption].
      * right. intros d' [<-|Hd']; auto.
Qed.

Lemma previous_node_of_None (X : Externals) (old_manifest : Manifest)
      (u : UniqueId) :
  StateSelectorMethod.previous_node_of X old_manifest u = None
  <-> forall d, In d (node_mappings old_manifest) -> ~ In u (Dict.keys d).
Proof.
  unfold StateSelectorMethod.previous_node_of, node_mappings.
  split.
  - intros H d Hd.
    repeat match type of H with
           | match Dict.get u ?m with _ => _ end = None =>
               let E := fresh "E" in
               destruct (Dict.get u m) eqn:E; [discriminate|];
               apply get_None_keys in E
           end.
    simpl in Hd. intuition (subst; auto).
  - intros H.
    repeat match goal with
           | |- match Dict.get u ?m with _ => _ end = None =>
               let E := fresh "E" in
               destruct (Dict.get u m) eqn:E;
               [exfalso; apply (H m); [simpl; tauto|];
                apply get_None_keys_neg' in E; exact E|]
           end.
    reflexivity.
Qed.

Lemma filter_fst_In (p : UniqueId -> bool) (l : list (UniqueId * Node))
      (u : UniqueId) :
  In u (map fst (filter (fun kv => p (fst kv)) l))
  <-> (exists n, In (u, n) l) /\ p u = true.
Proof.
  rewrite in_map_iff. split.
  - intros ([v n] & E & Hf). simpl in E. subst v.
    apply filter_In in Hf. simpl in Hf. destruct Hf. eauto.
  - intros [(n & Hn) Hp]. exists (u, n). split; [reflexivity|].
    apply filter_In. auto.
Qed.

(** The search of a checker that reads the previous node only. *)
Lemma state_lambda_search (X : Externals) (self : SelectorMethod)
      (old_manifest : Manifest) (c : StateSelectorMethod.checker)
      (p : option Node -> bool) (st : StateSelectorMethod.memo)
      (included : IdSet) :
  StateSelectorMethod.handles_removed c = false ->
  (forall s old new,
      StateSelectorMethod.call_checker
        X self old_manifest c
        (StateSelectorMethod.loop_keyword_args self c) s old new
      = (Ret (p old), s)) ->
  StateSelectorMethod.search_with X self old_manifest c st included
  = (Gen (map fst
              (filter (fun kv =>
                         p (StateSelectorMethod.previous_node_of
                              X old_manifest (fst kv)))
                      (all_nodes self included)))
         None, st).
Proof.
  intros Hh Hcall. rewrite search_with_one_pass by assumption.
  induction (all_nodes self included) as [|[u n] r IH]; simpl;
    [reflexivity|].
  rewrite Hcall, IH. simpl.
  destruct (p (StateSelectorMethod.previous_node_of X old_manifest u));
    reflexivity.
Qed.

(** X8: with a previous manifest, the state matcher asked for "new"
    yields exactly the candidates whose id is a key of no mapping of the
    previous manifest, and asked for "old" exactly the others; neither
    search raises, and neither touches the memo of modified macros. *)
Theorem state_new_old (X : Externals) (self : SelectorMethod)
        (ps : PreviousState) (old_manifest : Manifest)
        (st : StateSelectorMethod.memo) (included : IdSet) :
  previous_state self = Some ps ->
  prev_manifest ps = Some old_manifest ->
  let new_search := StateSelectorMethod.search X self st included "new" in
  let old_search := StateSelectorMethod.search X self st included "old" in
  raised (fst new_search) = None /\ snd new_search = st
  /\ raised (fst old_search) = None /\ snd old_search = st
  /\ forall u,
       (In u (yields (fst new_search))
        <-> (exists n, In (u, n) (all_nodes self included))
            /\ forall d, In d (node_mappings old_manifest) ->
                         ~ In u (Dict.keys d))
       /\ (In u (yields (fst old_search))
           <-> (exists n, In (u, n) (all_nodes self included))
               /\ exists d, In d (node_mappings old_manifest)
                            /\ In u (Dict.keys d)).
Proof.
  intros Hps Hpm. unfold StateSelectorMethod.search. rewrite Hps, Hpm.
  change (Dict.get "new" StateSelectorMethod.state_checks)
    with (Some StateSelectorMethod.LambdaNew).
  change (Dict.get "old" StateSelectorMethod.state_checks)
    with (Some StateSelectorMethod.LambdaOld).
  cbv beta iota zeta.
  rewrite (@state_lambda_search
             X self old_manifest StateSelectorMethod.LambdaNew
             (fun old => match old with None => true | Some _ => false end)
             st included eq_refl (fun s old new => eq_refl)).
  rewrite (@state_lambda_search
             X self old_manifest StateSelectorMethod.LambdaOld
             (fun old => match old with None => false | Some _ => true end)
             st included eq_refl (fun s old new => eq_refl)).
  simpl. do 4 (split; [reflexivity|]). intros u.
  rewrite (filter_fst_In
             (fun v => match StateSelectorMethod.previous_node_of
                               X old_manifest v with
                       | None => true | Some _ => false end)).
  rewrite (filter_fst_In
             (fun v => match StateSelectorMethod.previous_node_of
                               X old_manifest v with
                       | None => false | Some _ => true end)).
  pose proof (previous_node_of_None X old_manifest u) as Hnone.
  destruct (StateSelectorMethod.previous_node_of X old_manifest u) as [o|].
  - assert (Hex : exists d, In d (node_mappings old_manifest)
                            /\ In u (Dict.keys d)).
    { destruct (classic_mapping old_manifest u) as [Hex|Hno]; auto.
      apply Hnone in Hno. discriminate. }
    split; split.
    + intros [_ H]. discriminate.
    + intros [_ Hno]. destruct Hex as (d & Hd & Hk).
      exfalso. exact (Hno d Hd Hk).
    + intros [Hc _]. auto.
    + intros [Hc _]. auto.
  - assert (Hno : forall d, In d (node_mappings old_manifest) ->
                           ~ In u (Dict.keys d))
      by (now apply Hnone).
    split; split.
    + intros [Hc _]. auto.
    + intros [Hc _]. auto.
    + intros [_ H]. discriminate.
    + intros [_ (d & Hd & Hk)]. exfalso. exact (Hno d Hd Hk).
Qed.

Lemma state_new_old_witness :
  let new_search :=
    StateSelectorMethod.search Sample.externals Scenario9.grown_method
                               None Scenario6.included "new" in
  let old_search :=
    StateSelectorMethod.search Sample.externals Scenario9.grown_method
                               None Scenario6.included "old" in
  raised (fst new_search) = None /\ snd new_search = None
  /\ raised (fst old_search) = None /\ snd old_search = None
  /\ forall u,
       (In u (yields (fst new_search))
        <-> (exists n, In (u, n) (all_nodes Scenario9.grown_method
                                            Scenario6.included))
            /\ forall d,
                 In d (node_mappings
                         (Scenario.with_nodes
                            [("model.pkg.m", Scenario6.model_m)] []
                            Scenario6.macros_after)) ->
                 ~ In u (Dict.keys d))
       /\ (In u (yields (fst old_search))
           <-> (exists n, In (u, n) (all_nodes Scenario9.grown_method
                                               Scenario6.included))
               /\ exists d,
                    In d (node_mappings
                            (Scenario.with_nodes
                               [("model.pkg.m", Scenario6.model_m)] []
                               Scenario6.macros_after))
                    /\ In u (Dict.keys d)).
Proof.
  apply (@state_new_old Sample.externals Scenario9.grown_method
                        Scenario9.grown _ None Scenario6.included);
    reflexivity.
Defined.

Example state_new_old_scenario :
  fst (StateSelectorMethod.search Sample.externals Scenario9.grown_method
                                  None Scenario6.included "new")
  = Gen ["model.pkg.k"] None
  /\ fst (StateSelectorMethod.search Sample.externals Scenario9.grown_method
                                     None Scenario6.included "old")
     = Gen ["model.pkg.m"] None.
Proof. split; reflexivity. Qed.

(** ** Unchanged macros *)

Lemma nil_if_no_member {A} (l : list A) : (forall x, ~ In x l) -> l = [].
Proof.
  destruct l as [|x r]; [reflexivity|]. intros H.
  exfalso. apply (H x). now left.
Qed.

(** X9: when no macro is modified (none changed its body, none was
    added or removed), the state matcher asked for "modified.macros"
    yields nothing and ends normally on every manifest: it returns
    before it looks any macro up, so a dependency on a macro that is
    missing from the manifest does not make it raise. *)
Theorem state_modified_macros_unchanged (X : Externals)
        (self : SelectorMethod) (ps : PreviousState)
        (old_manifest : Manifest) (st : StateSelectorMethod.memo)
        (included : IdSet) :
  previous_state self = Some ps ->
  prev_manifest ps = Some old_manifest ->
  Dict.wf (macros (manifest self)) ->
  (forall u, ~ macro_modified (macros old_manifest)
                              (macros (manifest self)) u) ->
  memo_valid self old_manifest st ->
  fst (StateSelectorMethod.search X self st included "modified.macros")
  = Gen [] None.
Proof.
  intros Hps Hpm Hwf Hsame Hst.
  assert (HM : StateSelectorMethod._macros_modified
                 (macros old_manifest) (macros (manifest self)) = []).
  { apply nil_if_no_member. intros u Hu.
    apply (macros_modified_spec (macros old_manifest) u Hwf) in Hu.
    exact (Hsame u Hu). }
  unfold StateSelectorMethod.search. rewrite Hps, Hpm.
  change (Dict.get "modified.macros" StateSelectorMethod.state_checks)
    with (Some StateSelectorMethod.CheckModifiedMacros).
  cbv beta iota zeta.
  rewrite search_with_one_pass by reflexivity.
  destruct (@gen_for_st_canonical
              _ _ (memo_valid self old_manifest)
              (StateSelectorMethod.visit
                 X self old_manifest StateSelectorMethod.CheckModifiedMacros)
              (fun _ => gen_done) (all_nodes self included))
    with (s := st) as [Hfst _].
  { intros s [v n] Hs _.
    destruct (@state_visit_memo
                X self old_manifest StateSelectorMethod.CheckModifiedMacros
                s (v, n) Hs) as [Heq Hval].
    split; [|assumption]. rewrite Heq.
    unfold StateSelectorMethod.visit, StateSelectorMethod.call_checker,
      StateSelectorMethod.check_modified_macros,
      StateSelectorMethod.check_macros_modified.
    simpl. rewrite HM. reflexivity. }
  { assumption. }
  rewrite Hfst. apply gen_for_done.
Qed.

Lemma state_modified_macros_unchanged_witness :
  fst (StateSelectorMethod.search Sample.externals Scenario9.method None
                                  Scenario6.included "modified.macros")
  = Gen [] None.
Proof.
  apply (@state_modified_macros_unchanged
           Sample.externals Scenario9.method Scenario9.unchanged
           Scenario6.after None Scenario6.included).
  - reflexivity.
  - reflexivity.
  - apply scenario6_wf.
  - change (macros (manifest Scenario9.method))
      with (macros Scenario6.after).
    intros u [(o & n & Ho & Hn & Hsql)|[[Ho Hn]|[Ho Hn]]].
    + rewrite Ho in Hn. inversion Hn. subst. now apply Hsql.
    + rewrite Ho in Hn. now apply Hn.
    + rewrite Hn in Ho. now apply Ho.
  - left. reflexivity.
Defined.

(** ** What the traversal answers on any manifest *)

Lemma reachable_nil (G : Dict.t Macro) (w : string) :
  ~ reachable G [] w.
Proof. intros H. induction H as [w [] | u mac w _ IH _ _]; assumption. Qed.

(** X10: on any manifest, with or without dangling dependencies, a
    traversal started with an empty visited list answers True only if a
    modified macro id is reachable from the node, answers False only if
    none is, and raises only [KeyError], for a reachable macro id that
    is missing from the macros of the manifest. *)
Theorem recursively_check_outcome (new_macros : Dict.t Macro)
        (modified_macros : list string) (node : option Node) :
  match fst (StateSelectorMethod.recursively_check_macros_modified
               new_macros modified_macros node []) with
  | Ret true =>
      exists w, reachable new_macros (start_macros node) w
                /\ In w modified_macros
  | Ret false =>
      forall w, reachable new_macros (start_macros node) w ->
                ~ In w modified_macros
  | Raise e =>
      exists w, e = KeyError w
                /\ reachable new_macros (start_macros node) w
                /\ Dict.get w new_macros = None
  end.
Proof.
  unfold StateSelectorMethod.recursively_check_macros_modified,
    start_macros.
  destruct node as [n|]; [|simpl; intros w H; now apply reachable_nil in H].
  destruct (depends_on_macros n) as [ms|];
    [|simpl; intros w H; now apply reachable_nil in H].
  destruct (check_macros_max_depth new_macros modified_macros ms [])
    as (r & v' & Hrun).
  rewrite Hrun. simpl.
  pose proof (check_macros_spec _ _ _ _ _ Hrun) as Hspec.
  destruct r as [[|]|e].
  - destruct Hspec as [_ H]. exact H.
  - intros w Hw. now destruct (negative_covers Hspec Hw).
  - destruct Hspec as [_ (w & Hw & Hg & He)]. exists w. auto.
Qed.

(** ** The visited list *)

Lemma NoDup_snoc {A} (l : list A) (x : A) :
  NoDup l -> ~ In x l -> NoDup (l ++ [x]).
Proof.
  intros Hl Hx. apply NoDup_app; auto.
  - constructor; [intros [] | constructor].
  - intros a Ha [<-|[]]. contradiction.
Qed.

Lemma macros_loop_extends (new_macros : Dict.t Macro)
      (modified_macros : list string)
      (recurse : list string -> list string
                 -> option StateSelectorMethod.visit_result)
      (all_macros : list string) :
  (forall deps vis out,
      NoDup vis -> recurse deps vis = Some out ->
      NoDup (snd out) /\ exists added, snd out = vis ++ added) ->
  forall todo vis out,
    NoDup vis ->
    StateSelectorMethod.macros_loop new_macros modified_macros recurse
                                    all_macros todo vis = Some out ->
    NoDup (snd out) /\ exists added, snd out = vis ++ added.
Proof.
  intros Hrec. induction todo as [|u rest IH]; intros vis out Hnd Hrun;
    simpl in Hrun.
  - inversion Hrun; subst. simpl. split; [assumption|].
    exists []. now rewrite app_nil_r.
  - destruct (PyList.mem u vis) eqn:Hvis; [eauto|].
    apply mem_false_not_In in Hvis.
    pose proof (@NoDup_snoc _ vis u Hnd Hvis) as Hnd1.
    assert (Hlift : forall v2 (out' : StateSelectorMethod.visit_result),
              NoDup (snd out') /\ (exists a, snd out' = v2 ++ a) ->
              (exists a2, v2 = (vis ++ [u]) ++ a2) ->
              NoDup (snd out') /\ exists added, snd out' = vis ++ added).
    { intros v2 out' [Hn (a & Ha)] (a2 & Ha2). split; [assumption|].
      exists ([u] ++ a2 ++ a). rewrite Ha, Ha2.
      now rewrite <- !app_assoc. }
    assert (Hself : exists a2, vis ++ [u] = (vis ++ [u]) ++ a2)
      by (exists []; now rewrite app_nil_r).
    assert (Hstop : forall r : result bool,
              NoDup (snd (r, vis ++ [u]))
              /\ exists added, snd (r, vis ++ [u]) = vis ++ added).
    { intros r. simpl. split; [assumption|]. now exists [u]. }
    destruct (PyList.mem u modified_macros).
    { inversion Hrun; subst. apply Hstop. }
    destruct (Dict.get u new_macros) as [mac|].
    2:{ inversion Hrun; subst. apply Hstop. }
    destruct (0 <? List.length (macro_depends_on mac))%nat.
    + destruct (recurse (macro_depends_on mac) (vis ++ [u]))
        as [[r v2]|] eqn:Hcall; [|discriminate].
      destruct (Hrec _ _ _ Hnd1 Hcall) as [Hn2 (a2 & Ha2)].
      simpl in Hn2, Ha2.
      assert (Hv2 : NoDup (snd (r, v2))
                    /\ exists added, snd (r, v2) = vis ++ added).
      { simpl. split; [assumption|]. exists ([u] ++ a2).
        rewrite Ha2. now rewrite <- app_assoc. }
      destruct r as [[|]|e];
        try (inversion Hrun; subst; exact Hv2).
      apply (Hlift v2); eauto.
    + assert (Hrun' :
        StateSelectorMethod.macros_loop new_macros modified_macros recurse
          all_macros rest (vis ++ [u]) = Some out).
      { destruct (List.length (vis ++ [u]) <? List.length all_macros)%nat;
          exact Hrun. }
      apply (Hlift (vis ++ [u])); eauto.
Qed.

(** X11: a traversal only appends to the visited list, and never
    appends an id that is already in it: from a list without
    duplicates it returns a list without duplicates, so each macro of
    the manifest is looked up at most once. *)
Theorem check_macros_visits_once (new_macros : Dict.t Macro)
        (modified_macros : list string) (depth : nat) :
  forall all_macros visited r visited',
    NoDup visited ->
    StateSelectorMethod.check_macros new_macros modified_macros depth
                                     all_macros visited
    = Some (r, visited') ->
    NoDup visited' /\ exists added, visited' = visited ++ added.
Proof.
  induction depth as [|d IH]; intros all_macros visited r visited' Hnd Hrun;
    [discriminate|].
  simpl in Hrun.
  apply (@macros_loop_extends new_macros modified_macros
           (StateSelectorMethod.check_macros new_macros modified_macros d)
           all_macros) with (out := (r, visited')) in Hrun; auto.
  intros deps vis [r0 v0] Hn Hc. simpl. eapply IH; eauto.
Qed.

Lemma check_macros_visits_once_witness :
  NoDup ["macro.pkg.a"; "macro.pkg.b"; "macro.pkg.c"]
  /\ exists added,
       ["macro.pkg.a"; "macro.pkg.b"; "macro.pkg.c"]
       = ["macro.pkg.a"] ++ added.
Proof.
  apply (@check_macros_visits_once
           Scenario5.cyclic_macros ["macro.pkg.zzz"] 4
           ["macro.pkg.b"] ["macro.pkg.a"] (Ret false)).
  - repeat constructor; simpl; tauto.
  - reflexivity.
Defined.

(** ** The config matcher on any input *)

(** X12: the config matcher never raises, whatever the arguments, the
    selector and the configs: a candidate whose config does not resolve
    along the arguments is skipped, and an id is yielded exactly when
    one of the configurable nodes that bear it resolves to a value that
    matches the selector. *)
Theorem config_search_total (X : Externals) (self : SelectorMethod)
        (included : IdSet) (selector : string) :
  raised (ConfigSelectorMethod.search X self included selector) = None
  /\ forall u,
       In u (yields (ConfigSelectorMethod.search X self included selector))
       <-> exists n value,
             In (u, n) (configurable_nodes self included)
             /\ _getattr_descend X (CDict (config n)) (arguments self)
                = Some value
             /\ ConfigSelectorMethod.value_matches
                  X (ConfigSelectorMethod.is_severity (arguments self))
                  selector value = true.
Proof.
  unfold ConfigSelectorMethod.search.
  destruct (gen_for_total
              (fun '(unique_id, node) =>
                 ConfigSelectorMethod.visit X (arguments self) selector
                                            unique_id node)
              (configurable_nodes self included)) as [Hr Hy].
  { intros [v m] _. apply config_visit_no_raise. }
  split; [exact Hr|]. intros u. rewrite Hy, in_flat_map. split.
  - intros ([v m] & Hvm & Hu). unfold ConfigSelectorMethod.visit in Hu.
    destruct (_getattr_descend X (CDict (config m)) (arguments self))
      as [value|] eqn:Hval; [|contradiction].
    apply yield_if_yields in Hu. destruct Hu as [-> Hm].
    exists m, value. auto.
  - intros (n & value & Hin & Hval & Hm). exists (u, n).
    split; [assumption|].
    unfold ConfigSelectorMethod.visit. rewrite Hval, Hm. simpl. auto.
Qed.

(** X13: descending along a path is descending along its first part
    and then, from the value reached, along the rest; an attribute
    error in the first part is the error of the whole. *)
Theorem getattr_descend_app (X : Externals) (attrs rest : list string) :
  forall value,
    _getattr_descend X value (attrs ++ rest)
    = match _getattr_descend X value attrs with
      | Some v => _getattr_descend X v rest
      | None => None
      end.
Proof.
  induction attrs as [|attr attrs IH]; intros value; simpl.
  - reflexivity.
  - destruct (getattr_value X value attr) as [v|]; [apply IH|].
    destruct (getitem_value value attr) as [v|]; [apply IH | reflexivity].
Qed.

(** A nested mapping of the config is reached key by key. *)
Example getattr_descend_nested :
  _getattr_descend
    Sample.externals
    (CDict [("meta", CDict [("owner", CStr "data"); ("tier", CNum 1)])])
    ["meta"; "owner"]
  = Some (CStr "data")
  /\ _getattr_descend
       Sample.externals
       (CDict [("meta", CDict [("owner", CStr "data")])])
       ["meta"; "owner"; "name"]
     = None.
Proof. split; reflexivity. Qed.

(** ** The universal invariants at concrete searches *)

Lemma search_yields_included_witness :
  In "model.pkg.m" Scenario2.both.
Proof.
  apply (@search_yields_included
           Sample.externals MethodName.FQN Scenario2.model_and_source
           None Scenario2.both "*" "model.pkg.m").
  vm_compute. auto.
Defined.

Lemma search_yields_permitted_kind_witness :
  exists d n,
    In d (permitted_mappings MethodName.FQN
                             (manifest Scenario2.model_and_source))
    /\ In ("model.pkg.m", n) d.
Proof.
  apply (@search_yields_permitted_kind
           Sample.externals MethodName.FQN Scenario2.model_and_source
           None Scenario2.both "*" "model.pkg.m").
  vm_compute. auto.
Defined.

Lemma search_empty_included_witness :
  fst (MethodManager.search MethodName.State Sample.externals
                            Scenario6.method None [] "modified")
  = gen_done.
Proof.
  apply search_empty_included.
  - vm_compute. auto 10.
  - simpl. eexists _, _. split; reflexivity.
  - intros p current Hp Hc. injection Hp as <-. discriminate Hc.
  - intros _ _ p old_manifest Hp Hm. injection Hp as <-.
    injection Hm as <-. reflexivity.
Defined.

(** ** Edge cases of the fully-qualified-name match *)

Lemma neg_index_None {A} (l : list A) (k : nat) :
  1 <= k -> PyList.neg_index l k = None <-> List.length l < k.
Proof.
  intros Hk. unfold PyList.neg_index.
  rewrite nth_error_None, length_rev. lia.
Qed.

Lemma is_selected_node_outcome (fnmatch : string -> string -> bool)
      (fqn : list string) (node_selector : string) (is_versioned : bool) :
  if (List.length fqn <? (if is_versioned then 2 else 1))%nat
  then is_selected_node fnmatch fqn node_selector is_versioned
       = Raise IndexError
  else exists b, is_selected_node fnmatch fqn node_selector is_versioned
                 = Ret b.
Proof.
  destruct (is_selected_tail_spec fnmatch fqn node_selector)
    as (b & Hb & _).
  unfold is_selected_node.
  destruct is_versioned;
    match goal with
    | |- context [PyList.neg_index fqn ?k] =>
        destruct (Nat.ltb_spec (List.length fqn) k) as [Hlt|Hge];
        [ apply (neg_index_None fqn) in Hlt; [|lia]; rewrite Hlt;
          reflexivity
        | destruct (PyList.neg_index fqn k) as [leaf|] eqn:Hleaf;
          [| apply neg_index_None in Hleaf; lia] ]
    end;
    repeat match goal with
           | |- context [String.eqb ?a ?c] => destruct (String.eqb a c)
           end; eauto.
Qed.

(** X14: [is_selected_node] raises exactly when the fqn is too short
    for the leaf it reads ([fqn[-2]] of a versioned node, [fqn[-1]]
    otherwise); the error is [IndexError], and on any longer fqn the
    function returns, whatever the selector: the walk over the selector
    parts never indexes past the flattened fqn. *)
Theorem is_selected_node_raises_iff (fnmatch : string -> string -> bool)
        (fqn : list string) (node_selector : string)
        (is_versioned : bool) :
  (is_selected_node fnmatch fqn node_selector is_versioned
   = Raise IndexError
   <-> List.length fqn < (if is_versioned then 2 else 1))
  /\ ((exists b, is_selected_node fnmatch fqn node_selector is_versioned
                 = Ret b)
      <-> (if is_versioned then 2 else 1) <= List.length fqn)
  /\ (forall e, is_selected_node fnmatch fqn node_selector is_versioned
                = Raise e -> e = IndexError).
Proof.
  pose proof (is_selected_node_outcome fnmatch fqn node_selector
                                       is_versioned) as H.
  destruct (Nat.ltb_spec (List.length fqn)
                         (if is_versioned then 2 else 1)) as [Hlt|Hge].
  - rewrite H. repeat split; try (intros; lia || congruence).
    + intros [b Hb]. discriminate.
  - destruct H as [b Hb]. rewrite Hb. repeat split;
      try (intros; (lia || discriminate)); eauto.
Qed.

(** X15: [node_is_match] tries the fqn and then the fqn without its
    first segment.  It raises [IndexError] exactly when the fqn is too
    short for the first try, or is just long enough for it and the
    first try fails; so on an fqn of that minimal length (one segment,
    or two for a versioned node) it never answers [False]. *)
Theorem node_is_match_raises_iff (X : Externals) (qualified_name : string)
        (fqn : list string) (is_versioned : bool) :
  let k := if is_versioned then 2 else 1 in
  (QualifiedNameSelectorMethod.node_is_match X qualified_name fqn
                                             is_versioned
   = Raise IndexError
   <-> List.length fqn < k
       \/ (List.length fqn = k
           /\ is_selected_node (fnmatch X) fqn qualified_name is_versioned
              = Ret false))
  /\ (forall e, QualifiedNameSelectorMethod.node_is_match
                  X qualified_name fqn is_versioned = Raise e ->
                e = IndexError)
  /\ (List.length fqn <= k ->
      QualifiedNameSelectorMethod.node_is_match X qualified_name fqn
                                                is_versioned
      <> Ret false).
Proof.
  intros k.
  pose proof (is_selected_node_outcome (fnmatch X) fqn qualified_name
                                       is_versioned) as H1.
  pose proof (is_selected_node_outcome (fnmatch X) (tl fqn) qualified_name
                                       is_versioned) as H2.
  assert (Htl : List.length (tl fqn) = List.length fqn - 1)
    by (destruct fqn; simpl; lia).
  rewrite Htl in H2. fold k in H1, H2.
  unfold QualifiedNameSelectorMethod.node_is_match.
  destruct (Nat.ltb_spec (List.length fqn) k) as [Hlt|Hge].
  - rewrite H1. repeat split; try congruence; auto.
  - destruct H1 as [b ->]. destruct b.
    + repeat split; try discriminate.
      intros [Hl|[_ Hf]]; [lia | discriminate].
    + destruct (Nat.ltb_spec (List.length fqn - 1) k) as [Hlt'|Hge'].
      * rewrite H2. repeat split; try congruence.
        intros _. right. split; [|reflexivity].
        subst k. destruct is_versioned; lia.
      * destruct H2 as [b ->].
        assert (Hk : 1 <= k) by (subst k; destruct is_versioned; lia).
        destruct b; repeat split; try discriminate;
          try (intros [Hl|[Hl _]]; lia); intros; lia.
Qed.

(** ** Selectors without wildcard characters *)

Lemma prefix_dot (c : ascii) (s : string) :
  String.prefix "." (String c s) = Ascii.eqb "."%char c.
Proof.
  cbn [String.prefix]. destruct (ascii_dec "." c) as [<-|Hne].
  - rewrite Ascii.eqb_refl. destruct s; reflexivity.
  - symmetry. apply Ascii.eqb_neq. exact Hne.
Qed.

Lemma split_go_dot_cons (c : ascii) (cur s : string) :
  PyStr.split_go "." 0 cur (String c s)
  = if Ascii.eqb "."%char c
    then cur :: PyStr.split_go "." 0 "" s
    else PyStr.split_go "." 0 (cur ++ String c "") s.
Proof.
  cbn [PyStr.split_go]. rewrite prefix_dot. reflexivity.
Qed.

(** Splitting at dots distributes over a dot between two strings. *)
Lemma split_go_dot_app (t : string) :
  forall s cur,
    PyStr.split_go "." 0 cur (s ++ String "." t)
    = (PyStr.split_go "." 0 cur s ++ PyStr.split_go "." 0 "" t)%list.
Proof.
  induction s as [|c s IH]; intros cur.
  - change ("" ++ String "." t)%string with (String "." t).
    rewrite split_go_dot_cons. reflexivity.
  - change (String c s ++ String "." t)%string
      with (String c (s ++ String "." t)).
    rewrite !split_go_dot_cons, !IH.
    destruct (Ascii.eqb "." c); reflexivity.
Qed.

(** [".".join(l).split(".")] is the flattening of [l], for a list that
    is not empty (the split of the empty string is [[""]]). *)
Lemma split_join_flatten (l : list string) :
  l <> [] ->
  PyStr.split "." (PyStr.join "." l) = flatten_fqn l.
Proof.
  intros Hne. induction l as [|x l IH]; [congruence|].
  destruct l as [|y l].
  - unfold flatten_fqn. simpl. rewrite app_nil_r. reflexivity.
  - unfold PyStr.join.
    change (String.concat "." (x :: y :: l))
      with (x ++ String "." (String.concat "." (y :: l)))%string.
    unfold PyStr.split. rewrite split_go_dot_app.
    unfold flatten_fqn. cbn [flat_map]. f_equal.
    apply IH. discriminate.
Qed.

Lemma contains_char_app (c : ascii) (a b : string) :
  PyStr.contains_char c (a ++ b)
  = PyStr.contains_char c a || PyStr.contains_char c b.
Proof.
  induction a as [|d a IH]; simpl; [reflexivity|].
  rewrite IH, orb_assoc. reflexivity.
Qed.

(** The characters of a piece of a split come from the string. *)
Lemma split_go_chars (c : ascii) :
  forall s cur piece,
    In piece (PyStr.split_go "." 0 cur s) ->
    PyStr.contains_char c piece = true ->
    PyStr.contains_char c cur = true \/ PyStr.contains_char c s = true.
Proof.
  induction s as [|d s IH]; intros cur piece Hin Hc.
  - simpl in Hin. destruct Hin as [<-|[]]. auto.
  - rewrite split_go_dot_cons in Hin.
    cbn [PyStr.contains_char].
    destruct (Ascii.eqb "." d).
    + destruct Hin as [<-|Hin]; [auto|].
      destruct (IH _ _ Hin Hc) as [H|H]; [discriminate|].
      right. rewrite H. apply orb_true_r.
    + destruct (IH _ _ Hin Hc) as [H|H].
      * rewrite contains_char_app in H. simpl in H.
        rewrite orb_false_r in H.
        apply orb_true_iff in H. destruct H as [H|H]; [auto|].
        right. rewrite H. reflexivity.
      * right. rewrite H. apply orb_true_r.
Qed.

Lemma has_wildcard_split (s p : string) :
  has_wildcard s = false -> In p (PyStr.split "." s) ->
  has_wildcard p = false.
Proof.
  unfold has_wildcard. rewrite <- !not_true_iff_false, !existsb_exists.
  intros Hs Hin (w & Hw & Hc). apply Hs. exists w. split; [assumption|].
  destruct (split_go_chars _ _ _ _ Hin Hc) as [H|H];
    [discriminate | assumption].
Qed.

Lemma has_wildcard_flatten (l : list string) (p : string) :
  (forall seg, In seg l -> has_wildcard seg = false) ->
  In p (flatten_fqn l) -> has_wildcard p = false.
Proof.
  intros Hl Hin. apply in_flat_map in Hin.
  destruct Hin as (seg & Hseg & Hp).
  eapply has_wildcard_split; eauto.
Qed.

Lemma skipn_nth_error_cons {A} (l : list A) :
  forall i x, nth_error l i = Some x -> skipn i l = x :: skipn (S i) l.
Proof.
  induction l as [|y l IH]; intros i x H.
  - destruct i; discriminate.
  - destruct i as [|i]; simpl in H.
    + inversion H. reflexivity.
    + apply IH in H. exact H.
Qed.

(** Over literal parts the walk is a prefix test: it never reaches the
    glob tail, and it is exhausted exactly when the parts are a prefix
    of the flattened fqn from the index on. *)
Lemma prefix_walk_literal (F : list string) :
  forall parts i,
    (forall p, In p parts -> has_wildcard p = false) ->
    (prefix_walk F i parts = WalkExhausted
     <-> exists rest, skipn i F = (parts ++ rest)%list)
    /\ (forall k, prefix_walk F i parts <> WalkSlurp k).
Proof.
  induction parts as [|p parts IH]; intros i Hlit.
  - simpl. split; [|discriminate].
    split; [eauto | reflexivity].
  - cbn [prefix_walk]. rewrite (Hlit p (or_introl eq_refl)).
    assert (Hrest : forall q, In q parts -> has_wildcard q = false)
      by (intros q Hq; apply Hlit; now right).
    destruct (nth_error F i) as [seg|] eqn:Hseg.
    + destruct (String.eqb_spec seg p) as [->|Hne].
      * destruct (IH (S i) Hrest) as [Hex Hslurp].
        split; [|exact Hslurp]. rewrite Hex.
        rewrite (skipn_nth_error_cons _ _ Hseg). simpl.
        split; intros [rest Hr]; exists rest; congruence.
      * split; [|discriminate]. split; [discriminate|].
        intros [rest Hr]. simpl in Hr.
        apply skipn_cons_inv in Hr. destruct Hr as [Hr _]. congruence.
    + split; [|discriminate]. split; [discriminate|].
      intros [rest Hr]. simpl in Hr.
      apply skipn_cons_inv in Hr. destruct Hr as [Hr _]. congruence.
Qed.

Lemma is_selected_tail_literal (fnmatch : string -> string -> bool)
      (fqn : list string) (S : string) :
  (forall p, In p (PyStr.split "." S) -> has_wildcard p = false) ->
  is_selected_tail fnmatch fqn S = Ret true
  <-> exists rest, flatten_fqn fqn = (PyStr.split "." S ++ rest)%list.
Proof.
  intros Hlit.
  destruct (@prefix_walk_literal (flatten_fqn fqn) _ 0 Hlit)
    as [Hex Hslurp].
  simpl in Hex. unfold is_selected_tail.
  destruct (Nat.ltb_spec (List.length (flatten_fqn fqn))
                         (List.length (PyStr.split "." S))) as [Hlt|Hge].
  - split; [discriminate|]. intros [rest Hr].
    rewrite Hr, length_app in Hlt. lia.
  - rewrite <- Hex.
    destruct (prefix_walk (flatten_fqn fqn) 0 (PyStr.split "." S)) eqn:Hw;
      split; try discriminate; try reflexivity.
    exfalso. eapply Hslurp. reflexivity.
Qed.

Lemma is_selected_tail_fnmatch_free (f g : string -> string -> bool)
      (fqn : list string) (S : string) :
  (forall p, In p (PyStr.split "." S) -> has_wildcard p = false) ->
  is_selected_tail f fqn S = is_selected_tail g fqn S.
Proof.
  intros Hlit.
  destruct (@prefix_walk_literal (flatten_fqn fqn) _ 0 Hlit)
    as [_ Hslurp].
  unfold is_selected_tail.
  destruct (prefix_walk (flatten_fqn fqn) 0 (PyStr.split "." S)) eqn:Hw;
    try reflexivity.
  exfalso. eapply Hslurp. reflexivity.
Qed.

(** X16: a selector that holds none of the characters * ? [ ] never
    reaches [fnmatch]: the answer of [is_selected_node] is the same
    under any glob matcher, and past the leaf shortcuts it is a plain
    prefix test, true exactly when the dot-separated parts of the
    selector are the first segments of the flattened fqn. *)
Theorem literal_selector_is_prefix_test
        (f g : string -> string -> bool) (fqn : list string)
        (node_selector : string) (is_versioned : bool) :
  has_wildcard node_selector = false ->
  is_selected_node f fqn node_selector is_versioned
  = is_selected_node g fqn node_selector is_versioned
  /\ (is_selected_tail f fqn node_selector = Ret true
      <-> exists rest,
            flatten_fqn fqn
            = (PyStr.split "." node_selector ++ rest)%list).
Proof.
  intros Hw.
  assert (Hlit : forall p, In p (PyStr.split "." node_selector) ->
                           has_wildcard p = false)
    by (intros p; apply has_wildcard_split; exact Hw).
  split; [|apply is_selected_tail_literal; exact Hlit].
  unfold is_selected_node.
  rewrite (is_selected_tail_fnmatch_free f g fqn node_selector Hlit).
  reflexivity.
Qed.

Lemma literal_selector_is_prefix_test_witness :
  is_selected_node Sample.simple_fnmatch ["pkg"; "staging"; "orders"]
                   "pkg.staging" false
  = is_selected_node (fun _ _ => false) ["pkg"; "staging"; "orders"]
                     "pkg.staging" false
  /\ (is_selected_tail Sample.simple_fnmatch ["pkg"; "staging"; "orders"]
                       "pkg.staging" = Ret true
      <-> exists rest,
            flatten_fqn ["pkg"; "staging"; "orders"]
            = (PyStr.split "." "pkg.staging" ++ rest)%list).
Proof.
  apply literal_selector_is_prefix_test. reflexivity.
Defined.

Lemma is_selected_node_prefix (f : string -> string -> bool)
      (pre rest : list string) (is_versioned : bool) :
  pre <> [] ->
  (forall seg, In seg pre -> has_wildcard seg = false) ->
  (if is_versioned then 2 else 1) <= List.length (pre ++ rest) ->
  is_selected_node f (pre ++ rest)%list (PyStr.join "." pre) is_versioned
  = Ret true.
Proof.
  intros Hne Hlit Hlen.
  assert (Htail : is_selected_tail f (pre ++ rest)%list
                                   (PyStr.join "." pre) = Ret true).
  { apply is_selected_tail_literal.
    - rewrite split_join_flatten by assumption.
      intros p. apply has_wildcard_flatten. exact Hlit.
    - rewrite split_join_flatten by assumption.
      exists (flatten_fqn rest). unfold flatten_fqn.
      apply flat_map_app. }
  unfold is_selected_node. destruct is_versioned.
  - destruct (@neg_index_Some _ (pre ++ rest)%list 2) as [leaf ->];
      [lia | assumption |].
    repeat match goal with
           | |- context [String.eqb ?a ?c] => destruct (String.eqb a c)
           end; auto.
  - destruct (@neg_index_Some _ (pre ++ rest)%list 1) as [leaf ->];
      [lia | assumption |].
    destruct (String.eqb leaf (PyStr.join "." pre)); auto.
Qed.

(** X17: a node is selected by every dotted prefix of its fqn, with or
    without the package (the first segment): when the segments joined
    hold no wildcard character, [node_is_match] answers [True] for the
    selector made of the first segments of the fqn joined by dots, and
    for the one made of the first segments after the package. *)
Theorem node_is_match_dotted_prefix (X : Externals)
        (fqn pre rest : list string) (is_versioned : bool) :
  pre <> [] ->
  (forall seg, In seg pre -> has_wildcard seg = false) ->
  fqn = (pre ++ rest)%list \/ tl fqn = (pre ++ rest)%list ->
  (if is_versioned then 2 else 1) <= List.length (pre ++ rest) ->
  QualifiedNameSelectorMethod.node_is_match X (PyStr.join "." pre) fqn
                                            is_versioned
  = Ret true.
Proof.
  intros Hne Hlit Hfqn Hlen.
  unfold QualifiedNameSelectorMethod.node_is_match.
  destruct Hfqn as [->|Htl].
  - rewrite is_selected_node_prefix by assumption. reflexivity.
  - pose proof (is_selected_node_outcome (fnmatch X) fqn
                                         (PyStr.join "." pre)
                                         is_versioned) as H1.
    assert (Hl : List.length (tl fqn) = List.length fqn - 1)
      by (destruct fqn; simpl; lia).
    rewrite Htl in Hl.
    destruct (Nat.ltb_spec (List.length fqn)
                           (if is_versioned then 2 else 1)) as [Hlt|Hge];
      [destruct is_versioned; lia|].
    destruct H1 as [b ->]. destruct b; [reflexivity|].
    rewrite Htl, is_selected_node_prefix by assumption. reflexivity.
Qed.

Lemma node_is_match_dotted_prefix_witness :
  QualifiedNameSelectorMethod.node_is_match
    Sample.externals (PyStr.join "." ["staging"; "stripe"])
    ["pkg"; "staging"; "stripe"; "charges"] false
  = Ret true.
Proof.
  apply (@node_is_match_dotted_prefix
           Sample.externals ["pkg"; "staging"; "stripe"; "charges"]
           ["staging"; "stripe"] ["charges"] false).
  - discriminate.
  - intros seg [<-|[<-|[]]]; reflexivity.
  - right. reflexivity.
  - simpl. lia.
Defined.

(** ** The cache of modified macros *)

Lemma visit_removed_canonical (X : Externals) (self : SelectorMethod)
      (old_manifest : Manifest) (c : StateSelectorMethod.checker)
      (kw : StateSelectorMethod.kwargs)
      (st : StateSelectorMethod.memo) (kv : UniqueId * Node) :
  memo_valid self old_manifest st ->
  fst (StateSelectorMethod.visit_removed X self old_manifest c kw st kv)
  = fst (StateSelectorMethod.visit_removed
           X self old_manifest c kw
           (Some (StateSelectorMethod._macros_modified
                    (macros old_manifest) (macros (manifest self))))
           kv).
Proof.
  intros Hst. destruct kv as [v n].
  unfold StateSelectorMethod.visit_removed.
  match goal with
  | |- context [match ?r with Some _ => _ | None => _ end] =>
      destruct r as [r'|]; [|reflexivity]
  end.
  destruct (@call_checker_memo X self old_manifest c kw st (Some r') None
              Hst) as [Heq _].
  destruct (StateSelectorMethod.call_checker X self old_manifest c kw st
                                             _ _) as [r1 s1].
  destruct (StateSelectorMethod.call_checker X self old_manifest c kw
                                             (Some _) _ _) as [r2 s2].
  simpl in Heq. subst r2. destruct r1; reflexivity.
Qed.

(** What a search yields, and how it ends, does not depend on whether
    the cache is still unset or already filled. *)
Lemma search_with_memo (X : Externals) (self : SelectorMethod)
      (old_manifest : Manifest) (c : StateSelectorMethod.checker)
      (st : StateSelectorMethod.memo) (included : IdSet) :
  memo_valid self old_manifest st ->
  fst (StateSelectorMethod.search_with X self old_manifest c st included)
  = fst (StateSelectorMethod.search_with
           X self old_manifest c
           (Some (StateSelectorMethod._macros_modified
                    (macros old_manifest) (macros (manifest self))))
           included)
  /\ memo_valid self old_manifest
       (snd (StateSelectorMethod.search_with X self old_manifest c st
                                             included)).
Proof.
  intros Hst.
  set (full := Some (StateSelectorMethod._macros_modified
                       (macros old_manifest) (macros (manifest self)))).
  assert (Hfull : memo_valid self old_manifest full) by (now right).
  assert (Hloop1 : forall s, memo_valid self old_manifest s ->
    fst (gen_for_st (StateSelectorMethod.visit X self old_manifest c) s
                    (all_nodes self included))
    = gen_for (fun kv => fst (StateSelectorMethod.visit
                                X self old_manifest c full kv))
              (all_nodes self included)
    /\ memo_valid self old_manifest
         (snd (gen_for_st (StateSelectorMethod.visit X self old_manifest c)
                          s (all_nodes self included)))).
  { apply gen_for_st_canonical. intros s x Hs _.
    apply state_visit_memo. exact Hs. }
  assert (Hloop2 : forall kw s, memo_valid self old_manifest s ->
    fst (gen_for_st (StateSelectorMethod.visit_removed
                       X self old_manifest c kw) s (nodes old_manifest))
    = gen_for (fun kv => fst (StateSelectorMethod.visit_removed
                                X self old_manifest c kw full kv))
              (nodes old_manifest)
    /\ memo_valid self old_manifest
         (snd (gen_for_st (StateSelectorMethod.visit_removed
                             X self old_manifest c kw) s
                          (nodes old_manifest)))).
  { intros kw. apply gen_for_st_canonical. intros s x Hs _. split.
    - apply visit_removed_canonical. exact Hs.
    - apply visit_removed_memo. exact Hs. }
  unfold StateSelectorMethod.search_with.
  destruct (Hloop1 st Hst) as [Hg1 Hs1].
  destruct (Hloop1 full Hfull) as [Hg1' Hs1'].
  destruct (gen_for_st (StateSelectorMethod.visit X self old_manifest c)
                       st (all_nodes self included)) as [g1 st1].
  destruct (gen_for_st (StateSelectorMethod.visit X self old_manifest c)
                       full (all_nodes self included)) as [g1' st1'].
  simpl in Hg1, Hs1, Hg1', Hs1'. rewrite <- Hg1 in Hg1'. subst g1'.
  destruct (raised g1); [auto|].
  destruct (StateSelectorMethod.handles_removed c); [|auto].
  match goal with
  | |- context [gen_for_st (StateSelectorMethod.visit_removed
                              X self old_manifest c ?kw) st1 _] =>
      destruct (Hloop2 kw st1 Hs1) as [Hg2 Hs2];
      destruct (Hloop2 kw st1' Hs1') as [Hg2' Hs2'];
      destruct (gen_for_st (StateSelectorMethod.visit_removed
                              X self old_manifest c kw) st1 _)
        as [g2 st2];
      destruct (gen_for_st (StateSelectorMethod.visit_removed
                              X self old_manifest c kw) st1' _)
        as [g2' st2']
  end.
  simpl in *. rewrite <- Hg2 in Hg2'. subst g2'. auto.
Qed.

(** X18: the list of modified macros that the state matcher caches on
    first use is transparent: a search run on an instance that already
    served another search (any selector, any included ids) yields the
    same ids and ends the same way as on a fresh instance. *)
Theorem state_search_reuses_instance (X : Externals)
        (self : SelectorMethod) (included1 included2 : IdSet)
        (selector1 selector2 : string) :
  fst (StateSelectorMethod.search
         X self
         (snd (StateSelectorMethod.search X self None included1 selector1))
         included2 selector2)
  = fst (StateSelectorMethod.search X self None included2 selector2).
Proof.
  unfold StateSelectorMethod.search.
  destruct (previous_state self) as [ps|]; [|reflexivity].
  destruct (prev_manifest ps) as [old_manifest|]; [|reflexivity].
  destruct (Dict.get selector2 StateSelectorMethod.state_checks)
    as [c2|]; [|reflexivity].
  assert (Hnone : memo_valid self old_manifest None) by (now left).
  destruct (@search_with_memo X self old_manifest c2 None included2 Hnone)
    as [-> _].
  destruct (Dict.get selector1 StateSelectorMethod.state_checks)
    as [c1|]; cbn [snd].
  - destruct (@search_with_memo X self old_manifest c1 None included1
                                Hnone) as [_ Hval].
    apply search_with_memo. exact Hval.
  - apply search_with_memo. exact Hnone.
Qed.

(** After a search the cache is unset or holds the result of
    [_macros_modified] on the two manifests. *)
Example state_search_fills_cache :
  snd (StateSelectorMethod.search Sample.externals Scenario6.method None
                                  Scenario6.included "modified.macros")
  = Some (StateSelectorMethod._macros_modified
            (macros Scenario6.before) (macros Scenario6.after)).
Proof. reflexivity. Qed.

(** ** The freshness matcher *)

Lemma get_set {V} (u k : string) (v : V) (d : Dict.t V) :
  Dict.get u (Dict.set k v d)
  = if String.eqb u k then Some v else Dict.get u d.
Proof.
  induction d as [|[k' v'] d IH]; simpl.
  - reflexivity.
  - destruct (String.eqb_spec k k') as [->|Hne]; simpl.
    + destruct (String.eqb u k'); reflexivity.
    + rewrite IH. destruct (String.eqb_spec u k') as [->|Hne'].
      * destruct (String.eqb_spec k' k); [congruence | reflexivity].
      * reflexivity.
Qed.

Lemma keys_set {V} (k : string) (v : V) (d : Dict.t V) :
  Dict.keys (Dict.set k v d)
  = if PyList.mem k (Dict.keys d) then Dict.keys d
    else (Dict.keys d ++ [k])%list.
Proof.
  induction d as [|[k' v'] d IH]; simpl.
  - reflexivity.
  - destruct (String.eqb_spec k k') as [->|Hne]; simpl.
    + reflexivity.
    + rewrite IH. fold (PyList.mem k (Dict.keys d)).
      destruct (PyList.mem k (Dict.keys d)); reflexivity.
Qed.

Lemma set_wf {V} (k : string) (v : V) (d : Dict.t V) :
  Dict.wf d -> Dict.wf (Dict.set k v d).
Proof.
  unfold Dict.wf. intros Hwf. rewrite keys_set.
  destruct (PyList.mem k (Dict.keys d)) eqn:Hk; [assumption|].
  apply NoDup_snoc; [assumption|].
  intros Hin. apply mem_In in Hin. congruence.
Qed.

Lemma loaded_at_wf (results : list FreshnessRecord) :
  forall acc, Dict.wf acc ->
              Dict.wf (SourceStatusSelectorMethod.loaded_at results acc).
Proof.
  induction results as [|r rest IH]; intros acc Hwf; simpl.
  - assumption.
  - destruct (max_loaded_at r); auto using set_wf.
Qed.

(** A dictionary comprehension keeps the last value of a key. *)
Lemma loaded_at_get (results : list FreshnessRecord) (u : UniqueId) :
  forall acc,
    Dict.get u (SourceStatusSelectorMethod.loaded_at results acc)
    = fold_left (fun a r =>
                   if String.eqb (fresh_unique_id r) u
                   then match max_loaded_at r with
                        | Some t => Some t
                        | None => a
                        end
                   else a)
                results (Dict.get u acc).
Proof.
  induction results as [|r rest IH]; intros acc; simpl.
  - reflexivity.
  - destruct (max_loaded_at r) as [t|].
    + rewrite IH, get_set, String.eqb_sym. reflexivity.
    + rewrite IH. destruct (String.eqb (fresh_unique_id r) u); reflexivity.
Qed.

Lemma loaded_at_last (results : list FreshnessRecord) (u : UniqueId) :
  Dict.get u (SourceStatusSelectorMethod.loaded_at results [])
  = last_loaded results u.
Proof. apply loaded_at_get. Qed.

Lemma fresher_In (cur prev : Dict.t Z) (u : UniqueId) :
  Dict.wf cur ->
  In u (SourceStatusSelectorMethod.fresher cur prev)
  <-> exists t, Dict.get u cur = Some t
                /\ (Dict.get u prev = None
                    \/ exists p, Dict.get u prev = Some p /\ (p < t)%Z).
Proof.
  intros Hwf. unfold SourceStatusSelectorMethod.fresher.
  rewrite in_flat_map. split.
  - intros ([v t] & Hin & Hu).
    assert (u = v) as ->.
    { destruct (Dict.get v prev) as [p|].
      - destruct (p <? t)%Z; simpl in Hu; intuition.
      - simpl in Hu; intuition. }
    exists t. split; [apply In_get_wf; assumption|].
    destruct (Dict.get v prev) as [p|]; [|now left].
    right. exists p. split; [reflexivity|].
    destruct (Z.ltb_spec p t); [assumption | contradiction].
  - intros (t & Hget & Hprev). exists (u, t).
    split; [apply get_Some_In; assumption|].
    destruct Hprev as [->|(p & -> & Hlt)]; [now left|].
    apply Z.ltb_lt in Hlt. rewrite Hlt. now left.
Qed.

Lemma runtime_errors_In (results : list FreshnessRecord) (u : UniqueId) :
  In u (SourceStatusSelectorMethod.runtime_errors results)
  <-> has_runtime_error results u.
Proof.
  unfold SourceStatusSelectorMethod.runtime_errors, has_runtime_error.
  rewrite in_map_iff. split.
  - intros (r & E & Hf). apply filter_In in Hf. destruct Hf as [Hr Hn].
    exists r. repeat split; auto.
    destruct (max_loaded_at r); [discriminate | reflexivity].
  - intros (r & Hr & E & Hn). exists r. split; [assumption|].
    apply filter_In. rewrite Hn. auto.
Qed.

Lemma fresher_matches (previous current : list FreshnessRecord)
      (u : UniqueId) :
  In u (SourceStatusSelectorMethod.fresher
          (SourceStatusSelectorMethod.loaded_at current [])
          (SourceStatusSelectorMethod.loaded_at previous []))
  <-> fresher_than previous current u.
Proof.
  rewrite fresher_In by (apply loaded_at_wf; constructor).
  unfold fresher_than. rewrite !loaded_at_last. reflexivity.
Qed.

(** X19: the freshness matcher, given both sets of freshness results.
    A selector other than "fresher" is accepted and selects nothing.
    For "fresher", the load time of a source is that of its last record
    with one, in either set.  The exclusion of runtime errors never
    excludes: if a fresher source also has a runtime-error record among
    the current results the search raises [RuntimeError], and otherwise
    it yields exactly the candidates that are fresher. *)
Theorem source_status_search_outcome (X : Externals)
        (self : SelectorMethod) (included : IdSet) (selector : string)
        (ps : PreviousState) (previous current : list FreshnessRecord) :
  previous_state self = Some ps ->
  prev_sources ps = Some previous ->
  prev_sources_current ps = Some current ->
  (selector <> "fresher" ->
   SourceStatusSelectorMethod.search X self included selector = gen_done)
  /\ ((exists u, fresher_than previous current u
                 /\ has_runtime_error current u) ->
      SourceStatusSelectorMethod.search X self included "fresher"
      = gen_raise (RuntimeError "Set changed size during iteration"))
  /\ ((forall u, fresher_than previous current u ->
                 ~ has_runtime_error current u) ->
      raised (SourceStatusSelectorMethod.search X self included "fresher")
      = None
      /\ forall u,
           In u (yields (SourceStatusSelectorMethod.search
                           X self included "fresher"))
           <-> (exists n, In (u, n) (all_nodes self included))
               /\ fresher_than previous current u).
Proof.
  intros Hps Hprev Hcur.
  unfold SourceStatusSelectorMethod.search.
  rewrite Hps, Hprev, Hcur.
  unfold SourceStatusSelectorMethod.compute_matches.
  split; [|split].
  - intros Hsel. apply String.eqb_neq in Hsel. rewrite Hsel.
    rewrite (gen_for_ext _ (fun _ => gen_done));
      [apply gen_for_done | intros [u n] _; reflexivity].
  - intros (u & Hf & He). rewrite String.eqb_refl.
    rewrite drop_errors_raises; [reflexivity|].
    exists u. split; [apply fresher_matches; assumption|].
    right. apply runtime_errors_In. assumption.
  - intros Hok. rewrite String.eqb_refl.
    rewrite drop_errors_ok.
    2:{ intros u Hu. apply fresher_matches in Hu.
        rewrite runtime_errors_In. split; apply Hok; assumption. }
    match goal with
    | |- context [gen_for ?body ?l] =>
        destruct (gen_for_total body l) as [Hr Hy];
        [intros [v n] _; destruct (PyList.mem v _); reflexivity|]
    end.
    split; [exact Hr|]. intros u. rewrite Hy, in_flat_map. split.
    + intros ([v n] & Hin & Hu). apply yield_if_yields in Hu.
      destruct Hu as [-> Hm]. apply mem_In, fresher_matches in Hm.
      split; [eauto | assumption].
    + intros [[n Hin] Hf]. exists (u, n). split; [assumption|].
      apply fresher_matches, mem_In in Hf. rewrite Hf. simpl. auto.
Qed.

Lemma source_status_search_outcome_witness :
  (("stale"%string <> "fresher"%string) ->
   SourceStatusSelectorMethod.search
     Sample.externals Scenario10.method
     [Scenario.stripe; Scenario10.orders] "stale" = gen_done)
  /\ ((exists u,
         fresher_than
           [ {| fresh_unique_id := Scenario.stripe;
                max_loaded_at := Some 100%Z |};
             {| fresh_unique_id := Scenario10.orders;
                max_loaded_at := Some 100%Z |} ]
           [ {| fresh_unique_id := Scenario.stripe;
                max_loaded_at := Some 150%Z |};
             {| fresh_unique_id := Scenario10.orders;
                max_loaded_at := Some 100%Z |} ] u
         /\ has_runtime_error
              [ {| fresh_unique_id := Scenario.stripe;
                   max_loaded_at := Some 150%Z |};
                {| fresh_unique_id := Scenario10.orders;
                   max_loaded_at := Some 100%Z |} ] u) ->
      SourceStatusSelectorMethod.search
        Sample.externals Scenario10.method
        [Scenario.stripe; Scenario10.orders] "fresher"
      = gen_raise (RuntimeError "Set changed size during iteration"))
  /\ ((forall u,
         fresher_than
           [ {| fresh_unique_id := Scenario.stripe;
                max_loaded_at := Some 100%Z |};
             {| fresh_unique_id := Scenario10.orders;
                max_loaded_at := Some 100%Z |} ]
           [ {| fresh_unique_id := Scenario.stripe;
                max_loaded_at := Some 150%Z |};
             {| fresh_unique_id := Scenario10.orders;
                max_loaded_at := Some 100%Z |} ] u ->
         ~ has_runtime_error
             [ {| fresh_unique_id := Scenario.stripe;
                  max_loaded_at := Some 150%Z |};
               {| fresh_unique_id := Scenario10.orders;
                  max_loaded_at := Some 100%Z |} ] u) ->
      raised (SourceStatusSelectorMethod.search
                Sample.externals Scenario10.method
                [Scenario.stripe; Scenario10.orders] "fresher") = None
      /\ forall u,
           In u (yields (SourceStatusSelectorMethod.search
                           Sample.externals Scenario10.method
                           [Scenario.stripe; Scenario10.orders] "fresher"))
           <-> (exists n, In (u, n)
                             (all_nodes Scenario10.method
                                        [Scenario.stripe;
                                         Scenario10.orders]))
               /\ fresher_than
                    [ {| fresh_unique_id := Scenario.stripe;
                         max_loaded_at := Some 100%Z |};
                      {| fresh_unique_id := Scenario10.orders;
                         max_loaded_at := Some 100%Z |} ]
                    [ {| fresh_unique_id := Scenario.stripe;
                         max_loaded_at := Some 150%Z |};
                      {| fresh_unique_id := Scenario10.orders;
                         max_loaded_at := Some 100%Z |} ] u).
Proof.
  apply (@source_status_search_outcome
           Sample.externals Scenario10.method
           [Scenario.stripe; Scenario10.orders] "stale"
           Scenario10.state); reflexivity.
Defined.

(** Only the source that was loaded again is fresher. *)
Example source_status_fresher_scenario :
  SourceStatusSelectorMethod.search
    Sample.externals Scenario10.method
    [Scenario.stripe; Scenario10.orders] "fresher"
  = Gen [Scenario.stripe] None.
Proof. reflexivity. Qed.

(** ** Defaults of the dotted selectors *)

Lemma split_dot_prepend_glob (s : string) :
  PyStr.split "." ("*." ++ s) = "*" :: PyStr.split "." s.
Proof.
  unfold PyStr.split.
  change ("*." ++ s)%string with ("*" ++ String "." s)%string.
  rewrite split_go_dot_app. reflexivity.
Qed.

Lemma split_dot_append_glob (s : string) :
  PyStr.split "." (s ++ ".*") = (PyStr.split "." s ++ ["*"])%list.
Proof.
  unfold PyStr.split.
  change (s ++ ".*")%string with (s ++ String "." "*")%string.
  rewrite split_go_dot_app. reflexivity.
Qed.

(** X20: the parts a dotted selector leaves out default to the glob
    that matches everything.  For the source matcher a one-part
    selector S selects what S.* selects and a two-part selector what
    *.S selects; for the exposure, metric, semantic model, saved query
    and unit test matchers a one-part selector S selects what *.S
    selects. *)
Theorem dotted_selector_defaults (X : Externals) (self : SelectorMethod)
        (included : IdSet) (selector : string) :
  (List.length (PyStr.split "." selector) = 1 ->
   SourceSelectorMethod.search X self included selector
   = SourceSelectorMethod.search X self included (selector ++ ".*")
   /\ forall msg candidates,
        package_name_search X msg candidates selector
        = package_name_search X msg candidates ("*." ++ selector))
  /\ (List.length (PyStr.split "." selector) = 2 ->
      SourceSelectorMethod.search X self included selector
      = SourceSelectorMethod.search X self included ("*." ++ selector)).
Proof.
  unfold SourceSelectorMethod.search, package_name_search.
  rewrite split_dot_prepend_glob, split_dot_append_glob.
  split; intros Hlen;
    destruct (PyStr.split "." selector) as [|p0 [|p1 [|p2 parts]]];
    try discriminate Hlen; [split|]; reflexivity.
Qed.

Lemma dotted_selector_defaults_witness :
  SourceSelectorMethod.search Sample.externals Scenario10.method
                              [Scenario.stripe] "stripe"
  = SourceSelectorMethod.search Sample.externals Scenario10.method
                                [Scenario.stripe] ("stripe" ++ ".*")
  /\ forall msg candidates,
       package_name_search Sample.externals msg candidates "stripe"
       = package_name_search Sample.externals msg candidates
                             ("*." ++ "stripe").
Proof.
  apply (proj1 (dotted_selector_defaults
                  Sample.externals Scenario10.method [Scenario.stripe]
                  "stripe")).
  reflexivity.
Defined.

(** ** Errors of the path matcher *)

Lemma gen_for_raised {A} (body : A -> gen) (l : list A) (e : exn) :
  raised (gen_for body l) = Some e ->
  exists x, In x l /\ raised (body x) = Some e.
Proof.
  induction l as [|x r IH]; simpl; [discriminate|].
  unfold gen_seq. destruct (raised (body x)) as [e'|] eqn:Hx.
  - intros H. exists x. split; [now left | congruence].
  - simpl. intros H. destruct (IH H) as (y & Hy & Hr). eauto.
Qed.

Lemma gen_for_raises {A} (body : A -> gen) (l : list A) (x : A) :
  In x l -> raised (body x) <> None -> raised (gen_for body l) <> None.
Proof.
  induction l as [|y r IH]; simpl; [contradiction|].
  intros [->|Hin] Hx; unfold gen_seq.
  - destruct (raised (body x)) eqn:E; [rewrite E; discriminate|].
    congruence.
  - destruct (raised (body y)) eqn:E; [rewrite E; discriminate|].
    simpl. auto.
Qed.

Lemma raised_gen_seq (g1 g2 : gen) :
  raised (gen_seq g1 g2)
  = match raised g1 with
    | Some e => Some e
    | None => raised g2
    end.
Proof.
  unfold gen_seq. destruct (raised g1) eqn:E; [exact E | reflexivity].
Qed.

Lemma raised_yield_if (b : bool) (u : UniqueId) :
  raised (yield_if b u) = None.
Proof. destruct b; reflexivity. Qed.

Lemma path_visit_raised (paths : list PyPath.t) (u : UniqueId) (n : Node) :
  raised (PathSelectorMethod.visit paths u n)
  = match patch_path n with
    | Some pp =>
        if PyStr.truthy pp then
          match nth_error (PyStr.split "://" pp) 1 with
          | Some _ => None
          | None => Some IndexError
          end
        else None
    | None => None
    end.
Proof.
  unfold PathSelectorMethod.visit, PathSelectorMethod.patch_file.
  rewrite !raised_gen_seq, !raised_yield_if.
  destruct (patch_path n) as [pp|]; [|reflexivity].
  destruct (PyStr.truthy pp); [|reflexivity].
  destruct (nth_error (PyStr.split "://" pp) 1); [|reflexivity].
  rewrite raised_yield_if. reflexivity.
Qed.

(** X21: the path matcher runs the glob before it looks at any node:
    if the glob raises (pathlib refuses the empty pattern, the pattern
    [.] and absolute patterns), the search raises that error and yields
    nothing,
    whatever the included ids.  If the glob returns, the search raises
    exactly when a candidate has a non-empty [patch_path] without the
    separator "://" (the split has no second piece), and the error is
    then [IndexError], whatever the files found. *)
Theorem path_search_raises_iff (X : Externals) (self : SelectorMethod)
        (included : IdSet) (selector : string) :
  (forall e, glob_paths X selector = Raise e ->
             PathSelectorMethod.search X self included selector
             = gen_raise e)
  /\ (forall paths, glob_paths X selector = Ret paths ->
        (raised (PathSelectorMethod.search X self included selector)
         <> None
         <-> exists u n pp,
               In (u, n) (all_nodes self included)
               /\ patch_path n = Some pp /\ pp <> ""
               /\ List.length (PyStr.split "://" pp) < 2)
        /\ (forall e,
              raised (PathSelectorMethod.search X self included selector)
              = Some e -> e = IndexError)).
Proof.
  unfold PathSelectorMethod.search.
  split; [intros e ->; reflexivity|]. intros paths ->.
  assert (Hbody : forall u n e,
            raised (PathSelectorMethod.visit paths u n) = Some e ->
            e = IndexError
            /\ exists pp, patch_path n = Some pp /\ pp <> ""
                          /\ List.length (PyStr.split "://" pp) < 2).
  { intros u n e. rewrite path_visit_raised.
    destruct (patch_path n) as [pp|]; [|discriminate].
    destruct pp as [|c pp]; [discriminate|]. cbn [PyStr.truthy].
    destruct (nth_error (PyStr.split "://" (String c pp)) 1) eqn:Hn;
      [discriminate|].
    intros H. inversion H. split; [reflexivity|].
    exists (String c pp). repeat split; [discriminate|].
    apply nth_error_None in Hn. lia. }
  split; [split|].
  - intros Hr.
    destruct (raised (gen_for _ (all_nodes self included))) as [e|] eqn:He;
      [|congruence].
    apply gen_for_raised in He. destruct He as ([u n] & Hin & Hv).
    apply Hbody in Hv. destruct Hv as [_ (pp & Hpp & Hne & Hlen)].
    exists u, n, pp. auto.
  - intros (u & n & pp & Hin & Hpp & Hne & Hlen).
    apply (gen_for_raises _ _ (u, n) Hin).
    rewrite path_visit_raised, Hpp.
    destruct pp as [|c pp]; [congruence|]. cbn [PyStr.truthy].
    destruct (nth_error (PyStr.split "://" (String c pp)) 1) eqn:Hn;
      [|discriminate].
    assert (nth_error (PyStr.split "://" (String c pp)) 1 <> None)
      by congruence.
    apply nth_error_Some in H. lia.
  - intros e He. apply gen_for_raised in He.
    destruct He as ([u n] & _ & Hv). apply Hbody in Hv. tauto.
Qed.

(** The patterns the glob refuses end the search before any node is
    visited, also when no id is included. *)
Example path_search_refused_patterns :
  PathSelectorMethod.search Sample.externals Scenario.one_model [] ""
  = gen_raise (LibraryError "ValueError" "Unacceptable pattern: ''")
  /\ PathSelectorMethod.search Sample.externals Scenario.one_model [] "."
     = gen_raise IndexError
  /\ PathSelectorMethod.search Sample.externals Scenario.one_model
                               ["model.pkg.m"] "/models"
     = gen_raise (LibraryError "NotImplementedError"
                               "Non-relative patterns are unsupported").
Proof. repeat split. Qed.

(** A patch path written without its scheme ends the search. *)
Example path_search_patch_without_scheme :
  raised (PathSelectorMethod.search
            Sample.externals
            (Scenario.method_on
               (Scenario.with_nodes
                  [("model.pkg.m",
                    {| node_class := ModelNode;
                       name := "m";
                       package_name := "pkg";
                       source_name := "";
                       original_file_path := "models/m.sql";
                       patch_path := Some "models/schema.yml";
                       resource_type := "model";
                       fqn := ["pkg"; "m"];
                       is_versioned := false;
                       config := [];
                       tags := Some [];
                       access := "protected";
                       test_metadata_name := None;
                       depends_on_macros := None;
                       version := CNone;
                       latest_version := CNone;
                       is_latest_version := false |})] [] [])
               None [])
            ["model.pkg.m"] "models")
  = Some IndexError.
Proof. reflexivity. Qed.

(** ** Case of the severity selector *)

Lemma eq_str_upper (X : Externals) (a b : string) :
  CaseInsensitive.eq_str X (str_upper X a) b = CaseInsensitive.eq_str X a b.
Proof.
  unfold CaseInsensitive.eq_str. rewrite str_upper_idem. reflexivity.
Qed.

Lemma existsb_ext_all {A} (f g : A -> bool) (l : list A) :
  (forall x, f x = g x) -> existsb f l = existsb g l.
Proof.
  intros H. induction l as [|x l IH]; simpl; [reflexivity|].
  rewrite H, IH. reflexivity.
Qed.

Lemma value_matches_upper (X : Externals) (selector : string)
      (value : cval) :
  ConfigSelectorMethod.value_matches X true (str_upper X selector) value
  = ConfigSelectorMethod.value_matches X true selector value.
Proof.
  assert (Heq : forall v,
            ConfigSelectorMethod.selector_eq X true (str_upper X selector) v
            = ConfigSelectorMethod.selector_eq X true selector v).
  { intros v. destruct v; simpl; try reflexivity. apply eq_str_upper. }
  unfold ConfigSelectorMethod.value_matches.
  destruct value; rewrite ?Heq, ?eq_str_upper; try reflexivity.
  rewrite (existsb_ext_all _ _ l Heq). reflexivity.
Qed.

(** X22: under the arguments [["severity"]] the config matcher does
    not see the case of the selector: the selector and its upper-case
    form select the same ids, for values that are strings and for
    values that are lists alike. *)
Theorem config_severity_case_invariant (X : Externals)
        (self : SelectorMethod) (included : IdSet) (selector : string) :
  arguments self = ["severity"] ->
  ConfigSelectorMethod.search X self included (str_upper X selector)
  = ConfigSelectorMethod.search X self included selector.
Proof.
  intros Hargs. unfold ConfigSelectorMethod.search. rewrite Hargs.
  apply gen_for_ext. intros [u n] _.
  unfold ConfigSelectorMethod.visit.
  destruct (_getattr_descend X (CDict (config n)) ["severity"]);
    [|reflexivity].
  change (ConfigSelectorMethod.is_severity ["severity"]) with true.
  rewrite value_matches_upper. reflexivity.
Qed.

Lemma config_severity_case_invariant_witness :
  ConfigSelectorMethod.search Sample.externals Scenario3.severity_method
                              ["test.pkg.not_null_m_id"]
                              (str_upper Sample.externals "warn")
  = ConfigSelectorMethod.search Sample.externals Scenario3.severity_method
                                ["test.pkg.not_null_m_id"] "warn".
Proof.
  apply config_severity_case_invariant. reflexivity.
Defined.
